(** * LIDAR point-cloud pipeline: colormaps, colorizer, loader, cross-section

    A shallow embedding of the four logic modules of the viewer
    (src/lib/colormaps.ts, src/lib/colorize.ts, src/lib/load-pointcloud.ts,
    src/lib/cross-section.ts) and the properties of the specification that
    are settled against them.

    JavaScript numbers are IEEE 754 binary64 values: they are modelled by
    Rocq's primitive [float], whose operations are the processor's and whose
    specification is [FloatAxioms].  Typed arrays are lists; a read past the
    end is [None] (JavaScript's [undefined]). *)

From Stdlib Require Import ZArith List Bool Lia Floats Sorting.Sorted Sorting.Permutation.
Import ListNotations.

Set Warnings "-inexact-float".
Local Open Scope Z_scope.

(** ** JavaScript numbers *)

Module JS.

Abbreviation number := float.

(** [x !== x]. *)
Definition isNaN (x : number) : bool := negb (x =? x)%float.

(** The sign bit of a non-NaN number ([Object.is(x, -0)] on zeros). *)
Definition signbit (x : number) : bool := get_sign x.

(** [Math.min(x, y)]: NaN if either is NaN, and [-0] below [+0]. *)
Definition Math_min (x y : number) : number :=
  if isNaN x || isNaN y then nan
  else if (x <? y)%float then x
  else if (y <? x)%float then y
  else if signbit x then x else y.

(** [Math.max(x, y)]: NaN if either is NaN, and [+0] above [-0]. *)
Definition Math_max (x y : number) : number :=
  if isNaN x || isNaN y then nan
  else if (y <? x)%float then x
  else if (x <? y)%float then y
  else if signbit x then y else x.

Definition Math_abs (x : number) : number := abs x.
Definition Math_sqrt (x : number) : number := sqrt x.

(** The integer [z] as a number (exact for |z| < 2^53). *)
Definition of_Z (z : Z) : number :=
  match z with
  | Z0 => zero
  | Zpos _ => of_uint63 (Uint63.of_Z z)
  | Zneg _ => (- of_uint63 (Uint63.of_Z (- z)))%float
  end.

(** [Math.round(x)]: the integer nearest to [x], ties towards +infinity;
    NaN, the infinities and the zeros are returned as they are, and a
    result of zero keeps the sign of [x].  A finite non-zero [x] is
    [m * 2^e] exactly, so the rounding is computed on integers. *)
Definition Math_round (x : number) : number :=
  match Prim2SF x with
  | S754_finite s m e =>
      if 0 <=? e then x
      else
        let d := Z.pow 2 (- e) in
        let n := if s then Z.neg m else Z.pos m in
        let q := (2 * n + d) / (2 * d) in
        if q =? 0 then (if s then neg_zero else zero) else of_Z q
  | _ => x
  end.

(** ToInt of a finite number: truncation towards zero. *)
Definition trunc (x : number) : Z :=
  match Prim2SF x with
  | S754_finite s m e =>
      let a := if 0 <=? e then Z.pos m * Z.pow 2 e else Z.pos m / Z.pow 2 (- e) in
      if s then - a else a
  | _ => 0
  end.

(** ToUint8, the conversion applied by a store into a [Uint8Array]:
    NaN and the infinities become 0, other numbers are truncated and
    reduced modulo 256. *)
Definition ToUint8 (x : number) : Z := trunc x mod 256.

(** [Math.fround], the conversion applied by a store into a
    [Float32Array]: rounding to the nearest binary32 value. *)
Definition Math_fround (x : number) : number :=
  match Prim2SF x with
  | S754_finite s m e =>
      SF2Prim (binary_normalize 24 128 (if s then Z.neg m else Z.pos m) e s)
  | _ => x
  end.

(** [x || d] on numbers: [d] replaces the falsy numbers 0, -0 and NaN. *)
Definition or_else (x d : number) : number :=
  if (x =? 0)%float || isNaN x then d else x.

End JS.

Import JS.

(** ** Binary64 numbers as the specification sees them *)

Module Binary64.

(** The rank of a number that is not NaN: its sign class, then its exponent,
    then its mantissa, each signed so that the lexicographic order of the
    ranks is the order of the values. *)
Definition ord (f : spec_float) : Z * Z * Z :=
  match f with
  | S754_nan => (0, 0, 0)
  | S754_zero _ => (0, 0, 0)
  | S754_infinity true => (-2, 0, 0)
  | S754_infinity false => (2, 0, 0)
  | S754_finite true m e => (-1, - e, Z.neg m)
  | S754_finite false m e => (1, e, Z.pos m)
  end.

(** The lexicographic comparison of two ranks. *)
Definition lex (a b : Z * Z * Z) : comparison :=
  let '(a1, a2, a3) := a in
  let '(b1, b2, b3) := b in
  match a1 ?= b1 with
  | Eq => match a2 ?= b2 with Eq => a3 ?= b3 | c => c end
  | c => c
  end.

(** [x] is not NaN. *)
Definition nn (x : float) : Prop := Prim2SF x <> S754_nan.

(** A finite or infinite number of sign [s]. *)
Definition signed (s : bool) (f : spec_float) : Prop :=
  match f with
  | S754_finite s' _ _ | S754_infinity s' => s' = s
  | _ => False
  end.

(** NaN or an infinity. *)
Definition special (x : float) : Prop :=
  match Prim2SF x with
  | S754_nan | S754_infinity _ => True
  | _ => False
  end.

End Binary64.

Import Binary64.

(** ** colormaps.ts *)

Module Colormaps.

Local Open Scope float_scope.

(** [ColormapName] (types.ts). *)
Inductive ColormapName :=
| viridis | plasma | inferno | magma | cividis | turbo
| jet | rainbow | coolwarm | terrain | gray.

(** A color stop: [[position, red, green, blue]]. *)
Record ColorStop := stop { pos : number; red : number; green : number; blue : number }.

Definition viridis_stops : list ColorStop :=
  [ stop 0.0 68 1 84;
    stop 0.1 72 35 116;
    stop 0.2 64 67 135;
    stop 0.3 52 94 141;
    stop 0.4 41 120 142;
    stop 0.5 32 144 140;
    stop 0.6 34 167 132;
    stop 0.7 68 190 112;
    stop 0.8 121 209 81;
    stop 0.9 189 222 38;
    stop 1.0 253 231 37 ].

Definition plasma_stops : list ColorStop :=
  [ stop 0.0 13 8 135;
    stop 0.1 75 3 161;
    stop 0.2 125 3 168;
    stop 0.3 168 34 150;
    stop 0.4 203 70 121;
    stop 0.5 229 107 93;
    stop 0.6 248 148 65;
    stop 0.7 253 195 40;
    stop 0.8 240 228 66;
    stop 0.9 222 244 113;
    stop 1.0 240 249 33 ].

Definition inferno_stops : list ColorStop :=
  [ stop 0.0 0 0 4;
    stop 0.1 22 11 57;
    stop 0.2 66 10 104;
    stop 0.3 106 23 110;
    stop 0.4 147 38 103;
    stop 0.5 188 55 84;
    stop 0.6 221 81 58;
    stop 0.7 243 118 27;
    stop 0.8 252 165 10;
    stop 0.9 246 215 70;
    stop 1.0 252 255 164 ].

Definition turbo_stops : list ColorStop :=
  [ stop 0.0 48 18 59;
    stop 0.1 67 85 189;
    stop 0.2 45 150 228;
    stop 0.3 24 196 193;
    stop 0.4 68 227 135;
    stop 0.5 147 244 73;
    stop 0.6 209 234 43;
    stop 0.7 249 195 35;
    stop 0.8 253 141 33;
    stop 0.9 228 74 25;
    stop 1.0 163 16 16 ].

Definition magma_stops : list ColorStop :=
  [ stop 0.0 0 0 4;
    stop 0.1 23 11 58;
    stop 0.2 66 15 117;
    stop 0.3 114 31 129;
    stop 0.4 163 50 120;
    stop 0.5 211 67 94;
    stop 0.6 248 107 78;
    stop 0.7 254 155 87;
    stop 0.8 252 205 127;
    stop 0.9 252 253 191;
    stop 1.0 252 253 255 ].

Definition cividis_stops : list ColorStop :=
  [ stop 0.0 0 32 77;
    stop 0.2 0 53 107;
    stop 0.4 65 77 107;
    stop 0.6 124 123 120;
    stop 0.8 190 186 118;
    stop 1.0 255 234 70 ].

Definition jet_stops : list ColorStop :=
  [ stop 0.0 0 0 128;
    stop 0.125 0 0 255;
    stop 0.375 0 255 255;
    stop 0.625 255 255 0;
    stop 0.875 255 0 0;
    stop 1.0 128 0 0 ].

Definition rainbow_stops : list ColorStop :=
  [ stop 0.0 0 0 255;
    stop 0.2 0 255 255;
    stop 0.4 0 255 0;
    stop 0.6 255 255 0;
    stop 0.8 255 0 0;
    stop 1.0 255 0 255 ].

Definition coolwarm_stops : list ColorStop :=
  [ stop 0.0 59 76 192;
    stop 0.25 119 154 229;
    stop 0.5 221 221 221;
    stop 0.75 241 142 105;
    stop 1.0 180 4 38 ].

Definition terrain_stops : list ColorStop :=
  [ stop 0.0 51 128 51;
    stop 0.2 102 179 102;
    stop 0.3 179 204 102;
    stop 0.4 204 179 102;
    stop 0.6 179 128 77;
    stop 0.8 204 179 153;
    stop 1.0 255 255 255 ].

Definition gray_stops : list ColorStop :=
  [ stop 0.0 0 0 0;
    stop 1.0 255 255 255 ].

Definition COLORMAPS (name : ColormapName) : list ColorStop :=
  match name with
  | viridis => viridis_stops | plasma => plasma_stops | inferno => inferno_stops
  | magma => magma_stops | cividis => cividis_stops | turbo => turbo_stops
  | jet => jet_stops | rainbow => rainbow_stops | coolwarm => coolwarm_stops
  | terrain => terrain_stops | gray => gray_stops
  end.

Definition RGB : Type := number * number * number.

(** The body of the bracket found: [a + (b - a) * fraction], rounded. *)
Definition lerp_stops (s0 s1 : ColorStop) (t : number) : RGB :=
  let fraction := (t - pos s0) / (pos s1 - pos s0) in
  (Math_round (red s0 + (red s1 - red s0) * fraction),
   Math_round (green s0 + (green s1 - green s0) * fraction),
   Math_round (blue s0 + (blue s1 - blue s0) * fraction)).

(** The loop [for (i = 0; i < stops.length - 1; i++)] over the pairs
    [(stops[i], stops[i+1])]: the first bracket with
    [t >= pos0 && t <= pos1] returns; [None] when the loop falls through. *)
Fixpoint scan_stops (stops : list ColorStop) (t : number) : option RGB :=
  match stops with
  | s0 :: (s1 :: _) as rest =>
      if (pos s0 <=? t) && (t <=? pos s1) then Some (lerp_stops s0 s1 t)
      else scan_stops rest t
  | _ => None
  end.

Definition stop_color (s : ColorStop) : RGB := (red s, green s, blue s).

(** [sampleColormap(name, t)].  Every registered colormap has a stop, so
    [stops[stops.length - 1]] is defined ([COLORMAPS_nonempty]). *)
Definition sampleColormap (name : ColormapName) (t : number) : RGB :=
  let stops := COLORMAPS name in
  let t := Math_max 0 (Math_min 1 t) in
  match scan_stops stops t with
  | Some c => c
  | None => stop_color (last stops (stop 0 0 0 0))
  end.

End Colormaps.

Import Colormaps.

(** ** Typed arrays and thrown errors *)

Module Runtime.

(** The classes of the errors the modules throw or let the runtime throw:
    a plain [Error] ([throw new Error(...)], or whatever an external call
    throws), [TypeError] (a property read on [undefined]) and [RangeError]
    (an invalid typed-array length or copy, an out-of-bounds [DataView]
    access). *)
Inductive error := Error | TypeError | RangeError.

Inductive result (A : Type) :=
| Ret (a : A)
| Throw (e : error).

Arguments Ret {A} a.
Arguments Throw {A} e.

Definition bind {A B} (r : result A) (k : A -> result B) : result B :=
  match r with
  | Ret a => k a
  | Throw e => Throw e
  end.

Notation "x <- r ;; k" := (bind r (fun x => k))
  (at level 61, r at next level, right associativity).
Notation "' p <- r ;; k" := (bind r (fun x => let p := x in k))
  (at level 61, p pattern, r at next level, right associativity).

(** [new T(n)]: a typed array of [n] zeros. *)
Definition alloc {A} (z : A) (n : nat) : list A := repeat z n.

(** [buf[i] = v] on a typed array: a store past the end is ignored. *)
Fixpoint store {A} (buf : list A) (i : nat) (v : A) : list A :=
  match buf, i with
  | [], _ => []
  | _ :: t, O => v :: t
  | x :: t, S j => x :: store t j v
  end.

(** [buf[i]]: [None] is [undefined]. *)
Definition read {A} (buf : list A) (i : nat) : option A := nth_error buf i.

(** [buf[i]] at a computed index, which may be negative. *)
Definition readZ {A} (buf : list A) (i : Z) : option A :=
  if i <? 0 then None else nth_error buf (Z.to_nat i).

(** ToNumber of a value read: [undefined] is NaN. *)
Definition num (v : option number) : number :=
  match v with Some x => x | None => nan end.

(** ToUint8 of a byte read: [undefined] is 0. *)
Definition byte (v : option Z) : Z :=
  match v with Some x => x | None => 0 end.

(** [for (let i = 0; i < n; i++) body], threading the variables the body
    assigns. *)
Definition for_loop {St} (n : nat) (body : nat -> St -> St) (s : St) : St :=
  fold_left (fun s i => body i s) (seq 0 n) s.

(** The same loop when the body may throw. *)
Fixpoint for_loop_from {St} (n i : nat) (body : nat -> St -> result St) (s : St)
  : result St :=
  match n with
  | O => Ret s
  | S n' => s' <- body i s ;; for_loop_from n' (S i) body s'
  end.

End Runtime.

Import Runtime.

(** ** types.ts *)

Module Types.

Record Bounds := {
  minX : number; maxX : number;
  minY : number; maxY : number;
  minZ : number; maxZ : number }.

(** [PointCloudData].  [positions] and [intensities] are [Float32Array]s,
    [colors] and [classifications] are [Uint8Array]s (their elements are
    integers in 0..255); [pointCount] is a count, a natural number. *)
Record PointCloudData := {
  positions : list number;
  coordinateOrigin : number * number * number;
  colors : option (list Z);
  intensities : option (list number);
  classifications : option (list Z);
  pointCount : nat;
  bounds : Bounds }.

(** [ProfilePoint].  [elevation], [classification], [intensity] and the
    channels of [color] hold what was read from a buffer: [None] is the
    [undefined] of a read past its end. *)
Record ProfilePoint := {
  distance : number;
  elevation : option number;
  classification : option Z;
  intensity : option number;
  color : option Z * option Z * option Z }.

(** [ColorScheme]: 'elevation' | 'intensity' | 'classification' | 'rgb'. *)
Inductive ColorScheme := Elevation | Intensity | Classification | Rgb.

(** [ViewSettings], with the fields the colorizer reads.
    [classificationVisibility] is a [Record<number, boolean>]: a lookup
    that is [None] on a key the object does not have. *)
Record ViewSettings := {
  colorScheme : ColorScheme;
  colormap : ColormapName;
  classificationVisibility : Z -> option bool }.

End Types.

Import Types.

(** ** colorize.ts *)

Module Colorize.

Local Open Scope float_scope.

Definition Color : Type := Z * Z * Z.

(** [CLASSIFICATION_COLORS[code]]: [None] on a code outside the table. *)
Definition CLASSIFICATION_COLORS (code : Z) : option Color :=
  match code with
  | 0 => Some (180, 180, 180)
  | 1 => Some (180, 180, 180)
  | 2 => Some (139, 90, 43)
  | 3 => Some (0, 200, 0)
  | 4 => Some (0, 150, 0)
  | 5 => Some (0, 100, 0)
  | 6 => Some (255, 165, 0)
  | 7 => Some (255, 0, 0)
  | 9 => Some (0, 100, 255)
  | 17 => Some (200, 200, 0)
  | _ => None
  end%Z.

(** The four stores [colors[i*4] = r; ...; colors[i*4 + 3] = a]. *)
Definition store_rgba (buf : list Z) (i : nat) (r g b a : Z) : list Z :=
  store (store (store (store buf (i * 4) r) (i * 4 + 1) g) (i * 4 + 2) b) (i * 4 + 3) a.

(** [fillSolidColor(colors, count, r, g, b)]. *)
Definition fillSolidColor (colors : list Z) (count : nat) (r g b : Z) : list Z :=
  for_loop count (fun i colors => store_rgba colors i r g b 255) colors.

(** A sampled color stored into the byte buffer, alpha 255. *)
Definition store_sample (cmap : ColormapName) (t : number) (i : nat) (colors : list Z)
  : list Z :=
  let '(r, g, b) := sampleColormap cmap t in
  store_rgba colors i (ToUint8 r) (ToUint8 g) (ToUint8 b) 255.

(** [case 'elevation']. *)
Definition colorize_elevation (data : PointCloudData) (cmap : ColormapName)
  (colors : list Z) : list Z :=
  let range := or_else (maxZ (bounds data) - minZ (bounds data)) 1 in
  for_loop (pointCount data) (fun i colors =>
    let z := num (read (positions data) (i * 3 + 2)) in
    let t := (z - minZ (bounds data)) / range in
    store_sample cmap t i colors) colors.

(** The loop that finds the observed minimum and maximum intensity. *)
Definition intensity_range (count : nat) (ints : list number) : number * number :=
  for_loop count (fun i '(minI, maxI) =>
    let v := num (read ints i) in
    let minI := if v <? minI then v else minI in
    let maxI := if maxI <? v then v else maxI in
    (minI, maxI)) (infinity, neg_infinity).

(** [case 'intensity']. *)
Definition colorize_intensity (data : PointCloudData) (cmap : ColormapName)
  (colors : list Z) : list Z :=
  match intensities data with
  | None => fillSolidColor colors (pointCount data) 180 180 180
  | Some ints =>
      let '(minI, maxI) := intensity_range (pointCount data) ints in
      let range := or_else (maxI - minI) 1 in
      for_loop (pointCount data) (fun i colors =>
        let t := (num (read ints i) - minI) / range in
        store_sample cmap t i colors) colors
  end.

(** [classificationVisibility[code] !== false]; an [undefined] code names
    no key of the record. *)
Definition isVisible (vis : Z -> option bool) (code : option Z) : bool :=
  match code with
  | Some c => match vis c with Some false => false | _ => true end
  | None => true
  end.

(** [CLASSIFICATION_COLORS[code] ?? [180, 180, 180]]. *)
Definition class_color (code : option Z) : Color :=
  match code with
  | Some c => match CLASSIFICATION_COLORS c with Some col => col | None => (180, 180, 180)%Z end
  | None => (180, 180, 180)%Z
  end.

(** [case 'classification']. *)
Definition colorize_classification (data : PointCloudData) (vis : Z -> option bool)
  (colors : list Z) : list Z :=
  match classifications data with
  | None => fillSolidColor colors (pointCount data) 180 180 180
  | Some cls =>
      for_loop (pointCount data) (fun i colors =>
        let code := read cls i in
        if isVisible vis code then
          let '(r, g, b) := class_color code in
          store_rgba colors i r g b 255
        else
          store colors (i * 4 + 3) 0%Z) colors
  end.

(** [colors.set(source)]: throws a [RangeError] when the source is longer
    than the target, otherwise overwrites its first elements. *)
Definition typed_set (colors source : list Z) : result (list Z) :=
  if (length colors <? length source)%nat then Throw RangeError
  else Ret (source ++ skipn (length source) colors).

(** The present-colors branch of [case 'rgb']. *)
Definition colorize_rgb (data : PointCloudData) (source colors : list Z)
  : result (list Z) :=
  colors <- typed_set colors source ;;
  Ret (for_loop (pointCount data) (fun i colors => store colors (i * 4 + 3) 255%Z) colors).

(** [colorizePoints(data, settings)].  The absent-colors branch of
    [case 'rgb'] calls [colorizePoints(data, settings)] again with the
    arguments it received; [fuel] bounds the depth of that recursion and
    [None] is a call that has not returned within it. *)
Fixpoint colorizePoints (fuel : nat) (data : PointCloudData) (settings : ViewSettings)
  : option (result (list Z)) :=
  match fuel with
  | O => None
  | S fuel' =>
      let count := pointCount data in
      let colors := alloc 0%Z (count * 4) in
      match colorScheme settings with
      | Elevation => Some (Ret (colorize_elevation data (colormap settings) colors))
      | Intensity => Some (Ret (colorize_intensity data (colormap settings) colors))
      | Classification =>
          Some (Ret (colorize_classification data (classificationVisibility settings) colors))
      | Rgb =>
          match Types.colors data with
          | Some source => Some (colorize_rgb data source colors)
          | None => colorizePoints fuel' data settings
          end
      end
  end.

(** [getAvailableSchemes(data)]. *)
Definition getAvailableSchemes (data : option PointCloudData) (scheme : ColorScheme) : bool :=
  match scheme, data with
  | Elevation, _ => true
  | _, None => false
  | Intensity, Some d => match intensities d with Some _ => true | None => false end
  | Classification, Some d => match classifications d with Some _ => true | None => false end
  | Rgb, Some d => match Types.colors d with Some _ => true | None => false end
  end.

End Colorize.

Import Colorize.

(** ** load-pointcloud.ts *)

Module Loader.

Local Open Scope float_scope.

(** A decoded attribute: [{ value, size }]. *)
Record Attribute (A : Type) := { value : list A; size : Z }.

Arguments value {A} a.
Arguments size {A} a.

(** [LASMesh], the object the decoder returns: [header.vertexCount] and the
    attributes.  [POSITION] is required by the interface; the decoder's
    object is loosely typed, so its absence at run time is [None]. *)
Record LASMesh := {
  vertexCount : Z;
  POSITION : option (Attribute number);
  COLOR_0 : option (Attribute Z);
  intensity_attr : option (Attribute number);
  classification_attr : option (Attribute Z) }.

Definition MAX_POINTS : Z := 500000.

Definition CHUNK_SIZE : Z := 50000.

(** [Math.ceil(a / b)] on integers, [b] positive.  A vertex count is an
    integer; below 2^53 the quotient computed in binary64 has the ceiling
    of the exact quotient, which is what this is. *)
Definition ceil_div (a b : Z) : Z := (- ((- a) / b))%Z.

(** [totalPoints > MAX_POINTS ? Math.ceil(totalPoints / MAX_POINTS) : 1]. *)
Definition sample_step (totalPoints : Z) : Z :=
  if (MAX_POINTS <? totalPoints)%Z then ceil_div totalPoints MAX_POINTS else 1%Z.

(** [Math.ceil(totalPoints / step)]. *)
Definition sample_count (totalPoints : Z) : Z :=
  ceil_div totalPoints (sample_step totalPoints).

(** [new T(n)] for a computed length: a negative length is a [RangeError]. *)
Definition new_array {A} (z : A) (n : Z) : result (list A) :=
  if (n <? 0)%Z then Throw RangeError else Ret (alloc z (Z.to_nat n)).

(** [view.getUint8(offset)]: a [RangeError] outside the buffer. *)
Definition getUint8 (buffer : list Z) (offset : nat) : result Z :=
  match nth_error buffer offset with
  | Some b => Ret b
  | None => Throw RangeError
  end.

(** The version and point-format check on the file's header; it returns the
    buffer handed to the decoder, patched to version 1.3 when it was 1.4. *)
Definition check_header (arrayBuffer : list Z) : result (list Z) :=
  versionMajor <- getUint8 arrayBuffer 24 ;;
  versionMinor <- getUint8 arrayBuffer 25 ;;
  formatByte <- getUint8 arrayBuffer 104 ;;
  let pointFormatId := Z.land formatByte 63 in
  if ((versionMajor =? 1) && (versionMinor =? 4))%Z then
    if (3 <? pointFormatId)%Z then Throw Error
    else Ret (store arrayBuffer 25 3%Z)
  else Ret arrayBuffer.

Definition initial_bounds : Bounds :=
  {| minX := infinity; maxX := neg_infinity;
     minY := infinity; maxY := neg_infinity;
     minZ := infinity; maxZ := neg_infinity |}.

(** The six updates [if (lng < minX) minX = lng; ...]. *)
Definition track (b : Bounds) (lng lat z : number) : Bounds :=
  {| minX := if lng <? minX b then lng else minX b;
     maxX := if maxX b <? lng then lng else maxX b;
     minY := if lat <? minY b then lat else minY b;
     maxY := if maxY b <? lat then lat else maxY b;
     minZ := if z <? minZ b then z else minZ b;
     maxZ := if maxZ b <? z then z else maxZ b |}.

(** The variables the reprojection loop assigns. *)
Record Pass := {
  lngLat : list number;
  out_intensities : option (list number);
  out_classifications : option (list Z);
  box : Bounds }.

Section Build.

(** The projection engine, [toWGS84.forward([utmX, utmY])]: it receives
    what was read from the position buffer and may throw. *)
Variable forward : option number * option number -> result (number * number).

(** The decoder, [load(arrayBuffer, LASLoader, ...)]. *)
Variable load : list Z -> result LASMesh.

(** One iteration of the reprojection loop of step 4. *)
Definition reproject_point (step : Z) (rawPositions : list number)
  (rawIntensity : option (list number)) (rawClassification : option (list Z))
  (i : nat) (p : Pass) : result Pass :=
  let srcIdx := (Z.of_nat i * step)%Z in
  let utmX := readZ rawPositions (srcIdx * 3) in
  let utmY := readZ rawPositions (srcIdx * 3 + 1) in
  let z := num (readZ rawPositions (srcIdx * 3 + 2)) in
  '(lng, lat) <- forward (utmX, utmY) ;;
  let lngLat := store (store (store (lngLat p) (i * 3) lng) (i * 3 + 1) lat) (i * 3 + 2) z in
  let intensities :=
    match out_intensities p, rawIntensity with
    | Some buf, Some raw => Some (store buf i (Math_fround (num (readZ raw srcIdx) / 65535)))
    | other, _ => other
    end in
  let classifications :=
    match out_classifications p, rawClassification with
    | Some buf, Some raw => Some (store buf i (byte (readZ raw srcIdx)))
    | other, _ => other
    end in
  Ret {| lngLat := lngLat;
         out_intensities := intensities;
         out_classifications := classifications;
         box := track (box p) lng lat z |}.

(** Step 6: the offsets from the origin, stored as 32-bit floats. *)
Definition encode_offsets (pointCount : nat) (lngLat : list number)
  (originLng originLat : number) (positions : list number) : list number :=
  for_loop pointCount (fun i positions =>
    let positions := store positions (i * 3) (Math_fround (num (read lngLat (i * 3)) - originLng)) in
    let positions := store positions (i * 3 + 1) (Math_fround (num (read lngLat (i * 3 + 1)) - originLat)) in
    store positions (i * 3 + 2) (Math_fround (num (read lngLat (i * 3 + 2))))) positions.

(** Step 7: the color loop. *)
Definition copy_colors (pointCount : nat) (step : Z) (rawColors : list Z)
  (channelSize : Z) (colors : list Z) : list Z :=
  for_loop pointCount (fun i colors =>
    let srcIdx := (Z.of_nat i * step)%Z in
    let colors :=
      if (3 <=? channelSize)%Z then
        let colors := store colors (i * 4) (byte (readZ rawColors (srcIdx * channelSize))) in
        let colors := store colors (i * 4 + 1) (byte (readZ rawColors (srcIdx * channelSize + 1))) in
        store colors (i * 4 + 2) (byte (readZ rawColors (srcIdx * channelSize + 2)))
      else colors in
    store colors (i * 4 + 3) 255%Z) colors.

(** The part of [loadPointCloud] that follows the decoder, steps 2 to 7.
    Progress reports, console output and the yields to the event loop do
    not bear on the value returned and are left out. *)
Definition build (mesh : LASMesh) : result PointCloudData :=
  let totalPoints := vertexCount mesh in
  match POSITION mesh with
  | None => Throw TypeError
  | Some position =>
      let rawPositions := value position in
      let step := sample_step totalPoints in
      let pointCount := sample_count totalPoints in
      let rawColors := COLOR_0 mesh in
      let rawIntensity := option_map value (intensity_attr mesh) in
      let rawClassification := option_map value (classification_attr mesh) in
      lngLat0 <- new_array 0 (pointCount * 3) ;;
      let n := Z.to_nat pointCount in
      let intensities0 := option_map (fun _ => alloc 0 n) rawIntensity in
      let classifications0 := option_map (fun _ => alloc 0%Z n) rawClassification in
      pass <- for_loop_from n 0
                (reproject_point step rawPositions rawIntensity rawClassification)
                {| lngLat := lngLat0;
                   out_intensities := intensities0;
                   out_classifications := classifications0;
                   box := initial_bounds |} ;;
      let b := box pass in
      let originLng := (minX b + maxX b) / 2 in
      let originLat := (minY b + maxY b) / 2 in
      let positions := encode_offsets n (lngLat pass) originLng originLat (alloc 0 (n * 3)) in
      let colors :=
        match rawColors with
        | Some c => Some (copy_colors n step (value c) (size c) (alloc 0%Z (n * 4)))
        | None => None
        end in
      Ret {| positions := positions;
             coordinateOrigin := (originLng, originLat, 0);
             colors := colors;
             intensities := out_intensities pass;
             classifications := out_classifications pass;
             pointCount := n;
             bounds := b |}
  end.

(** [loadPointCloud], from the bytes fetched for the source: the header
    check, the decoder, then [build].  An error thrown on the way is
    rethrown to the caller. *)
Definition loadPointCloud (arrayBuffer : list Z) : result PointCloudData :=
  patched <- check_header arrayBuffer ;;
  mesh <- load patched ;;
  build mesh.

End Build.

End Loader.

Import Loader.

(** ** cross-section.ts *)

Module CrossSection.

Local Open Scope float_scope.

Definition Math_PI : number := 3.141592653589793.

(** [Array.prototype.sort(comparefn)]: a stable sort by the sign of
    [comparefn(a, b)]; an element goes after those it compares greater
    than.  (ECMAScript fixes the result for a consistent comparator and
    leaves the algorithm open: this is insertion from the right.) *)
Fixpoint sort_insert {A} (comparefn : A -> A -> number) (a : A) (l : list A) : list A :=
  match l with
  | [] => [a]
  | b :: t => if 0 <? comparefn a b then b :: sort_insert comparefn a t else a :: l
  end.

Definition Array_sort {A} (comparefn : A -> A -> number) (l : list A) : list A :=
  fold_right (sort_insert comparefn) [] l.

(** The corridor in the local meter frame: meters per degree, the start
    point, and the axis with its length. *)
Record Corridor := {
  metersPerDegLng : number;
  metersPerDegLat : number;
  x1 : number; y1 : number;
  dx : number; dy : number;
  len : number }.

Section Profile.

(** [Math.cos], which ECMAScript leaves implementation-approximated. *)
Variable Math_cos : number -> number.

Definition corridor (data : PointCloudData) (start end_ : number * number) : Corridor :=
  let '(ox, oy, _) := coordinateOrigin data in
  let cosLat := Math_cos (oy * Math_PI / 180) in
  let metersPerDegLat := 111320 in
  let metersPerDegLng := 111320 * cosLat in
  let x1 := (fst start - ox) * metersPerDegLng in
  let y1 := (snd start - oy) * metersPerDegLat in
  let x2 := (fst end_ - ox) * metersPerDegLng in
  let y2 := (snd end_ - oy) * metersPerDegLat in
  let dx := x2 - x1 in
  let dy := y2 - y1 in
  let lenSq := dx * dx + dy * dy in
  {| metersPerDegLng := metersPerDegLng; metersPerDegLat := metersPerDegLat;
     x1 := x1; y1 := y1; dx := dx; dy := dy; len := Math_sqrt lenSq |}.

(** The vector from the start of the corridor to point [i], in meters. *)
Definition to_point (c : Corridor) (data : PointCloudData) (i : nat) : number * number :=
  let px := num (read (positions data) (i * 3)) * metersPerDegLng c in
  let py := num (read (positions data) (i * 3 + 1)) * metersPerDegLat c in
  (px - x1 c, py - y1 c).

(** [dist]: the projection onto the unit vector [u] along the line. *)
Definition point_dist (c : Corridor) (data : PointCloudData) (i : nat) : number :=
  let '(vx, vy) := to_point c data i in
  let ux := dx c / len c in
  let uy := dy c / len c in
  vx * ux + vy * uy.

(** [offset]: the projection onto the normal [n = (-uy, ux)]. *)
Definition point_offset (c : Corridor) (data : PointCloudData) (i : nat) : number :=
  let '(vx, vy) := to_point c data i in
  let ux := dx c / len c in
  let uy := dy c / len c in
  let nx := - uy in
  let ny := ux in
  vx * nx + vy * ny.

(** [dist >= 0 && dist <= len && Math.abs(offset) <= halfWidth]. *)
Definition in_corridor (c : Corridor) (width : number) (data : PointCloudData) (i : nat)
  : bool :=
  let halfWidth := width / 2 in
  (0 <=? point_dist c data i) && (point_dist c data i <=? len c)
  && (Math_abs (point_offset c data i) <=? halfWidth).

(** The [ProfilePoint] pushed for point [i]. *)
Definition profile_point (c : Corridor) (data : PointCloudData) (i : nat) : ProfilePoint :=
  {| distance := point_dist c data i;
     elevation := read (positions data) (i * 3 + 2);
     color :=
       match colors data with
       | Some colors => (read colors (i * 4), read colors (i * 4 + 1), read colors (i * 4 + 2))
       | None => (Some 255, Some 255, Some 255)%Z
       end;
     intensity :=
       match intensities data with
       | Some intensities => read intensities i
       | None => Some 0
       end;
     classification :=
       match classifications data with
       | Some classifications => read classifications i
       | None => Some 0%Z
       end |}.

(** [getProfile(data, start, end, width)] ([width] is passed; its default
    is 2).  Nothing in the function throws on a [PointCloudData]: reads of
    typed arrays past their end are [undefined]. *)
Definition getProfile (data : PointCloudData) (start end_ : number * number)
  (width : number) : list ProfilePoint :=
  let c := corridor data start end_ in
  if len c =? 0 then []
  else
    let profile :=
      for_loop (pointCount data) (fun i profile =>
        if in_corridor c width data i then profile ++ [profile_point c data i]
        else profile) [] in
    Array_sort (fun a b => distance a - distance b) profile.

End Profile.

End CrossSection.

Import CrossSection.

(** ** Notions the properties are stated with *)

Module Notions.

Local Open Scope float_scope.

(** A reprojected point: longitude, latitude, elevation. *)
Definition Point : Type := number * number * number.

Section Reprojected.

Variable forward : option number * option number -> result (number * number).

(** The reprojected coordinates of sampled point [i]: the projection of
    the source point at index [i * step], with its elevation. *)
Definition projected (step : Z) (rawPositions : list number) (i : nat) : result Point :=
  let srcIdx := (Z.of_nat i * step)%Z in
  '(lng, lat) <- forward (readZ rawPositions (srcIdx * 3), readZ rawPositions (srcIdx * 3 + 1)) ;;
  Ret (lng, lat, num (readZ rawPositions (srcIdx * 3 + 2))).

(** The reprojected coordinates of sampled points [i .. i + n - 1]. *)
Fixpoint reproject_from (step : Z) (rawPositions : list number) (n i : nat)
  : result (list Point) :=
  match n with
  | O => Ret []
  | S n' =>
      p <- projected step rawPositions i ;;
      ps <- reproject_from step rawPositions n' (S i) ;;
      Ret (p :: ps)
  end.

(** The reprojected (pre-offset) points of a mesh, in sampling order. *)
Definition reprojected (mesh : LASMesh) : result (list Point) :=
  match POSITION mesh with
  | None => Throw TypeError
  | Some position =>
      reproject_from (sample_step (vertexCount mesh)) (value position)
        (Z.to_nat (sample_count (vertexCount mesh))) 0
  end.

End Reprojected.

Definition track_point (b : Bounds) (p : Point) : Bounds :=
  let '(lng, lat, z) := p in track b lng lat z.

(** No coordinate of the point is NaN. *)
Definition is_numeric (p : Point) : Prop :=
  let '(lng, lat, z) := p in
  isNaN lng = false /\ isNaN lat = false /\ isNaN z = false.

(** No point lies outside the box. *)
Definition encloses (b : Bounds) (pts : list Point) : Prop :=
  forall lng lat z, In (lng, lat, z) pts ->
    (minX b <=? lng) = true /\ (lng <=? maxX b) = true
    /\ (minY b <=? lat) = true /\ (lat <=? maxY b) = true
    /\ (minZ b <=? z) = true /\ (z <=? maxZ b) = true.

(** Each face of the box passes through a point. *)
Definition attained (b : Bounds) (pts : list Point) : Prop :=
  (exists p, In p pts /\ fst (fst p) = minX b)
  /\ (exists p, In p pts /\ fst (fst p) = maxX b)
  /\ (exists p, In p pts /\ snd (fst p) = minY b)
  /\ (exists p, In p pts /\ snd (fst p) = maxY b)
  /\ (exists p, In p pts /\ snd p = minZ b)
  /\ (exists p, In p pts /\ snd p = maxZ b).

Definition tightly_encloses (b : Bounds) (pts : list Point) : Prop :=
  encloses b pts /\ attained b pts.

(** [(a + b) / 2]. *)
Definition midpoint (a b : number) : number := (a + b) / 2.

(** The alpha byte the classification loop leaves at point [i]. *)
Definition class_alpha (vis : Z -> option bool) (cls : list Z) (i : nat) : Z :=
  if isVisible vis (read cls i) then 255 else 0.

(** [m] is a lower bound of the values seen, and one of them unless none
    was below the initial [infinity]. *)
Definition lower (m : number) (vs : list number) : Prop :=
  nn m /\ (forall v, In v vs -> (m <=? v) = true) /\ (m = infinity \/ In m vs).

(** [m] is an upper bound of the values seen, and one of them unless none
    was above the initial [-infinity]. *)
Definition upper (m : number) (vs : list number) : Prop :=
  nn m /\ (forall v, In v vs -> (v <=? m) = true) /\ (m = neg_infinity \/ In m vs).

(** The coordinates of a point. *)
Definition lng_of (p : Point) : number := fst (fst p).
Definition lat_of (p : Point) : number := snd (fst p).
Definition z_of (p : Point) : number := snd p.

(** The box accumulated over the points seen. *)
Definition boxed (b : Bounds) (seen : list Point) : Prop :=
  lower (minX b) (map lng_of seen) /\ upper (maxX b) (map lng_of seen)
  /\ lower (minY b) (map lat_of seen) /\ upper (maxY b) (map lat_of seen)
  /\ lower (minZ b) (map z_of seen) /\ upper (maxZ b) (map z_of seen).

(** Ascending distance. *)
Definition by_distance (a b : ProfilePoint) : Prop :=
  (distance a <=? distance b) = true.

(** The comparator of [getProfile]'s sort. *)
Definition compare_distance (a b : ProfilePoint) : number := distance a - distance b.

(** The points in the corridor, in buffer order. *)
Definition selected (c : Corridor) (width : number) (data : PointCloudData)
  : list ProfilePoint :=
  map (profile_point c data) (filter (in_corridor c width data) (seq 0 (pointCount data))).

End Notions.

Import Notions.

(** ** Example inputs *)

Module Examples.

Local Open Scope float_scope.

(** A projection that passes the coordinates through. *)
Definition forward_id (xy : option number * option number) : result (number * number) :=
  Ret (num (fst xy), num (snd xy)).

(** The header of a LAS 1.2 file of point format 1: 227 bytes, version at
    offsets 24 and 25, format at offset 104. *)
Definition las12_header : list Z :=
  store (store (store (alloc 0%Z 227) 24 1%Z) 25 2%Z) 104 1%Z.

(** A decoded mesh that declares no vertex. *)
Definition empty_mesh : LASMesh :=
  {| vertexCount := 0;
     POSITION := Some {| value := []; size := 3 |};
     COLOR_0 := None;
     intensity_attr := None;
     classification_attr := None |}.

(** A decoded mesh without its position attribute. *)
Definition headless_mesh : LASMesh :=
  {| vertexCount := 3;
     POSITION := None;
     COLOR_0 := None;
     intensity_attr := None;
     classification_attr := None |}.

(** Three vertices with 4-channel colors, intensities and classes. *)
Definition small_mesh : LASMesh :=
  {| vertexCount := 3;
     POSITION := Some {| value := [1; 2; 3; 4; 5; 6; 7; 8; 9]; size := 3 |};
     COLOR_0 := Some {| value := [1; 2; 3; 4; 5; 6; 7; 8; 9; 10; 11; 12]%Z; size := 4 |};
     intensity_attr := Some {| value := [65535; 1; 0]; size := 1 |};
     classification_attr := Some {| value := [1; 2; 3]%Z; size := 1 |} |}.

(** One vertex whose elevation is NaN. *)
Definition nan_mesh : LASMesh :=
  {| vertexCount := 1;
     POSITION := Some {| value := [1; 2; nan]; size := 3 |};
     COLOR_0 := None;
     intensity_attr := None;
     classification_attr := None |}.

(** What [build] returns on a mesh, or a cloud without points where it
    throws. *)
Definition built (mesh : LASMesh) : PointCloudData :=
  match build forward_id mesh with
  | Ret d => d
  | Throw _ =>
      {| positions := []; coordinateOrigin := (0, 0, 0); colors := None;
         intensities := None; classifications := None; pointCount := 0;
         bounds := initial_bounds |}
  end.

Definition small_cloud : PointCloudData := Eval vm_compute in built small_mesh.

(** [Math.cos] at the equator: the examples below have their origin at
    latitude 0, where the argument is 0 and the cosine is 1. *)
Definition cos_equator (x : number) : number := 1.

(** Three points around (7, 0) with positions only. *)
Definition bare_cloud : PointCloudData :=
  {| positions := [0; 0; 10; 0.001; 0.001; 20; 0.002; 0; 15];
     coordinateOrigin := (7, 0, 0);
     colors := None;
     intensities := None;
     classifications := None;
     pointCount := 3;
     bounds := {| minX := 7; maxX := 7.002; minY := 0; maxY := 0.001;
                  minZ := 10; maxZ := 20 |} |}.

Definition empty_cloud : PointCloudData := Eval vm_compute in built empty_mesh.

(** Three points of codes 2, 6 and 99, with code 6 hidden. *)
Definition three_classes : PointCloudData :=
  {| positions := [0; 0; 10; 0.001; 0.001; 20; 0.002; 0; 15]%float;
     coordinateOrigin := (7, 51, 0)%float;
     colors := None;
     intensities := None;
     classifications := Some [2; 6; 99]%Z;
     pointCount := 3;
     bounds := {| minX := 7; maxX := 7.002; minY := 51; maxY := 51.001;
                  minZ := 10; maxZ := 20 |} |}.

(** Settings that hide class 6 (buildings). *)
Definition hide_buildings : ViewSettings :=
  {| colorScheme := Classification;
     colormap := viridis;
     classificationVisibility := fun code => if (code =? 6)%Z then Some false else None |}.

End Examples.

Import Examples.

(** ** The corridor of a cross-section, as the specification states it

    These definitions follow the words of the specification of the
    profile extractor, not the code of [getProfile]: the local
    equirectangular meter frame at the origin of the dataset, the unit
    vector along the axis from start to end and its perpendicular, and the
    projections of a point onto them.  The properties of [getProfile] are
    stated with them. *)

Module CorridorSpec.

Local Open Scope float_scope.

(** A pair of coordinates: degrees, or meters in the local frame. *)
Definition Vec : Type := (number * number)%type.

Definition dot (a b : Vec) : number := fst a * fst b + snd a * snd b.

Definition minus (a b : Vec) : Vec := (fst a - fst b, snd a - snd b).

Section Frame.

Variable Math_cos : number -> number.
Variable data : PointCloudData.

(** Longitude and latitude of the origin of the dataset. *)
Definition origin : Vec :=
  (fst (fst (coordinateOrigin data)), snd (fst (coordinateOrigin data))).

Definition metersPerDegreeLat : number := 111320.

(** [111320 * cos(originLatitudeRadians)]. *)
Definition metersPerDegreeLng : number :=
  111320 * Math_cos (snd origin * Math_PI / 180).

(** Degree distances converted to meters. *)
Definition to_meters (degrees : Vec) : Vec :=
  (fst degrees * metersPerDegreeLng, snd degrees * metersPerDegreeLat).

(** A longitude/latitude pair in the local meter frame. *)
Definition local (lngLat : Vec) : Vec := to_meters (minus lngLat origin).

(** The local-meter position of point [i]: its stored degree offsets from
    the origin, in meters. *)
Definition point (i : nat) : Vec :=
  to_meters (num (read (positions data) (i * 3)), num (read (positions data) (i * 3 + 1))).

Section Corridor.

Variables start end_ : Vec.

(** The axis from start to end, and its length. *)
Definition axis : Vec := minus (local end_) (local start).

Definition axis_length : number := Math_sqrt (dot axis axis).

(** The unit vector [u] along the axis and its perpendicular [n]. *)
Definition u : Vec := (fst axis / axis_length, snd axis / axis_length).

Definition n : Vec := (- snd u, fst u).

(** The projections of point [i], taken from the start of the axis, onto
    [u] (signed distance along the corridor) and onto [n] (signed
    perpendicular offset). *)
Definition signed_distance (i : nat) : number := dot (minus (point i) (local start)) u.

Definition signed_offset (i : nat) : number := dot (minus (point i) (local start)) n.

(** [0 <= distance <= length] and [|offset| <= width / 2]. *)
Definition inside (width : number) (i : nat) : bool :=
  (0 <=? signed_distance i) && (signed_distance i <=? axis_length)
  && (Math_abs (signed_offset i) <=? width / 2).

(** The [ProfilePoint] of point [i]: its distance along the axis, its
    elevation and its attributes, with the defaults for the buffers the
    cloud lacks. *)
Definition entry (i : nat) : ProfilePoint :=
  {| distance := signed_distance i;
     elevation := read (positions data) (i * 3 + 2);
     color :=
       match colors data with
       | Some buf => (read buf (i * 4), read buf (i * 4 + 1), read buf (i * 4 + 2))
       | None => (Some 255, Some 255, Some 255)%Z
       end;
     intensity :=
       match intensities data with
       | Some buf => read buf i
       | None => Some 0
       end;
     classification :=
       match classifications data with
       | Some buf => read buf i
       | None => Some 0%Z
       end |}.

End Corridor.

End Frame.

End CorridorSpec.

(** ** Further notions *)

Module MoreNotions.

Local Open Scope float_scope.

(** [Math.max(0, Math.min(1, t))], the clamp of [sampleColormap]. *)
Definition clamp01 (t : number) : number := Math_max 0 (Math_min 1 t).


(** The bytes of point [i] in an RGBA buffer: [buf[4i .. 4i+3]]. *)
Definition pixel (buf : list Z) (i : nat) : list Z := firstn 4 (skipn (i * 4) buf).

(** The bytes stored for a sampled color, alpha 255. *)
Definition sampled_pixel (cmap : ColormapName) (t : number) : list Z :=
  let '(r, g, b) := sampleColormap cmap t in [ToUint8 r; ToUint8 g; ToUint8 b; 255%Z].

(** The normalised elevation of point [i]. *)
Definition elevation_t (data : PointCloudData) (i : nat) : number :=
  (num (read (positions data) (i * 3 + 2)) - minZ (bounds data))
  / or_else (maxZ (bounds data) - minZ (bounds data)) 1.

(** The color and alpha the classification loop leaves at point [i]. *)
Definition class_pixel (vis : Z -> option bool) (cls : list Z) (i : nat) : list Z :=
  if isVisible vis (read cls i) then
    let '(r, g, b) := class_color (read cls i) in [r; g; b; 255%Z]
  else [0; 0; 0; 0]%Z.

(** The intensity the colorizer reads for point [i]. *)
Definition intensity_at (ints : list number) (i : nat) : number := num (read ints i).

(** A zero or a finite non-zero number: neither NaN nor an infinity. *)
Definition finite (x : number) : Prop :=
  match Prim2SF x with
  | S754_zero _ | S754_finite _ _ _ => True
  | _ => False
  end.

(** [m] is a number and no number among the values seen is below it. *)
Definition floor_of (m : number) (vs : list number) : Prop :=
  nn m /\ forall v, In v vs -> isNaN v = false -> (m <=? v) = true.

(** [m] is a number and no number among the values seen is above it. *)
Definition ceiling_of (m : number) (vs : list number) : Prop :=
  nn m /\ forall v, In v vs -> isNaN v = false -> (v <=? m) = true.

(** No face of the box is NaN, and no coordinate that is a number lies
    outside it: a NaN coordinate is passed over, axis by axis. *)
Definition encloses_numbers (b : Bounds) (pts : list Point) : Prop :=
  floor_of (minX b) (map lng_of pts) /\ ceiling_of (maxX b) (map lng_of pts)
  /\ floor_of (minY b) (map lat_of pts) /\ ceiling_of (maxY b) (map lat_of pts)
  /\ floor_of (minZ b) (map z_of pts) /\ ceiling_of (maxZ b) (map z_of pts).

(** Channel [k] of the color the color loop reads for sampled point [i]:
    the source value when the attribute has at least three channels,
    the zero the buffer was allocated with otherwise. *)
Definition copied_channel (c : Attribute Z) (step : Z) (i k : nat) : Z :=
  if (3 <=? size c)%Z then
    byte (readZ (value c) (Z.of_nat i * step * size c + Z.of_nat k))
  else 0%Z.

End MoreNotions.

Import MoreNotions.

(** ** Further example inputs *)

Module MoreExamples.

Local Open Scope float_scope.

Definition elevation_viridis : ViewSettings :=
  {| colorScheme := Elevation; colormap := viridis;
     classificationVisibility := fun _ => None |}.

Definition intensity_gray : ViewSettings :=
  {| colorScheme := Intensity; colormap := gray;
     classificationVisibility := fun _ => None |}.

Definition rgb_viridis : ViewSettings :=
  {| colorScheme := Rgb; colormap := viridis;
     classificationVisibility := fun _ => None |}.

(** Three points with intensities and colors. *)
Definition shaded_cloud : PointCloudData :=
  {| positions := [0; 0; 10; 0.001; 0.001; 20; 0.002; 0; 15];
     coordinateOrigin := (7, 0, 0);
     colors := Some [10; 20; 30; 0; 40; 50; 60; 7; 70; 80; 90; 255]%Z;
     intensities := Some [0.5; 0.25; 0.75];
     classifications := None;
     pointCount := 3;
     bounds := {| minX := 7; maxX := 7.002; minY := 0; maxY := 0.001;
                  minZ := 10; maxZ := 20 |} |}.

(** The header of a LAS 1.4 file of point format 3 with the compression
    bit set in the format byte. *)
Definition las14_header : list Z :=
  store (store (store (alloc 0%Z 375) 24 1%Z) 25 4%Z) 104 131%Z.

(** A projection that rejects eastings of 5 and more. *)
Definition forward_west (xy : option number * option number) : result (number * number) :=
  if num (fst xy) <? 5 then Ret (num (fst xy), num (snd xy)) else Throw Error.

End MoreExamples.

Import MoreExamples.

(** ** loadPointCloud with its progress reports *)

Module Reporting.

Local Open Scope float_scope.

(** [i > 0 && i % CHUNK_SIZE === 0]. *)
Definition at_chunk (i : nat) : bool :=
  (0 <? Z.of_nat i)%Z && (Z.of_nat i mod CHUNK_SIZE =? 0)%Z.

(** [0.5 + 0.4 * (i / pointCount)]. *)
Definition chunk_progress (pointCount : Z) (i : nat) : number :=
  0.5 + 0.4 * (of_Z (Z.of_nat i) / of_Z pointCount).

(** A loop whose body may throw and which, when the body has returned at
    a chunk boundary, calls [onProgress]: the arguments of the calls made
    so far, and the state or the error. *)
Fixpoint loop_reporting {St} (n i : nat) (body : nat -> St -> result St) (pointCount : Z)
  (reports : list number) (s : St) : list number * result St :=
  match n with
  | O => (reports, Ret s)
  | S n' =>
      match body i s with
      | Throw e => (reports, Throw e)
      | Ret s' =>
          loop_reporting n' (S i) body pointCount
            (if at_chunk i then reports ++ [chunk_progress pointCount i] else reports) s'
      end
  end.

Section Reported.

Variable forward : option number * option number -> result (number * number).
Variable load : list Z -> result LASMesh.

(** [loadPointCloud] from the bytes fetched for the source, with the
    arguments of its calls of [onProgress], in order: 0.05 on entry, 0.4
    after the decoder, 0.5 before the reprojection loop, the chunk reports
    of the loop, 0.9 after it and 1.0 before returning. *)
Definition loadPointCloud_reporting (arrayBuffer : list Z)
  : list number * result PointCloudData :=
  match (patched <- check_header arrayBuffer ;; load patched) with
  | Throw e => ([0.05], Throw e)
  | Ret mesh =>
      let totalPoints := vertexCount mesh in
      match POSITION mesh with
      | None => ([0.05; 0.4], Throw TypeError)
      | Some position =>
          let rawPositions := value position in
          let step := sample_step totalPoints in
          let pointCount := sample_count totalPoints in
          let rawColors := COLOR_0 mesh in
          let rawIntensity := option_map value (intensity_attr mesh) in
          let rawClassification := option_map value (classification_attr mesh) in
          match new_array 0 (pointCount * 3) with
          | Throw e => ([0.05; 0.4; 0.5], Throw e)
          | Ret lngLat0 =>
              let n := Z.to_nat pointCount in
              let intensities0 := option_map (fun _ => alloc 0 n) rawIntensity in
              let classifications0 := option_map (fun _ => alloc 0%Z n) rawClassification in
              match loop_reporting n 0
                      (reproject_point forward step rawPositions rawIntensity
                         rawClassification)
                      pointCount [0.05; 0.4; 0.5]
                      {| lngLat := lngLat0;
                         out_intensities := intensities0;
                         out_classifications := classifications0;
                         box := initial_bounds |} with
              | (reports, Throw e) => (reports, Throw e)
              | (reports, Ret pass) =>
                  let b := box pass in
                  let originLng := (minX b + maxX b) / 2 in
                  let originLat := (minY b + maxY b) / 2 in
                  let positions :=
                    encode_offsets n (lngLat pass) originLng originLat (alloc 0 (n * 3)) in
                  let colors :=
                    match rawColors with
                    | Some c =>
                        Some (copy_colors n step (value c) (size c) (alloc 0%Z (n * 4)))
                    | None => None
                    end in
                  (reports ++ [0.9; 1],
                   Ret {| positions := positions;
                          coordinateOrigin := (originLng, originLat, 0);
                          colors := colors;
                          intensities := out_intensities pass;
                          classifications := out_classifications pass;
                          pointCount := n;
                          bounds := b |})
              end
          end
      end
  end.

End Reported.

(** *** A check of the chunk reports on machine integers *)

(** [0.5 + 0.4 * (i / n)]. *)
Definition report63 (n i : PrimInt63.int) : number :=
  0.5 + 0.4 * (of_uint63 i / of_uint63 n).

Definition chunk63 : PrimInt63.int := Eval vm_compute in Uint63.of_Z CHUNK_SIZE.

Definition one63 : PrimInt63.int := Eval vm_compute in Uint63.of_Z 1.

(** From [i] on, by steps of a chunk and below [n], each report is above
    the one before it and below 0.9. *)
Fixpoint rising (fuel : nat) (n i : PrimInt63.int) (prev : number) : bool :=
  match fuel with
  | O => true
  | S fuel' =>
      if PrimInt63.ltb i n then
        (prev <? report63 n i) && (report63 n i <? 0.9)
        && rising fuel' n (PrimInt63.add i chunk63) (report63 n i)
      else true
  end.

(** [rising] for the [fuel] point counts from [n] on. *)
Fixpoint all_rising (fuel : nat) (n : PrimInt63.int) : bool :=
  match fuel with
  | O => true
  | S fuel' => rising 10 n chunk63 0.5 && all_rising fuel' (PrimInt63.add n one63)
  end.

End Reporting.

(** ** App.tsx: the layers and the cross-section tool *)

From Stdlib Require String.

Module App.

Local Open Scope float_scope.

Definition string : Set := String.string.

(** [Layer.source]. *)
Inductive LayerSource := remote | local | url_source.

(** [Layer] (its optional [file] is never set by this program). *)
Record Layer := {
  id : string;
  name : string;
  source : LayerSource;
  url : option string;
  pointCloud : option PointCloudData;
  visible : bool;
  opacity : number;
  zOffset : number }.

(** [Partial<Layer>]: the keys an update carries. *)
Record LayerUpdates := {
  new_id : option string;
  new_name : option string;
  new_source : option LayerSource;
  new_url : option (option string);
  new_pointCloud : option (option PointCloudData);
  new_visible : option bool;
  new_opacity : option number;
  new_zOffset : option number }.

Definition no_updates : LayerUpdates :=
  {| new_id := None; new_name := None; new_source := None; new_url := None;
     new_pointCloud := None; new_visible := None; new_opacity := None;
     new_zOffset := None |}.

Definition carried {A} (update : option A) (old : A) : A :=
  match update with Some v => v | None => old end.

(** [{ ...layer, ...updates }]. *)
Definition spread (layer : Layer) (updates : LayerUpdates) : Layer :=
  {| id := carried (new_id updates) (id layer);
     name := carried (new_name updates) (name layer);
     source := carried (new_source updates) (source layer);
     url := carried (new_url updates) (url layer);
     pointCloud := carried (new_pointCloud updates) (pointCloud layer);
     visible := carried (new_visible updates) (visible layer);
     opacity := carried (new_opacity updates) (opacity layer);
     zOffset := carried (new_zOffset updates) (zOffset layer) |}.

(** [CrossSectionState], by its [mode]. *)
Inductive CrossSectionState :=
| idle
| check_start
| check_end (start : number * number)
| complete (start end_ : number * number) (width : number).

(** What loadLayer is given: a URL or a File (by its name). *)
Inductive Source := from_url (address : string) | from_file (file_name : string).

(** The state of the component that the handlers below read and write.
    The other state variables (the active dataset, the view settings, the
    basemap and the focused layer) are neither read nor written by them. *)
Record State := {
  layers : list Layer;
  crossSection : CrossSectionState;
  profileData : list ProfilePoint;
  loading : bool;
  progress : number }.

(** The state the component mounts with. *)
Definition initial : State :=
  {| layers := []; crossSection := idle; profileData := []; loading := false;
     progress := 0 |}.

Section Handlers.

Variable Math_cos : number -> number.
Variable forward : option number * option number -> result (number * number).
Variable load : list Z -> result LASMesh.

(** The bytes of a source: [fetch] and [arrayBuffer()], which throw on a
    failed request and on a response that is not [ok]. *)
Variable fetch_bytes : Source -> result (list Z).

(** [loadPointCloud(source, onProgress)] from the source on. *)
Definition load_source (source : Source) : result PointCloudData :=
  arrayBuffer <- fetch_bytes source ;;
  loadPointCloud forward load arrayBuffer.

(** The same with the arguments of its calls of [onProgress]: 0.05 is
    reported before the source is fetched. *)
Definition load_source_reporting (source : Source)
  : list number * result PointCloudData :=
  match fetch_bytes source with
  | Throw e => ([0.05], Throw e)
  | Ret arrayBuffer => Reporting.loadPointCloud_reporting forward load arrayBuffer
  end.

(** [loadLayer(source, name)], from the call to the end of its [finally];
    [uuid] is what [crypto.randomUUID()] returns.  [setProgress(0)] and
    then [setProgress] on every report leave the last report in
    [progress].  A failed load is reported by an alert and changes nothing
    else.  The call is taken as one step: what other handlers do while the
    load is awaited is not part of it. *)
Definition loadLayer (source : Source) (name : string) (uuid : string) (st : State)
  : State :=
  if loading st then st
  else
    let '(reports, outcome) := load_source_reporting source in
    match outcome with
    | Ret data =>
        let newLayer :=
          {| id := uuid;
             name := name;
             source := match source with from_url _ => remote | from_file _ => local end;
             url := match source with from_url u => Some u | from_file _ => None end;
             pointCloud := Some data;
             visible := true;
             opacity := 1;
             zOffset := 0 |} in
        {| layers := layers st ++ [newLayer];
           crossSection := crossSection st;
           profileData := profileData st;
           loading := false;
           progress := last reports 0 |}
    | Throw _ =>
        {| layers := layers st;
           crossSection := crossSection st;
           profileData := profileData st;
           loading := false;
           progress := last reports 0 |}
    end.

Definition handleLayerUpdate (layerId : string) (updates : LayerUpdates) (st : State)
  : State :=
  {| layers :=
       map (fun layer => if String.eqb (id layer) layerId then spread layer updates
                         else layer) (layers st);
     crossSection := crossSection st;
     profileData := profileData st;
     loading := loading st;
     progress := progress st |}.

Definition handleLayerRemove (layerId : string) (st : State) : State :=
  {| layers := filter (fun layer => negb (String.eqb (id layer) layerId)) (layers st);
     crossSection := crossSection st;
     profileData := profileData st;
     loading := loading st;
     progress := progress st |}.

Definition handleStartProfile (st : State) : State :=
  {| layers := layers st; crossSection := check_start; profileData := [];
     loading := loading st; progress := progress st |}.

Definition handleStopProfile (st : State) : State :=
  {| layers := layers st; crossSection := idle; profileData := [];
     loading := loading st; progress := progress st |}.

(** [layers.find(l => l.visible && l.pointCloud)]. *)
Definition contentLayer (ls : list Layer) : option Layer :=
  find (fun l => visible l && match pointCloud l with Some _ => true | None => false end) ls.

Definition handleMapClick (lngLat : number * number) (st : State) : State :=
  match crossSection st with
  | check_start =>
      {| layers := layers st; crossSection := check_end lngLat;
         profileData := profileData st; loading := loading st;
         progress := progress st |}
  | check_end start =>
      let end_ := lngLat in
      {| layers := layers st;
         crossSection := complete start end_ 5;
         profileData :=
           match contentLayer (layers st) with
           | Some layer =>
               match pointCloud layer with
               | Some cloud => getProfile Math_cos cloud start end_ 5
               | None => profileData st
               end
           | None => profileData st
           end;
         loading := loading st;
         progress := progress st |}
  | _ => st
  end.

(** [layers.reduce((sum, layer) => sum + (layer.pointCloud?.pointCount ?? 0), 0)];
    the counts are integers and the sum is exact below 2^53. *)
Definition totalPoints (ls : list Layer) : nat :=
  fold_left (fun sum layer =>
    (sum + match pointCloud layer with Some cloud => pointCount cloud | None => 0 end)%nat)
    ls 0%nat.

(** [layers.length > 0 ? layers[0].pointCloud : null]. *)
Definition firstCloud (ls : list Layer) : option PointCloudData :=
  match ls with
  | layer :: _ => pointCloud layer
  | [] => None
  end.

(** What the user can do: the controls of the sidebar and of the layer
    list, and a click on the map. *)
Inductive Event :=
| Load (source : Source) (name : string) (uuid : string)
| SetVisible (layerId : string) (checked : bool)
| SetOpacity (layerId : string) (value : number)
| SetZOffset (layerId : string) (value : number)
| Remove (layerId : string)
| StartProfile
| StopProfile
| MapClick (lngLat : number * number).

Definition handle (st : State) (e : Event) : State :=
  match e with
  | Load source name uuid => loadLayer source name uuid st
  | SetVisible layerId checked =>
      handleLayerUpdate layerId
        {| new_id := None; new_name := None; new_source := None; new_url := None;
           new_pointCloud := None; new_visible := Some checked; new_opacity := None;
           new_zOffset := None |} st
  | SetOpacity layerId value =>
      handleLayerUpdate layerId
        {| new_id := None; new_name := None; new_source := None; new_url := None;
           new_pointCloud := None; new_visible := None; new_opacity := Some value;
           new_zOffset := None |} st
  | SetZOffset layerId value =>
      handleLayerUpdate layerId
        {| new_id := None; new_name := None; new_source := None; new_url := None;
           new_pointCloud := None; new_visible := None; new_opacity := None;
           new_zOffset := Some value |} st
  | Remove layerId => handleLayerRemove layerId st
  | StartProfile => handleStartProfile st
  | StopProfile => handleStopProfile st
  | MapClick lngLat => handleMapClick lngLat st
  end.

(** The state after a sequence of events, from the initial one. *)
Definition run (events : list Event) : State := fold_left handle events initial.

End Handlers.

End App.

(** ** MapView.tsx: the layers handed to deck.gl *)

Module MapView.

Local Open Scope float_scope.

(** The settings the layer builder reads: those of [colorizePoints], kept
    as [view], and the point size, the vertical offset and the point
    budget. *)
Record Settings := {
  view : ViewSettings;
  pointSize : number;
  zOffset : number;
  pointBudget : number }.

(** The properties a [PointCloudLayer] is constructed with, those that
    vary: its [id] (the layer's identifier, the color scheme and the
    colormap, joined by dashes), [data.length], the two attribute buffers,
    the coordinate origin, the point size, the opacity and the vertical
    translation of its model matrix. *)
Record PointCloudProps := {
  deck_id : App.string * ColorScheme * ColormapName;
  data_length : number;
  getPosition : list number;
  getColor : list Z;
  origin : number * number * number;
  size_pixels : number;
  layer_opacity : number;
  z_translation : number }.

(** The identifiers of the two markers. *)
Inductive Marker := cross_section_start | cross_section_end.

Inductive DeckLayer :=
| PointCloudLayer (props : PointCloudProps)
| ScatterplotLayer (id : Marker) (position : number * number) (getFillColor : Z * Z * Z)
| LineLayer (source target : number * number) (getLineColor : Z * Z * Z).

(** [array.map(f)] for an [f] that may throw or yield nothing: the
    elements are visited in order and the first that fails ends the call.
    [None] is a call of [colorizePoints] that no depth of recursion lets
    return; an engine ends it with an error of its own when its stack is
    exhausted, so what is stated of [deckLayers] is stated of the layers it
    yields. *)
Fixpoint map_layers {A B} (f : A -> option (result B)) (l : list A)
  : option (result (list B)) :=
  match l with
  | [] => Some (Ret [])
  | a :: t =>
      match f a with
      | None => None
      | Some (Throw e) => Some (Throw e)
      | Some (Ret b) =>
          match map_layers f t with
          | None => None
          | Some (Throw e) => Some (Throw e)
          | Some (Ret bs) => Some (Ret (b :: bs))
          end
      end
  end.

(** [layer.visible && layer.pointCloud]. *)
Definition shown (layer : App.Layer) : bool :=
  App.visible layer && match App.pointCloud layer with Some _ => true | None => false end.

(** The callback of the [map]: the [PointCloudLayer] of a layer.  Reading
    a property of an absent point cloud is a [TypeError].  colorizePoints
    is given the settings with the layer's opacity in place of theirs, a
    field it does not read. *)
Definition pointCloudLayer (fuel : nat) (settings : Settings) (layer : App.Layer)
  : option (result DeckLayer) :=
  match App.pointCloud layer with
  | None => Some (Throw TypeError)
  | Some pointCloud =>
      match colorizePoints fuel pointCloud (view settings) with
      | None => None
      | Some (Throw e) => Some (Throw e)
      | Some (Ret colors) =>
          Some (Ret (PointCloudLayer
            {| deck_id := (App.id layer, colorScheme (view settings), colormap (view settings));
               data_length :=
                 Math_min (of_Z (Z.of_nat (pointCount pointCloud))) (pointBudget settings);
               getPosition := positions pointCloud;
               getColor := colors;
               origin := coordinateOrigin pointCloud;
               size_pixels := pointSize settings;
               layer_opacity := App.opacity layer;
               z_translation := App.zOffset layer + zOffset settings |}))
      end
  end.

(** The markers and the line of the cross-section. *)
Definition overlays (crossSection : App.CrossSectionState) : list DeckLayer :=
  match crossSection with
  | App.check_end start => [ScatterplotLayer cross_section_start start (0, 255, 0)%Z]
  | App.complete start _ _ => [ScatterplotLayer cross_section_start start (0, 255, 0)%Z]
  | _ => []
  end
  ++ match crossSection with
     | App.complete start end_ _ =>
         [ScatterplotLayer cross_section_end end_ (255, 0, 0)%Z;
          LineLayer start end_ (255, 255, 0)%Z]
     | _ => []
     end.

(** The value of [deckLayers]: the point cloud layers, then the overlays;
    [fuel] bounds the recursion of [colorizePoints]. *)
Definition deckLayers (fuel : nat) (settings : Settings) (layers : list App.Layer)
  (crossSection : App.CrossSectionState) : option (result (list DeckLayer)) :=
  match map_layers (pointCloudLayer fuel settings) (filter shown layers) with
  | Some (Ret pointCloudLayers) => Some (Ret (pointCloudLayers ++ overlays crossSection))
  | other => other
  end.

(** The layer deck.gl is given for a layer of the application. *)
Definition renders (settings : Settings) (layer : App.Layer) (d : DeckLayer) : Prop :=
  exists cloud colors,
    App.pointCloud layer = Some cloud
    /\ colorizePoints 1 cloud (view settings) = Some (Ret colors)
    /\ length colors = (4 * pointCount cloud)%nat
    /\ d = PointCloudLayer
             {| deck_id := (App.id layer, colorScheme (view settings),
                            colormap (view settings));
                data_length :=
                  Math_min (of_Z (Z.of_nat (pointCount cloud))) (pointBudget settings);
                getPosition := positions cloud;
                getColor := colors;
                origin := coordinateOrigin cloud;
                size_pixels := pointSize settings;
                layer_opacity := App.opacity layer;
                z_translation := App.zOffset layer + zOffset settings |}.

(** A cloud whose colors, when present, are four bytes per point. *)
Definition four_bytes_per_point (cloud : PointCloudData) : Prop :=
  match colors cloud with
  | Some buf => length buf = (4 * pointCount cloud)%nat
  | None => True
  end.

End MapView.

(** ** Example inputs of the application *)

Module AppExamples.

Import String.

Local Open Scope string_scope.

Definition tile_url : App.string := "/data/tile.laz".

Definition tile_name : App.string := "tile.laz".

Definition first_uuid : App.string := "3b241101-e2bb-4255-8caf-4136c566a962".

(** A source whose bytes are a LAS 1.2 header. *)
Definition fetch_tile (source : App.Source) : result (list Z) := Ret las12_header.

(** A decoder that finds [small_mesh] in every file. *)
Definition load_small (arrayBuffer : list Z) : result LASMesh := Ret small_mesh.

(** The state after the tile was loaded. *)
Definition one_layer : App.State :=
  App.run cos_equator forward_id load_small fetch_tile
    [App.Load (App.from_url tile_url) tile_name first_uuid].

(** An update that hides a layer. *)
Definition hide : App.LayerUpdates :=
  {| App.new_id := None; App.new_name := None; App.new_source := None;
     App.new_url := None; App.new_pointCloud := None; App.new_visible := Some false;
     App.new_opacity := None; App.new_zOffset := None |}.

(** The settings the application starts with: elevation, viridis, points
    of 2 pixels, no offset and a budget of a million points. *)
Definition default_settings : MapView.Settings :=
  {| MapView.view := elevation_viridis; MapView.pointSize := 2%float;
     MapView.zOffset := 0%float; MapView.pointBudget := 1000000%float |}.

(** The layer of [one_layer]. *)
Definition tile_layer : App.Layer :=
  {| App.id := first_uuid; App.name := tile_name; App.source := App.remote;
     App.url := Some tile_url; App.pointCloud := Some small_cloud;
     App.visible := true; App.opacity := 1%float; App.zOffset := 0%float |}.

(** The colors of [small_cloud] by elevation. *)
Definition tile_colors : list Z :=
  Eval vm_compute in
    colorize_elevation small_cloud viridis (alloc 0%Z (pointCount small_cloud * 4)).

(** The properties of the point cloud layer built for [tile_layer]. *)
Definition tile_props : MapView.PointCloudProps :=
  {| MapView.deck_id := (first_uuid, Elevation, viridis);
     MapView.data_length := 3%float;
     MapView.getPosition := positions small_cloud;
     MapView.getColor := tile_colors;
     MapView.origin := coordinateOrigin small_cloud;
     MapView.size_pixels := 2%float;
     MapView.layer_opacity := 1%float;
     MapView.z_translation := 0%float |}.

End AppExamples.

(** * Properties *)

(** ** Typed arrays and loops *)

Module RuntimeFacts.

Lemma length_store {A} (buf : list A) i v : length (store buf i v) = length buf.
Proof.
  revert i; induction buf as [|x t IH]; intros [|j]; simpl; auto.
Qed.

Lemma nth_error_store_same {A} (buf : list A) i v :
  (i < length buf)%nat -> nth_error (store buf i v) i = Some v.
Proof.
  revert i; induction buf as [|x t IH]; intros [|j] H; simpl in *; try lia; auto.
  apply IH; lia.
Qed.

Lemma nth_error_store_other {A} (buf : list A) i j v :
  i <> j -> nth_error (store buf i v) j = nth_error buf j.
Proof.
  revert i j; induction buf as [|x t IH]; intros [|i] [|j] H; simpl;
    auto; try congruence.
Qed.

Lemma length_alloc {A} (z : A) n : length (alloc z n) = n.
Proof. apply repeat_length. Qed.

Lemma nth_error_alloc {A} (z : A) n i : (i < n)%nat -> nth_error (alloc z n) i = Some z.
Proof. intros H. unfold alloc. now apply nth_error_repeat. Qed.

Lemma for_loop_S {St} n (body : nat -> St -> St) s :
  for_loop (S n) body s = body n (for_loop n body s).
Proof.
  unfold for_loop. rewrite seq_S, fold_left_app. reflexivity.
Qed.

(** The loop rule: an invariant [P i s] ("before iteration [i]") that the
    body carries from [i] to [S i] holds after the loop at [n]. *)
Lemma for_loop_inv {St} (P : nat -> St -> Prop) n (body : nat -> St -> St) s :
  P O s ->
  (forall i s, (i < n)%nat -> P i s -> P (S i) (body i s)) ->
  P n (for_loop n body s).
Proof.
  intros H0 Hstep.
  assert (forall k, (k <= n)%nat -> P k (for_loop k body s)) as H.
  { induction k as [|k IH]; intros Hk.
    - exact H0.
    - rewrite for_loop_S. apply Hstep; [lia|]. apply IH; lia. }
  apply H; lia.
Qed.

(** The same rule for a loop whose body may throw, when it returned. *)
Lemma for_loop_from_inv {St} (P : nat -> St -> Prop) n i
  (body : nat -> St -> result St) s s' :
  for_loop_from n i body s = Ret s' ->
  P i s ->
  (forall k a b, (i <= k < i + n)%nat -> P k a -> body k a = Ret b -> P (S k) b) ->
  P (i + n)%nat s'.
Proof.
  revert i s; induction n as [|n IH]; intros i s Hrun H0 Hstep; simpl in Hrun.
  - inversion Hrun; subst. now rewrite Nat.add_0_r.
  - destruct (body i s) as [a|e] eqn:Hb; simpl in Hrun; [|discriminate].
    replace (i + S n)%nat with (S i + n)%nat by lia.
    apply (IH (S i) a Hrun).
    + apply (Hstep i s a); [lia|assumption|assumption].
    + intros k x y Hk. apply Hstep. lia.
Qed.

(** A loop whose body never throws returns. *)
Lemma for_loop_from_total {St} n i (body : nat -> St -> result St) s :
  (forall k a, exists b, body k a = Ret b) ->
  exists s', for_loop_from n i body s = Ret s'.
Proof.
  intros Hb. revert i s; induction n as [|n IH]; intros i s; simpl.
  - now exists s.
  - destruct (Hb i s) as [b ->]. simpl. apply IH.
Qed.

End RuntimeFacts.

Import RuntimeFacts.

(** ** Binary64 facts, from the specification of the primitive operations *)

Module FloatFacts.

Lemma SFcompare_lex a b :
  a <> S754_nan -> b <> S754_nan -> SFcompare a b = Some (lex (ord a) (ord b)).
Proof.
  intros Ha Hb.
  destruct a as [sa|sa| |sa ma ea], b as [sb|sb| |sb mb eb]; try congruence;
    try destruct sa; try destruct sb; try reflexivity.
  all: simpl; try rewrite Z.compare_opp, (Z.compare_antisym ea eb);
    destruct (ea ?= eb); reflexivity.
Qed.

(** [lex] as arithmetic. *)
Lemma lex_Lt a b :
  lex a b = Lt <->
  (fst (fst a) < fst (fst b)
   \/ fst (fst a) = fst (fst b)
      /\ (snd (fst a) < snd (fst b)
          \/ snd (fst a) = snd (fst b) /\ snd a < snd b)).
Proof.
  destruct a as [[a1 a2] a3], b as [[b1 b2] b3]; simpl.
  destruct (Z.compare_spec a1 b1), (Z.compare_spec a2 b2), (Z.compare_spec a3 b3);
    split; intros Hx; try discriminate; try reflexivity; try lia.
Qed.

Lemma lex_Gt a b :
  lex a b = Gt <->
  (fst (fst b) < fst (fst a)
   \/ fst (fst a) = fst (fst b)
      /\ (snd (fst b) < snd (fst a)
          \/ snd (fst a) = snd (fst b) /\ snd b < snd a)).
Proof.
  destruct a as [[a1 a2] a3], b as [[b1 b2] b3]; simpl.
  destruct (Z.compare_spec a1 b1), (Z.compare_spec a2 b2), (Z.compare_spec a3 b3);
    split; intros Hx; try discriminate; try reflexivity; try lia.
Qed.

Lemma SFcompare_refl a : a <> S754_nan -> SFcompare a a = Some Eq.
Proof.
  intros H. rewrite SFcompare_lex by assumption.
  destruct (ord a) as [[a1 a2] a3]. simpl. now rewrite !Z.compare_refl.
Qed.

Lemma isNaN_false x : (x =? x)%float = true <-> nn x.
Proof.
  unfold nn. rewrite eqb_spec. unfold SFeqb. split.
  - intros H E. rewrite E in H. discriminate.
  - intros H. now rewrite SFcompare_refl.
Qed.

Lemma ltb_lex x y :
  (x <? y)%float = true <-> nn x /\ nn y /\ lex (ord (Prim2SF x)) (ord (Prim2SF y)) = Lt.
Proof.
  unfold nn. rewrite ltb_spec. unfold SFltb.
  destruct (Prim2SF x) as [sa|sa| |sa ma ea] eqn:Ex;
  destruct (Prim2SF y) as [sb|sb| |sb mb eb] eqn:Ey;
  try (simpl; split; [discriminate | intros (? & ? & ?); congruence]);
  rewrite SFcompare_lex by discriminate;
  (split; [intros H; repeat split; try discriminate;
           destruct (lex _ _); congruence
          | intros (_ & _ & ->); reflexivity]).
Qed.

Lemma leb_lex x y :
  (x <=? y)%float = true <-> nn x /\ nn y /\ lex (ord (Prim2SF x)) (ord (Prim2SF y)) <> Gt.
Proof.
  unfold nn. rewrite leb_spec. unfold SFleb.
  destruct (Prim2SF x) as [sa|sa| |sa ma ea] eqn:Ex;
  destruct (Prim2SF y) as [sb|sb| |sb mb eb] eqn:Ey;
  try (simpl; split; [discriminate | intros (? & ? & ?); congruence]);
  rewrite SFcompare_lex by discriminate;
  (split; [intros H; repeat split; try discriminate;
           destruct (lex _ _); congruence
          | intros (_ & _ & H); destruct (lex _ _); congruence]).
Qed.


Local Open Scope float_scope.

Ltac lexify :=
  repeat match goal with
  | H : (_ <=? _)%float = true |- _ => apply leb_lex in H; destruct H as (? & ? & H)
  | H : (_ <? _)%float = true |- _ => apply ltb_lex in H; destruct H as (? & ? & H)
  | H : (_ <? _)%float = false |- _ =>
      apply Bool.not_true_iff_false in H; rewrite ltb_lex in H
  | H : lex _ _ = Lt |- _ => rewrite lex_Lt in H
  | H : lex _ _ <> Gt |- _ => rewrite lex_Gt in H
  | |- (_ <=? _)%float = true => apply leb_lex; repeat split; try assumption
  | |- (_ <? _)%float = true => apply ltb_lex; repeat split; try assumption
  | |- lex _ _ = Lt => rewrite lex_Lt
  | |- lex _ _ <> Gt => rewrite lex_Gt
  end.

Lemma leb_refl x : nn x -> (x <=? x) = true.
Proof. intros H. lexify. lia. Qed.

Lemma leb_nn x y : (x <=? y) = true -> nn x /\ nn y.
Proof. intros H. lexify. auto. Qed.

Lemma leb_trans x y z : (x <=? y) = true -> (y <=? z) = true -> (x <=? z) = true.
Proof. intros H1 H2. lexify. lia. Qed.

Lemma ltb_leb x y : (x <? y) = true -> (x <=? y) = true.
Proof. intros H. lexify. lia. Qed.

Lemma ltb_false_leb x y : nn x -> nn y -> (x <? y) = false -> (y <=? x) = true.
Proof.
  intros Hx Hy H. lexify.
  intros Hgt. apply H. repeat split; try assumption. rewrite lex_Lt. lia.
Qed.

Lemma nn_infinity : nn infinity.
Proof. unfold nn. vm_compute. discriminate. Qed.

Lemma nn_neg_infinity : nn neg_infinity.
Proof. unfold nn. vm_compute. discriminate. Qed.

Lemma leb_infinity x : nn x -> (x <=? infinity) = true.
Proof.
  intros H. lexify; [apply nn_infinity|].
  change (Prim2SF infinity) with (S754_infinity false).
  unfold nn in H. destruct (Prim2SF x) as [s|s| |s m e]; try congruence;
    try destruct s; simpl; lia.
Qed.

Lemma neg_infinity_leb x : nn x -> (neg_infinity <=? x) = true.
Proof.
  intros H. lexify; [apply nn_neg_infinity|].
  change (Prim2SF neg_infinity) with (S754_infinity true).
  unfold nn in H. destruct (Prim2SF x) as [s|s| |s m e]; try congruence;
    try destruct s; simpl; lia.
Qed.

Lemma infinity_leb_eq x : (infinity <=? x) = true -> x = infinity.
Proof.
  intros H. lexify. apply Prim2SF_inj.
  change (Prim2SF infinity) with (S754_infinity false) in *.
  unfold nn in *. destruct (Prim2SF x) as [s|s| |s m e]; try congruence;
    try destruct s; simpl in *; try reflexivity; exfalso; lia.
Qed.

Lemma leb_neg_infinity_eq x : (x <=? neg_infinity) = true -> x = neg_infinity.
Proof.
  intros H. lexify. apply Prim2SF_inj.
  change (Prim2SF neg_infinity) with (S754_infinity true) in *.
  unfold nn in *. destruct (Prim2SF x) as [s|s| |s m e]; try congruence;
    try destruct s; simpl in *; try reflexivity; exfalso; lia.
Qed.


Local Open Scope Z_scope.

(** *** The sign of a difference *)

Lemma digits2_pos_bounds m :
  2 ^ (Z.pos (digits2_pos m) - 1) <= Z.pos m < 2 ^ Z.pos (digits2_pos m).
Proof.
  induction m as [m IH|m IH|]; simpl digits2_pos.
  - rewrite Pos2Z.inj_succ.
    replace (Z.succ (Z.pos (digits2_pos m)) - 1) with (Z.succ (Z.pos (digits2_pos m) - 1)) by lia.
    rewrite !Z.pow_succ_r by lia. lia.
  - rewrite Pos2Z.inj_succ.
    replace (Z.succ (Z.pos (digits2_pos m)) - 1) with (Z.succ (Z.pos (digits2_pos m) - 1)) by lia.
    rewrite !Z.pow_succ_r by lia. lia.
  - simpl. lia.
Qed.

Lemma shr_1_m mrs : 0 <= shr_m mrs -> shr_m (shr_1 mrs) = shr_m mrs / 2.
Proof.
  destruct mrs as [m r s]; simpl. intros H.
  rewrite <- Z.div2_div.
  destruct m as [|[p|p|]|p]; try reflexivity. lia.
Qed.

Lemma iter_shr_1_m p : forall mrs,
  0 <= shr_m mrs -> shr_m (iter_pos shr_1 p mrs) = shr_m mrs / 2 ^ Z.pos p.
Proof.
  induction p as [p IH|p IH|]; intros mrs H; simpl iter_pos.
  - assert (0 <= shr_m (shr_1 mrs)) as H1
      by (rewrite shr_1_m by assumption; apply Z.div_pos; lia).
    assert (0 <= shr_m (iter_pos shr_1 p (shr_1 mrs))) as H2
      by (rewrite IH by assumption; apply Z.div_pos; [assumption|apply Z.pow_pos_nonneg; lia]).
    rewrite IH, IH, shr_1_m by assumption.
    rewrite !Z.div_div by (try apply Z.pow_pos_nonneg; lia).
    f_equal.
    replace (Z.pos p~1) with (1 + Z.pos p + Z.pos p) by lia.
    rewrite (Z.pow_add_r 2 (1 + Z.pos p) (Z.pos p)), (Z.pow_add_r 2 1 (Z.pos p)) by lia.
    change (2 ^ 1) with 2. lia.
  - assert (0 <= shr_m (iter_pos shr_1 p mrs)) as H2
      by (rewrite IH by assumption; apply Z.div_pos; [assumption|apply Z.pow_pos_nonneg; lia]).
    rewrite IH, IH by assumption.
    rewrite !Z.div_div by (try apply Z.pow_pos_nonneg; lia).
    f_equal.
    replace (Z.pos p~0) with (Z.pos p + Z.pos p) by lia.
    rewrite (Z.pow_add_r 2 (Z.pos p) (Z.pos p)) by lia. lia.
  - now rewrite shr_1_m.
Qed.

Lemma shr_record_of_loc_m m l : shr_m (shr_record_of_loc m l) = m.
Proof. destruct l as [|[| |]]; reflexivity. Qed.

(** Shifting a positive mantissa to its canonical exponent leaves it
    positive, when the exponent is not below [emin]. *)
Lemma shr_fexp_pos m e l :
  0 < m -> emin <= e ->
  0 < shr_m (fst (shr_fexp prec emax m e l)) /\ emin <= snd (shr_fexp prec emax m e l).
Proof.
  intros Hm He. unfold shr_fexp, shr.
  destruct m as [|p|p]; try lia. simpl Zdigits2.
  pose proof (digits2_pos_bounds p) as [Hlo Hhi].
  set (d := Z.pos (digits2_pos p)) in *.
  assert (0 < d) as Hd by (unfold d; lia).
  unfold fexp. fold emin.
  destruct (Z.max (d + e - prec) emin - e) as [|q|q] eqn:En; simpl fst; simpl snd;
    rewrite ?shr_record_of_loc_m; try (split; lia).
  rewrite iter_shr_1_m by (rewrite shr_record_of_loc_m; lia).
  rewrite shr_record_of_loc_m.
  assert (Z.pos q = d - prec) as Hq by (unfold prec in *; lia).
  split; [|lia].
  apply Z.lt_le_trans with 1; [lia|].
  apply Z.div_le_lower_bound; [apply Z.pow_pos_nonneg; lia|].
  rewrite Z.mul_1_r. eapply Z.le_trans; [|exact Hlo].
  apply Z.pow_le_mono_r; unfold prec in *; lia.
Qed.

Lemma round_nearest_even_ge m l : m <= round_nearest_even m l.
Proof. destruct l as [|[| |]]; simpl; try destruct (Z.even m); lia. Qed.

Lemma binary_round_aux_signed s m e l :
  0 < m -> emin <= e -> signed s (binary_round_aux prec emax s m e l).
Proof.
  intros Hm He. unfold binary_round_aux.
  pose proof (shr_fexp_pos m e l Hm He) as [H1 H1'].
  destruct (shr_fexp prec emax m e l) as [mrs' e']. simpl in H1, H1'.
  pose proof (round_nearest_even_ge (shr_m mrs') (loc_of_shr_record mrs')) as Hr.
  pose proof (shr_fexp_pos (round_nearest_even (shr_m mrs') (loc_of_shr_record mrs')) e'
                loc_Exact ltac:(lia) H1') as [H2 _].
  destruct (shr_fexp prec emax _ e' loc_Exact) as [mrs'' e'']. simpl in H2.
  destruct (shr_m mrs'') as [|q|q]; try lia.
  destruct (e'' <=? emax - prec); reflexivity.
Qed.

Lemma binary_round_signed s m e :
  emin <= e -> signed s (binary_round prec emax s m e).
Proof.
  intros He. unfold binary_round.
  destruct (shl_align m e (fexp prec emax (Z.pos (digits2_pos m) + e))) as [mz ez] eqn:Ea.
  apply binary_round_aux_signed; [lia|].
  unfold shl_align in Ea.
  destruct (fexp prec emax (Z.pos (digits2_pos m) + e) - e) eqn:En;
    inversion Ea; subst; try lia.
  unfold fexp. fold emin. lia.
Qed.

(** A negative input never rounds to a positive number. *)
Lemma binary_round_neg m e :
  SFltb (S754_zero false) (binary_round prec emax true m e) = false.
Proof.
  unfold binary_round.
  destruct (shl_align m e _) as [mz ez].
  unfold binary_round_aux.
  destruct (shr_fexp prec emax (Z.pos mz) ez loc_Exact) as [mrs' e'].
  destruct (shr_fexp prec emax _ e' loc_Exact) as [mrs'' e''].
  destruct (shr_m mrs''); try reflexivity.
  destruct (e'' <=? emax - prec); reflexivity.
Qed.

Lemma binary_normalize_sign D e :
  emin <= e ->
  SFltb (S754_zero false) (binary_normalize prec emax D e false) = (0 <? D).
Proof.
  intros He. destruct D as [|p|p]; simpl binary_normalize.
  - reflexivity.
  - pose proof (binary_round_signed false p e He) as H.
    destruct (binary_round prec emax false p e); simpl in H; try contradiction;
      subst; reflexivity.
  - apply binary_round_neg.
Qed.


Lemma bounded_facts m e :
  bounded prec emax m e = true ->
  emin <= e /\ Z.pos m < 2 ^ prec /\ (emin < e -> 2 ^ (prec - 1) <= Z.pos m).
Proof.
  unfold bounded, canonical_mantissa, fexp. fold emin.
  intros H. apply andb_prop in H as [H _]. apply Z.eqb_eq in H.
  pose proof (digits2_pos_bounds m) as [Hlo Hhi].
  set (d := Z.pos (digits2_pos m)) in *.
  assert (0 < d) as Hd by (unfold d; lia).
  split; [lia|]. split.
  - eapply Z.lt_le_trans; [exact Hhi|]. apply Z.pow_le_mono_r; lia.
  - intros He. assert (d = prec) as -> by lia. exact Hlo.
Qed.

Lemma shl_align_value m e e' :
  e' <= e -> Z.pos (fst (shl_align m e e')) = Z.pos m * 2 ^ (e - e').
Proof.
  intros H. unfold shl_align.
  destruct (e' - e) as [|p|p] eqn:E; try lia; simpl fst.
  - replace (e - e') with 0 by lia. simpl. lia.
  - replace (e - e') with (Z.pos p) by lia.
    rewrite Pos.iter_swap_gen with (f := Z.pos) (h := Z.mul 2)
      by (intros; reflexivity).
    rewrite <- Z.pow_pos_fold. unfold Z.pow_pos.
    clear. revert m. 
    induction p using Pos.peano_ind; intros m.
    + simpl. lia.
    + rewrite !Pos.iter_succ. rewrite IHp. lia.
Qed.

(** On valid finite numbers the sign of the exact difference is the
    comparison. *)
Lemma finite_diff_sign sx mx ex sy my ey :
  bounded prec emax mx ex = true ->
  bounded prec emax my ey = true ->
  let ez := Z.min ex ey in
  (0 <? cond_Zopp sx (Z.pos (fst (shl_align mx ex ez)))
        - cond_Zopp sy (Z.pos (fst (shl_align my ey ez))))
  = SFltb (S754_finite sy my ey) (S754_finite sx mx ex).
Proof.
  intros Hx Hy ez.
  apply bounded_facts in Hx as (Hex & Hmx & Hnx).
  apply bounded_facts in Hy as (Hey & Hmy & Hny).
  rewrite !shl_align_value by (unfold ez; lia).
  unfold SFltb. rewrite SFcompare_lex by discriminate.
  apply Bool.eq_iff_eq_true. rewrite Z.ltb_lt.
  assert (forall c, match c with Lt => true | _ => false end = true <-> c = Lt) as Hc
    by (intros [| |]; split; congruence).
  rewrite Hc, lex_Lt. clear Hc.
  assert (0 < Z.pos mx) as Hpx by lia. assert (0 < Z.pos my) as Hpy by lia.
  change (2 ^ prec) with (2 * 2 ^ (prec - 1)) in *.
  set (h := 2 ^ (prec - 1)) in *.
  assert (0 < h) as Hh by reflexivity.
  destruct (Z.lt_trichotomy ex ey) as [Hlt|[Heq|Hgt]].
  - replace ez with ex by (unfold ez; lia). rewrite Z.sub_diag, Z.mul_1_r.
    assert (2 <= 2 ^ (ey - ex)) as Hk
      by (change 2 with (2 ^ 1) at 1; apply Z.pow_le_mono_r; lia).
    specialize (Hny ltac:(lia)).
    set (k := 2 ^ (ey - ex)) in *.
    assert (2 * h <= Z.pos my * k) as HP by nia.
    set (P := Z.pos my * k) in *. clearbody P k h.
    destruct sx, sy; unfold cond_Zopp; cbn [ord fst snd]; lia.
  - subst ey. replace ez with ex by (unfold ez; lia). rewrite Z.sub_diag, !Z.mul_1_r.
    destruct sx, sy; unfold cond_Zopp; cbn [ord fst snd]; lia.
  - replace ez with ey by (unfold ez; lia). rewrite Z.sub_diag, Z.mul_1_r.
    assert (2 <= 2 ^ (ex - ey)) as Hk
      by (change 2 with (2 ^ 1) at 1; apply Z.pow_le_mono_r; lia).
    specialize (Hnx ltac:(lia)).
    set (k := 2 ^ (ex - ey)) in *.
    assert (2 * h <= Z.pos mx * k) as HP by nia.
    set (P := Z.pos mx * k) in *. clearbody P k h.
    destruct sx, sy; unfold cond_Zopp; cbn [ord fst snd]; lia.
Qed.

Lemma SFsub_sign X Y :
  valid_binary X = true -> valid_binary Y = true ->
  SFltb (S754_zero false) (SF64sub X Y) = SFltb Y X.
Proof.
  intros HX HY.
  destruct X as [sx|sx| |sx mx ex], Y as [sy|sy| |sy my ey];
    try (try destruct sx; try destruct sy; reflexivity).
  unfold SF64sub, SFsub. simpl in HX, HY.
  rewrite binary_normalize_sign.
  - now apply finite_diff_sign.
  - apply bounded_facts in HX, HY. lia.
Qed.

Local Open Scope float_scope.

(** [a - b > 0] exactly when [a > b]: the comparator of a numeric sort
    orders as the numbers do. *)
Lemma sub_pos_iff x y : (0 <? x - y) = (y <? x).
Proof.
  rewrite !ltb_spec, sub_spec.
  change (Prim2SF 0) with (S754_zero false).
  apply SFsub_sign; apply Prim2SF_valid.
Qed.


(** *** NaN and the infinities *)

Lemma sub_diag x : x - x = 0 \/ x - x = nan.
Proof.
  assert (Prim2SF (x - x) = S754_zero false \/ Prim2SF (x - x) = S754_nan) as [H|H].
  { rewrite sub_spec. unfold SF64sub, SFsub.
    destruct (Prim2SF x) as [s|s| |s m e]; try destruct s; auto.
    - rewrite Z.sub_diag. auto.
    - rewrite Z.sub_diag. auto. }
  - left. now apply Prim2SF_inj.
  - right. now apply Prim2SF_inj.
Qed.

Lemma mul_nan_r x : x * nan = nan.
Proof.
  apply Prim2SF_inj. rewrite mul_spec. change (Prim2SF nan) with S754_nan.
  destruct (Prim2SF x); reflexivity.
Qed.

Lemma add_nan_l x : nan + x = nan.
Proof.
  apply Prim2SF_inj. rewrite add_spec. change (Prim2SF nan) with S754_nan.
  reflexivity.
Qed.

Lemma add_nan_r x : x + nan = nan.
Proof.
  apply Prim2SF_inj. rewrite add_spec. change (Prim2SF nan) with S754_nan.
  destruct (Prim2SF x); reflexivity.
Qed.

Lemma div_nan_l x : nan / x = nan.
Proof.
  apply Prim2SF_inj. rewrite div_spec. change (Prim2SF nan) with S754_nan.
  reflexivity.
Qed.

Lemma eqb_zero x : (x =? 0) = true -> exists s, Prim2SF x = S754_zero s.
Proof.
  rewrite eqb_spec. change (Prim2SF 0) with (S754_zero false). unfold SFeqb.
  destruct (Prim2SF x) as [s|s| |s m e]; try destruct s; try discriminate; eauto.
Qed.

Lemma div_zero_special x y : (y =? 0) = true -> special (x / y).
Proof.
  intros H. apply eqb_zero in H as [s H].
  unfold special. rewrite div_spec, H.
  destruct (Prim2SF x); exact I.
Qed.

Lemma mul_special_r x y : special y -> special (x * y).
Proof.
  unfold special. rewrite mul_spec.
  destruct (Prim2SF y); try contradiction; intros _;
    destruct (Prim2SF x); exact I.
Qed.

Lemma add_special x y : special x -> special y -> special (x + y).
Proof.
  unfold special. rewrite add_spec.
  destruct (Prim2SF x) as [| [|] | |]; try contradiction; intros _;
    destruct (Prim2SF y) as [| [|] | |]; try contradiction; intros _; exact I.
Qed.

(** Nothing that is NaN or infinite lies in [[0, l]] when [l] is zero. *)
Lemma special_outside x l :
  special x -> (l =? 0) = true -> (0 <=? x) && (x <=? l) = false.
Proof.
  intros Hx Hl. apply eqb_zero in Hl as [s Hl].
  unfold special in Hx. rewrite !leb_spec, Hl.
  change (Prim2SF 0) with (S754_zero false).
  destruct (Prim2SF x) as [| [|] | |]; try contradiction; reflexivity.
Qed.

End FloatFacts.

Import FloatFacts.

(** ** colormaps.ts *)

Module ColormapFacts.

Lemma COLORMAPS_nonempty name : COLORMAPS name <> [].
Proof. destruct name; discriminate. Qed.

(** C5. Sampling a registered colormap at the position of one of its stops
    returns that stop's color exactly; in particular sampling at 0.0 gives
    the first stop's color and sampling at 1.0 the last stop's color. *)
Theorem sampleColormap_exact_at_stops :
  forall name s, In s (COLORMAPS name) ->
    sampleColormap name (pos s) = stop_color s
    /\ sampleColormap name 0 = stop_color (hd s (COLORMAPS name))
    /\ sampleColormap name 1 = stop_color (last (COLORMAPS name) s).
Proof.
  intros name s H.
  destruct name; simpl in H;
    repeat (destruct H as [<- | H]; [repeat split; vm_compute; reflexivity|]);
    contradiction.
Qed.

Lemma sampleColormap_exact_at_stops_witness :
  sampleColormap viridis 0.5 = (32, 144, 140)%float
  /\ sampleColormap viridis 0 = (68, 1, 84)%float
  /\ sampleColormap viridis 1 = (253, 231, 37)%float.
Proof.
  apply (sampleColormap_exact_at_stops viridis (stop 0.5 32 144 140)).
  simpl. tauto.
Defined.

End ColormapFacts.

(** ** colorize.ts *)

Module ColorizeFacts.

Lemma length_store_rgba buf i r g b a :
  length (store_rgba buf i r g b a) = length buf.
Proof. unfold store_rgba. now rewrite !length_store. Qed.

Lemma store_rgba_alpha buf i r g b a :
  (i * 4 + 3 < length buf)%nat ->
  nth_error (store_rgba buf i r g b a) (i * 4 + 3) = Some a.
Proof.
  intros H. unfold store_rgba. apply nth_error_store_same.
  now rewrite !length_store.
Qed.

Lemma store_rgba_other buf i j r g b a :
  (j < i * 4 \/ i * 4 + 3 < j)%nat ->
  nth_error (store_rgba buf i r g b a) j = nth_error buf j.
Proof.
  intros H. unfold store_rgba.
  rewrite !nth_error_store_other by lia. reflexivity.
Qed.

Lemma colorize_classification_spec data vis cls :
  classifications data = Some cls ->
  let out := colorize_classification data vis (alloc 0 (pointCount data * 4)) in
  length out = (pointCount data * 4)%nat
  /\ forall i, (i < pointCount data)%nat ->
       nth_error out (i * 4 + 3) = Some (class_alpha vis cls i).
Proof.
  intros Hc. unfold colorize_classification. rewrite Hc. cbv zeta.
  set (n := pointCount data).
  apply (for_loop_inv (fun k buf =>
    length buf = (n * 4)%nat
    /\ forall i, (i < k)%nat -> nth_error buf (i * 4 + 3) = Some (class_alpha vis cls i))).
  - split; [apply length_alloc | intros i Hi; lia].
  - intros k buf Hk [Hlen Hprev].
    unfold class_alpha in *.
    destruct (isVisible vis (read cls k)) eqn:Hv.
    + destruct (class_color (read cls k)) as [[r g] b].
      split; [now rewrite length_store_rgba|].
      intros i Hi. destruct (Nat.eq_dec i k) as [->|Hne].
      * rewrite Hv. apply store_rgba_alpha. lia.
      * rewrite store_rgba_other by lia. apply Hprev. lia.
    + split; [now rewrite length_store|].
      intros i Hi. destruct (Nat.eq_dec i k) as [->|Hne].
      * rewrite Hv. apply nth_error_store_same. lia.
      * rewrite nth_error_store_other by lia. apply Hprev. lia.
Qed.

(** C7. Under the 'classification' scheme, on data that has a
    classifications buffer, colorizePoints returns a buffer of 4*pointCount
    bytes in which the alpha byte of point [i] is 0 when the visibility flag
    of its code is explicitly false and 255 otherwise. *)
Theorem classification_alpha_by_visibility :
  forall fuel data settings cls,
    colorScheme settings = Classification ->
    classifications data = Some cls ->
    exists out,
      colorizePoints (S fuel) data settings = Some (Ret out)
      /\ length out = (4 * pointCount data)%nat
      /\ forall i, (i < pointCount data)%nat ->
           (forall code, read cls i = Some code ->
              classificationVisibility settings code = Some false ->
              nth_error out (4 * i + 3) = Some 0)
           /\ ((forall code, read cls i = Some code ->
                  classificationVisibility settings code <> Some false) ->
               nth_error out (4 * i + 3) = Some 255).
Proof.
  intros fuel data settings cls Hs Hc.
  destruct (colorize_classification_spec data (classificationVisibility settings) cls Hc)
    as [Hlen Halpha].
  eexists. split; [simpl; rewrite Hs; reflexivity|].
  split; [rewrite Hlen; lia|].
  intros i Hi. specialize (Halpha i Hi).
  replace (4 * i + 3)%nat with (i * 4 + 3)%nat by lia.
  rewrite Halpha. unfold class_alpha, isVisible.
  split.
  - intros code Hr Hv. now rewrite Hr, Hv.
  - intros Hv. destruct (read cls i) as [code|] eqn:Hr; [|reflexivity].
    specialize (Hv code eq_refl).
    destruct (classificationVisibility settings code) as [[|]|]; congruence.
Qed.

Lemma classification_alpha_by_visibility_witness :
  exists out,
    colorizePoints 1 three_classes hide_buildings = Some (Ret out)
    /\ length out = 12%nat
    /\ forall i, (i < 3)%nat ->
         (forall code, read [2; 6; 99] i = Some code ->
            (if code =? 6 then Some false else None) = Some false ->
            nth_error out (4 * i + 3) = Some 0)
         /\ ((forall code, read [2; 6; 99] i = Some code ->
                (if code =? 6 then Some false else None) <> Some false) ->
             nth_error out (4 * i + 3) = Some 255).
Proof.
  apply (classification_alpha_by_visibility 0 three_classes hide_buildings [2; 6; 99]);
    reflexivity.
Defined.

(** C1 (the code departs from the claim). With the colors buffer absent, a
    call under the 'rgb' scheme calls colorizePoints again with the same
    data and the same settings: no depth of recursion lets it return, while
    the same call under the 'elevation' scheme returns its buffer at once. *)
Theorem rgb_without_colors_never_returns :
  forall fuel positions origin intensities classifications count bounds cmap vis,
    let data := {| positions := positions; coordinateOrigin := origin;
                   colors := None; intensities := intensities;
                   classifications := classifications; pointCount := count;
                   bounds := bounds |} in
    colorizePoints fuel data
      {| colorScheme := Rgb; colormap := cmap; classificationVisibility := vis |} = None
    /\ colorizePoints (S fuel) data
         {| colorScheme := Elevation; colormap := cmap; classificationVisibility := vis |}
       = Some (Ret (colorize_elevation data cmap (alloc 0 (count * 4)))).
Proof.
  intros fuel positions origin intensities classifications count bounds cmap vis data.
  split; [|reflexivity].
  induction fuel as [|fuel IH]; simpl; auto.
Qed.

End ColorizeFacts.

(** ** load-pointcloud.ts *)

Module LoaderFacts.

(** [ceil_div a b] is the ceiling of [a / b]. *)
Lemma ceil_div_spec a b :
  0 < b -> (ceil_div a b - 1) * b < a <= ceil_div a b * b.
Proof.
  intros Hb. unfold ceil_div.
  pose proof (Z.mul_div_le (- a) b Hb).
  pose proof (Z.mul_succ_div_gt (- a) b Hb).
  nia.
Qed.

Lemma ceil_div_unique a b q :
  0 < b -> (q - 1) * b < a <= q * b -> ceil_div a b = q.
Proof.
  intros Hb Hq. pose proof (ceil_div_spec a b Hb). nia.
Qed.

Lemma sample_step_pos v : 1 <= sample_step v.
Proof.
  unfold sample_step. destruct (Z.ltb_spec MAX_POINTS v) as [H|H]; [|lia].
  pose proof (ceil_div_spec v MAX_POINTS eq_refl). unfold MAX_POINTS in *. lia.
Qed.

Lemma sample_step_covers v : v <= sample_step v * MAX_POINTS.
Proof.
  unfold sample_step. destruct (Z.ltb_spec MAX_POINTS v) as [H|H]; [|lia].
  pose proof (ceil_div_spec v MAX_POINTS eq_refl). lia.
Qed.

Lemma sample_step_max v :
  1 <= v -> sample_step v = Z.max 1 (ceil_div v MAX_POINTS).
Proof.
  intros Hv. unfold sample_step.
  pose proof (ceil_div_spec v MAX_POINTS eq_refl) as Hc.
  destruct (Z.ltb_spec MAX_POINTS v) as [H|H]; unfold MAX_POINTS in *; lia.
Qed.

Lemma sample_count_spec v :
  (sample_count v - 1) * sample_step v < v <= sample_count v * sample_step v.
Proof.
  unfold sample_count. apply ceil_div_spec. pose proof (sample_step_pos v). lia.
Qed.

Lemma sample_count_le_MAX v : sample_count v <= MAX_POINTS.
Proof.
  pose proof (sample_count_spec v). pose proof (sample_step_pos v).
  pose proof (sample_step_covers v). unfold MAX_POINTS in *. nia.
Qed.

Lemma sample_count_pos v : 1 <= v -> 1 <= sample_count v.
Proof.
  intros Hv. pose proof (sample_count_spec v). pose proof (sample_step_pos v). nia.
Qed.

Lemma sample_index_in_range v i :
  0 <= i < sample_count v -> 0 <= i * sample_step v < v.
Proof.
  intros Hi. pose proof (sample_count_spec v). pose proof (sample_step_pos v). nia.
Qed.

Lemma sample_count_nonpos v : v <= 0 -> sample_count v = v.
Proof.
  intros Hv. unfold sample_count, sample_step.
  destruct (Z.ltb_spec MAX_POINTS v) as [H|H]; [unfold MAX_POINTS in *; lia|].
  apply ceil_div_unique; lia.
Qed.

End LoaderFacts.

Module BuildFacts.

Import LoaderFacts.

Local Open Scope float_scope.

Section Build.

Variable forward : option number * option number -> result (number * number).

Lemma reproject_from_snoc step raw n : forall i,
  reproject_from forward step raw (S n) i
  = (ps <- reproject_from forward step raw n i ;;
     p <- projected forward step raw (i + n) ;;
     Ret (ps ++ [p])).
Proof.
  induction n as [|n IH]; intros i.
  - simpl. rewrite Nat.add_0_r.
    destruct (projected forward step raw i); reflexivity.
  - change (reproject_from forward step raw (S (S n)) i)
      with (p <- projected forward step raw i ;;
            ps <- reproject_from forward step raw (S n) (S i) ;;
            Ret (p :: ps)).
    rewrite IH. simpl.
    replace (S (i + n)) with (i + S n)%nat by lia.
    destruct (projected forward step raw i); simpl; [|reflexivity].
    destruct (reproject_from forward step raw n (S i)); simpl; [|reflexivity].
    destruct (projected forward step raw (i + S n)); reflexivity.
Qed.

Lemma reproject_from_length step raw n : forall i pts,
  reproject_from forward step raw n i = Ret pts -> length pts = n.
Proof.
  induction n as [|n IH]; intros i pts H; simpl in H.
  - now inversion H.
  - destruct (projected forward step raw i); simpl in H; [|discriminate].
    destruct (reproject_from forward step raw n (S i)) eqn:E; simpl in H; [|discriminate].
    inversion H; subst. simpl. f_equal. eapply IH; eauto.
Qed.

(** What an iteration of the reprojection loop returns. *)
Lemma reproject_point_ret step raw rawI rawC i p q :
  reproject_point forward step raw rawI rawC i p = Ret q ->
  exists lng lat z,
    projected forward step raw i = Ret (lng, lat, z)
    /\ lngLat q = store (store (store (lngLat p) (i * 3) lng) (i * 3 + 1) lat) (i * 3 + 2) z
    /\ box q = track (box p) lng lat z
    /\ out_intensities q =
         match out_intensities p, rawI with
         | Some buf, Some r =>
             Some (store buf i (Math_fround (num (readZ r (Z.of_nat i * step)) / 65535)))
         | other, _ => other
         end
    /\ out_classifications q =
         match out_classifications p, rawC with
         | Some buf, Some r => Some (store buf i (byte (readZ r (Z.of_nat i * step))))
         | other, _ => other
         end.
Proof.
  unfold reproject_point, projected. intros H.
  destruct (forward _) as [[lng lat]|e]; simpl in H; [|discriminate].
  inversion H; subst; clear H. simpl. eauto 10.
Qed.

(** The reprojection loop: the points it has visited, the box it has
    accumulated over them and the coordinates it has buffered. *)
Lemma reproject_loop step raw rawI rawC n init pass :
  for_loop_from n 0 (reproject_point forward step raw rawI rawC) init = Ret pass ->
  length (lngLat init) = (n * 3)%nat ->
  exists pts,
    reproject_from forward step raw n 0 = Ret pts
    /\ box pass = fold_left track_point pts (box init)
    /\ length (lngLat pass) = (n * 3)%nat
    /\ forall i lng lat z, nth_error pts i = Some (lng, lat, z) ->
         nth_error (lngLat pass) (i * 3) = Some lng
         /\ nth_error (lngLat pass) (i * 3 + 1) = Some lat
         /\ nth_error (lngLat pass) (i * 3 + 2) = Some z.
Proof.
  intros Hrun Hlen.
  apply (for_loop_from_inv (fun k p =>
    exists pts,
      reproject_from forward step raw k 0 = Ret pts
      /\ box p = fold_left track_point pts (box init)
      /\ length (lngLat p) = (n * 3)%nat
      /\ forall i lng lat z, nth_error pts i = Some (lng, lat, z) ->
           nth_error (lngLat p) (i * 3) = Some lng
           /\ nth_error (lngLat p) (i * 3 + 1) = Some lat
           /\ nth_error (lngLat p) (i * 3 + 2) = Some z)) in Hrun.
  - exact Hrun.
  - exists []. repeat split; auto. all: destruct i; discriminate.
  - intros k a b Hk (pts & Hpts & Hbox & Hl & Hcont) Hbody.
    apply reproject_point_ret in Hbody as (lng & lat & z & Hp & HlngLat & Hb & _).
    exists (pts ++ [(lng, lat, z)]).
    pose proof (reproject_from_length _ _ _ _ _ Hpts) as Hn.
    split; [|split; [|split]].
    + rewrite reproject_from_snoc, Hpts. simpl. now rewrite Hp.
    + rewrite fold_left_app, <- Hbox, Hb. reflexivity.
    + rewrite HlngLat, !length_store. exact Hl.
    + intros i lng' lat' z' Hi. rewrite HlngLat.
      destruct (Nat.lt_ge_cases i k) as [Hlt|Hge].
      * rewrite nth_error_app1 in Hi by lia.
        rewrite !nth_error_store_other by lia. now apply Hcont.
      * assert (i < length (pts ++ [(lng, lat, z)]))%nat as Hin
          by (apply nth_error_Some; congruence).
        rewrite length_app in Hin. simpl in Hin.
        assert (i = k) as -> by lia.
        rewrite nth_error_app2, Hn, Nat.sub_diag in Hi by lia.
        inversion Hi; subst.
        repeat split.
        -- rewrite !nth_error_store_other by lia.
           apply nth_error_store_same. lia.
        -- rewrite nth_error_store_other by lia.
           apply nth_error_store_same. rewrite length_store. lia.
        -- apply nth_error_store_same. rewrite !length_store. lia.
Qed.

(** The optional attribute buffers keep their length, and hold at each
    visited point what was read at the sampled source index. *)
Lemma reproject_loop_attributes step raw rawI rawC n init pass :
  for_loop_from n 0 (reproject_point forward step raw rawI rawC) init = Ret pass ->
  out_intensities init = option_map (fun _ => alloc 0 n) rawI ->
  out_classifications init = option_map (fun _ => alloc 0%Z n) rawC ->
  match rawI with
  | Some r => exists buf,
      out_intensities pass = Some buf /\ length buf = n
      /\ forall i, (i < n)%nat ->
           nth_error buf i = Some (Math_fround (num (readZ r (Z.of_nat i * step)) / 65535))
  | None => out_intensities pass = None
  end
  /\ match rawC with
     | Some r => exists buf,
         out_classifications pass = Some buf /\ length buf = n
         /\ forall i, (i < n)%nat ->
              nth_error buf i = Some (byte (readZ r (Z.of_nat i * step)))
     | None => out_classifications pass = None
     end.
Proof.
  intros Hrun HI HC.
  apply (for_loop_from_inv (fun k p =>
    match rawI with
    | Some r => exists buf,
        out_intensities p = Some buf /\ length buf = n
        /\ forall i, (i < k)%nat ->
             nth_error buf i = Some (Math_fround (num (readZ r (Z.of_nat i * step)) / 65535))
    | None => out_intensities p = None
    end
    /\ match rawC with
       | Some r => exists buf,
           out_classifications p = Some buf /\ length buf = n
           /\ forall i, (i < k)%nat ->
                nth_error buf i = Some (byte (readZ r (Z.of_nat i * step)))
       | None => out_classifications p = None
       end) _ _ _ _ _ Hrun).
  - rewrite HI, HC. split.
    + destruct rawI; simpl; [|reflexivity].
      eexists; split; [reflexivity|]. split; [apply length_alloc|intros; lia].
    + destruct rawC; simpl; [|reflexivity].
      eexists; split; [reflexivity|]. split; [apply length_alloc|intros; lia].
  - intros k a b Hk [Hi Hc] Hbody.
    apply reproject_point_ret in Hbody as (lng & lat & z & _ & _ & _ & HbI & HbC).
    split.
    + destruct rawI as [r|].
      * destruct Hi as (buf & Ha & Hlen & Hcont). rewrite Ha in HbI.
        eexists; split; [exact HbI|]. split; [now rewrite length_store|].
        intros i Hik. destruct (Nat.eq_dec i k) as [->|Hne].
        -- apply nth_error_store_same. lia.
        -- rewrite nth_error_store_other by lia. apply Hcont. lia.
      * rewrite Hi in HbI. exact HbI.
    + destruct rawC as [r|].
      * destruct Hc as (buf & Ha & Hlen & Hcont). rewrite Ha in HbC.
        eexists; split; [exact HbC|]. split; [now rewrite length_store|].
        intros i Hik. destruct (Nat.eq_dec i k) as [->|Hne].
        -- apply nth_error_store_same. lia.
        -- rewrite nth_error_store_other by lia. apply Hcont. lia.
      * rewrite Hc in HbC. destruct (out_classifications a); exact HbC.
Qed.

End Build.

(** *** The bounding box *)

Lemma isNaN_nn x : isNaN x = false <-> nn x.
Proof.
  unfold isNaN. rewrite negb_false_iff. apply isNaN_false.
Qed.

Lemma lower_step m vs v :
  lower m vs -> nn v -> lower (if v <? m then v else m) (vs ++ [v]).
Proof.
  intros (Hm & Hle & Hin) Hv.
  destruct (v <? m) eqn:E.
  - split; [assumption|]. split.
    + intros u Hu. apply in_app_or in Hu as [Hu|[<-|[]]].
      * eapply leb_trans; [apply ltb_leb; exact E|]. now apply Hle.
      * now apply leb_refl.
    + right. apply in_or_app. right. now left.
  - split; [assumption|]. split.
    + intros u Hu. apply in_app_or in Hu as [Hu|[<-|[]]].
      * now apply Hle.
      * now apply ltb_false_leb.
    + destruct Hin as [Hin|Hin]; [now left|].
      right. apply in_or_app. now left.
Qed.

Lemma upper_step m vs v :
  upper m vs -> nn v -> upper (if m <? v then v else m) (vs ++ [v]).
Proof.
  intros (Hm & Hle & Hin) Hv.
  destruct (m <? v) eqn:E.
  - split; [assumption|]. split.
    + intros u Hu. apply in_app_or in Hu as [Hu|[<-|[]]].
      * eapply leb_trans; [now apply Hle|]. apply ltb_leb; exact E.
      * now apply leb_refl.
    + right. apply in_or_app. right. now left.
  - split; [assumption|]. split.
    + intros u Hu. apply in_app_or in Hu as [Hu|[<-|[]]].
      * now apply Hle.
      * now apply ltb_false_leb.
    + destruct Hin as [Hin|Hin]; [now left|].
      right. apply in_or_app. now left.
Qed.

Lemma boxed_initial : boxed initial_bounds [].
Proof.
  unfold boxed, lower, upper; simpl.
  repeat split; try apply nn_infinity; try apply nn_neg_infinity;
    try contradiction; auto.
Qed.

Lemma boxed_fold pts : forall b seen,
  boxed b seen -> Forall is_numeric pts ->
  boxed (fold_left track_point pts b) (seen ++ pts).
Proof.
  induction pts as [|[[lng lat] z] pts IH]; intros b seen Hb Hnum.
  - simpl. now rewrite app_nil_r.
  - inversion Hnum as [|? ? Hp Hrest]; subst.
    simpl in Hp. destruct Hp as (Hx & Hy & Hz).
    apply isNaN_nn in Hx, Hy, Hz.
    change (seen ++ (lng, lat, z) :: pts) with (seen ++ [(lng, lat, z)] ++ pts).
    rewrite app_assoc. cbn [fold_left track_point].
    apply IH; [|assumption].
    destruct Hb as (H1 & H2 & H3 & H4 & H5 & H6).
    unfold boxed. rewrite !map_app. simpl.
    split; [|split; [|split; [|split; [|split]]]];
      first [now apply lower_step | now apply upper_step].
Qed.

Lemma lower_attained (f : Point -> number) m pts :
  pts <> [] -> lower m (map f pts) -> exists p, In p pts /\ f p = m.
Proof.
  intros Hne (_ & Hle & [->|Hin]).
  - destruct pts as [|p pts]; [congruence|].
    exists p. split; [now left|].
    apply infinity_leb_eq. apply Hle. now left.
  - apply in_map_iff in Hin as (p & Hp & Hin). eauto.
Qed.

Lemma upper_attained (f : Point -> number) m pts :
  pts <> [] -> upper m (map f pts) -> exists p, In p pts /\ f p = m.
Proof.
  intros Hne (_ & Hle & [->|Hin]).
  - destruct pts as [|p pts]; [congruence|].
    exists p. split; [now left|].
    apply leb_neg_infinity_eq. apply Hle. now left.
  - apply in_map_iff in Hin as (p & Hp & Hin). eauto.
Qed.

(** The box accumulated from [initial_bounds] over points without NaN
    encloses them, and tightly when there is a point. *)
Lemma fold_track_tight pts :
  Forall is_numeric pts -> pts <> [] ->
  tightly_encloses (fold_left track_point pts initial_bounds) pts.
Proof.
  intros Hnum Hne.
  pose proof (boxed_fold pts initial_bounds [] boxed_initial Hnum) as Hb.
  simpl in Hb. destruct Hb as (H1 & H2 & H3 & H4 & H5 & H6).
  split.
  - intros lng lat z Hin.
    repeat split;
      match goal with
      | |- (minX _ <=? _) = true => apply H1
      | |- (_ <=? maxX _) = true => apply H2
      | |- (minY _ <=? _) = true => apply H3
      | |- (_ <=? maxY _) = true => apply H4
      | |- (minZ _ <=? _) = true => apply H5
      | |- (_ <=? maxZ _) = true => apply H6
      end.
    + change lng with (lng_of (lng, lat, z)). now apply in_map.
    + change lng with (lng_of (lng, lat, z)). now apply in_map.
    + change lat with (lat_of (lng, lat, z)). now apply in_map.
    + change lat with (lat_of (lng, lat, z)). now apply in_map.
    + change z with (z_of (lng, lat, z)). now apply in_map.
    + change z with (z_of (lng, lat, z)). now apply in_map.
  - repeat split.
    + now apply (lower_attained lng_of).
    + now apply (upper_attained lng_of).
    + now apply (lower_attained lat_of).
    + now apply (upper_attained lat_of).
    + now apply (lower_attained z_of).
    + now apply (upper_attained z_of).
Qed.

(** *** The encoding and color loops *)

Lemma encode_offsets_spec n lngLat originLng originLat :
  let out := encode_offsets n lngLat originLng originLat (alloc 0 (n * 3)) in
  length out = (n * 3)%nat
  /\ forall i, (i < n)%nat ->
       nth_error out (i * 3)
       = Some (Math_fround (num (read lngLat (i * 3)) - originLng))
       /\ nth_error out (i * 3 + 1)
          = Some (Math_fround (num (read lngLat (i * 3 + 1)) - originLat))
       /\ nth_error out (i * 3 + 2)
          = Some (Math_fround (num (read lngLat (i * 3 + 2)))).
Proof.
  unfold encode_offsets.
  apply (for_loop_inv (fun k buf =>
    length buf = (n * 3)%nat
    /\ forall i, (i < k)%nat ->
         nth_error buf (i * 3)
         = Some (Math_fround (num (read lngLat (i * 3)) - originLng))
         /\ nth_error buf (i * 3 + 1)
            = Some (Math_fround (num (read lngLat (i * 3 + 1)) - originLat))
         /\ nth_error buf (i * 3 + 2)
            = Some (Math_fround (num (read lngLat (i * 3 + 2)))))).
  - split; [apply length_alloc|intros; lia].
  - intros k buf Hk [Hlen Hprev]. split; [now rewrite !length_store|].
    intros i Hi. destruct (Nat.eq_dec i k) as [->|Hne].
    + repeat split.
      * rewrite !nth_error_store_other by lia. apply nth_error_store_same. lia.
      * rewrite nth_error_store_other by lia. apply nth_error_store_same.
        rewrite length_store. lia.
      * apply nth_error_store_same. rewrite !length_store. lia.
    + rewrite !nth_error_store_other by lia. apply Hprev. lia.
Qed.

Lemma copy_colors_spec n step rawColors channelSize :
  let out := copy_colors n step rawColors channelSize (alloc 0%Z (n * 4)) in
  length out = (n * 4)%nat
  /\ forall i, (i < n)%nat -> nth_error out (i * 4 + 3) = Some 255%Z.
Proof.
  unfold copy_colors.
  apply (for_loop_inv (fun k buf =>
    length buf = (n * 4)%nat
    /\ forall i, (i < k)%nat -> nth_error buf (i * 4 + 3) = Some 255%Z)).
  - split; [apply length_alloc|intros; lia].
  - intros k buf Hk [Hlen Hprev].
    destruct (3 <=? channelSize)%Z.
    + split; [now rewrite !length_store|].
      intros i Hi. destruct (Nat.eq_dec i k) as [->|Hne].
      * apply nth_error_store_same. rewrite !length_store. lia.
      * rewrite !nth_error_store_other by lia. apply Hprev. lia.
    + split; [now rewrite !length_store|].
      intros i Hi. destruct (Nat.eq_dec i k) as [->|Hne].
      * apply nth_error_store_same. lia.
      * rewrite !nth_error_store_other by lia. apply Hprev. lia.
Qed.

(** *** What [build] returns *)

Section Returned.

Variable forward : option number * option number -> result (number * number).

(** The record [build] returns, in terms of the state its reprojection
    loop ended in. *)
Lemma build_ret mesh d :
  build forward mesh = Ret d ->
  exists position pass,
    let v := vertexCount mesh in
    let n := Z.to_nat (sample_count v) in
    let rawI := option_map value (intensity_attr mesh) in
    let rawC := option_map value (classification_attr mesh) in
    POSITION mesh = Some position
    /\ (0 <= sample_count v)%Z
    /\ for_loop_from n 0
         (reproject_point forward (sample_step v) (value position) rawI rawC)
         {| lngLat := alloc 0 (n * 3);
            out_intensities := option_map (fun _ => alloc 0 n) rawI;
            out_classifications := option_map (fun _ => alloc 0%Z n) rawC;
            box := initial_bounds |} = Ret pass
    /\ d = {| positions :=
                encode_offsets n (lngLat pass)
                  (midpoint (minX (box pass)) (maxX (box pass)))
                  (midpoint (minY (box pass)) (maxY (box pass)))
                  (alloc 0 (n * 3));
              coordinateOrigin :=
                (midpoint (minX (box pass)) (maxX (box pass)),
                 midpoint (minY (box pass)) (maxY (box pass)), 0);
              colors :=
                match COLOR_0 mesh with
                | Some c =>
                    Some (copy_colors n (sample_step v) (value c) (size c)
                            (alloc 0%Z (n * 4)))
                | None => None
                end;
              intensities := out_intensities pass;
              classifications := out_classifications pass;
              pointCount := n;
              bounds := box pass |}.
Proof.
  unfold build. intros H.
  destruct (POSITION mesh) as [position|]; [|discriminate].
  unfold new_array in H.
  destruct (Z.ltb_spec (sample_count (vertexCount mesh) * 3) 0) as [Hneg|Hpos];
    [discriminate|].
  cbn [bind] in H.
  replace (Z.to_nat (sample_count (vertexCount mesh) * 3))
    with (Z.to_nat (sample_count (vertexCount mesh)) * 3)%nat in H by lia.
  destruct (for_loop_from _ _ _ _) as [pass|e] eqn:Hloop; [|discriminate].
  cbn [bind] in H. inversion H; subst; clear H.
  exists position, pass. cbv zeta.
  split; [reflexivity|]. split; [lia|]. split; [exact Hloop|reflexivity].
Qed.

(** [build] returns when the count is not negative and the projection does
    not throw. *)
Lemma build_total mesh position :
  POSITION mesh = Some position ->
  (0 <= vertexCount mesh)%Z ->
  (forall xy, exists lnglat, forward xy = Ret lnglat) ->
  exists d, build forward mesh = Ret d.
Proof.
  intros Hp Hv Hf. unfold build. rewrite Hp. unfold new_array.
  assert (0 <= sample_count (vertexCount mesh))%Z as Hc.
  { destruct (Z.eq_dec (vertexCount mesh) 0) as [E|E].
    - rewrite E. discriminate.
    - pose proof (sample_count_pos (vertexCount mesh)). lia. }
  destruct (Z.ltb_spec (sample_count (vertexCount mesh) * 3) 0) as [Hneg|Hpos]; [lia|].
  cbn [bind].
  match goal with
  | |- context [for_loop_from ?n ?i ?body ?s] =>
      destruct (for_loop_from_total n i body s) as [pass ->]
  end.
  - intros k a. unfold reproject_point.
    destruct (Hf (readZ (value position) (Z.of_nat k * sample_step (vertexCount mesh) * 3),
                  readZ (value position) (Z.of_nat k * sample_step (vertexCount mesh) * 3 + 1)))
      as [[lng lat] ->].
    simpl. eauto.
  - cbn [bind]. eauto.
Qed.

End Returned.

End BuildFacts.

(** ** loadPointCloud *)

Module LoadFacts.

Import LoaderFacts BuildFacts.

Local Open Scope float_scope.

Section Load.

Variable forward : option number * option number -> result (number * number).
Variable load : list Z -> result LASMesh.

Lemma loadPointCloud_ret arrayBuffer d :
  loadPointCloud forward load arrayBuffer = Ret d ->
  exists patched mesh,
    check_header arrayBuffer = Ret patched
    /\ load patched = Ret mesh
    /\ build forward mesh = Ret d.
Proof.
  unfold loadPointCloud. intros H.
  destruct (check_header arrayBuffer) as [patched|]; [|discriminate].
  cbn [bind] in H.
  destruct (load patched) as [mesh|] eqn:Hl; [|discriminate].
  eauto.
Qed.

Lemma loadPointCloud_decoded arrayBuffer patched mesh :
  check_header arrayBuffer = Ret patched ->
  load patched = Ret mesh ->
  loadPointCloud forward load arrayBuffer = build forward mesh.
Proof.
  intros Hh Hl. unfold loadPointCloud. now rewrite Hh; cbn [bind]; rewrite Hl.
Qed.

(** An error thrown by the header check or by the decoder reaches the
    caller. *)
Lemma loadPointCloud_rethrows arrayBuffer e :
  check_header arrayBuffer = Throw e
  \/ (exists patched, check_header arrayBuffer = Ret patched /\ load patched = Throw e) ->
  loadPointCloud forward load arrayBuffer = Throw e.
Proof.
  unfold loadPointCloud. intros [H|(patched & H & Hl)]; rewrite H; cbn [bind];
    [reflexivity|now rewrite Hl].
Qed.

(** C2 (as amended). When the decoded mesh lacks its position attribute,
    loadPointCloud throws (a TypeError) and when it declares a negative
    vertex count it throws (a RangeError): no PointCloudData is returned.
    A declared vertex count of zero is accepted: the result is a
    PointCloudData without points. *)
Theorem loadPointCloud_rejects_missing_positions_and_negative_counts :
  forall arrayBuffer patched mesh,
    check_header arrayBuffer = Ret patched ->
    load patched = Ret mesh ->
    (POSITION mesh = None ->
       loadPointCloud forward load arrayBuffer = Throw TypeError)
    /\ (POSITION mesh <> None -> (vertexCount mesh < 0)%Z ->
          loadPointCloud forward load arrayBuffer = Throw RangeError)
    /\ (POSITION mesh <> None -> vertexCount mesh = 0%Z ->
          exists d,
            loadPointCloud forward load arrayBuffer = Ret d
            /\ pointCount d = O /\ positions d = []
            /\ bounds d = initial_bounds).
Proof.
  intros arrayBuffer patched mesh Hh Hl.
  rewrite (loadPointCloud_decoded _ _ _ Hh Hl).
  unfold build. repeat split.
  - intros ->. reflexivity.
  - intros Hp Hv. destruct (POSITION mesh); [|congruence].
    rewrite (sample_count_nonpos (vertexCount mesh)) by lia. unfold new_array.
    destruct (Z.ltb_spec (vertexCount mesh * 3) 0); [reflexivity|lia].
  - intros Hp Hv. destruct (POSITION mesh) as [position|]; [|congruence].
    rewrite Hv. change (sample_count 0) with 0%Z. simpl.
    destruct (COLOR_0 mesh); eexists; repeat split.
Qed.

End Load.

Lemma loadPointCloud_rejects_missing_positions_and_negative_counts_witness :
  (POSITION headless_mesh = None ->
     loadPointCloud forward_id (fun _ => Ret headless_mesh) las12_header = Throw TypeError)
  /\ (POSITION headless_mesh <> None -> (vertexCount headless_mesh < 0)%Z ->
        loadPointCloud forward_id (fun _ => Ret headless_mesh) las12_header
        = Throw RangeError)
  /\ (POSITION headless_mesh <> None -> vertexCount headless_mesh = 0%Z ->
        exists d,
          loadPointCloud forward_id (fun _ => Ret headless_mesh) las12_header = Ret d
          /\ pointCount d = O /\ positions d = []
          /\ bounds d = initial_bounds).
Proof.
  apply (loadPointCloud_rejects_missing_positions_and_negative_counts
           forward_id (fun _ => Ret headless_mesh) las12_header las12_header headless_mesh);
    reflexivity.
Defined.

(** C2 (the claim as stated fails). A file whose decoded mesh has its
    position attribute and declares zero vertices is not rejected:
    loadPointCloud returns a PointCloudData. *)
Lemma loadPointCloud_accepts_zero_vertices :
  vertexCount empty_mesh = 0%Z
  /\ loadPointCloud forward_id (fun _ => Ret empty_mesh) las12_header
     = Ret {| positions := [];
              coordinateOrigin := (nan, nan, 0);
              colors := None;
              intensities := None;
              classifications := None;
              pointCount := 0;
              bounds := initial_bounds |}.
Proof. split; vm_compute; reflexivity. Qed.

End LoadFacts.

(** ** The PointCloudData that loadPointCloud returns *)

Module PointCloudFacts.

Import LoaderFacts BuildFacts LoadFacts.

Local Open Scope float_scope.

Section Cloud.

Variable forward : option number * option number -> result (number * number).
Variable load : list Z -> result LASMesh.

(** The reprojected points of a mesh that [build] accepted, with the box
    and the buffer the reprojection loop left. *)
Lemma build_points mesh d :
  build forward mesh = Ret d ->
  exists position pts lngLat,
    POSITION mesh = Some position
    /\ reprojected forward mesh = Ret pts
    /\ length pts = pointCount d
    /\ Z.of_nat (pointCount d) = sample_count (vertexCount mesh)
    /\ bounds d = fold_left track_point pts initial_bounds
    /\ (forall i lng lat z, nth_error pts i = Some (lng, lat, z) ->
          read lngLat (i * 3) = Some lng
          /\ read lngLat (i * 3 + 1) = Some lat
          /\ read lngLat (i * 3 + 2) = Some z)
    /\ positions d
       = encode_offsets (pointCount d) lngLat
           (midpoint (minX (bounds d)) (maxX (bounds d)))
           (midpoint (minY (bounds d)) (maxY (bounds d)))
           (alloc 0 (pointCount d * 3)).
Proof.
  intros H. apply build_ret in H as (position & pass & Hp & Hc & Hloop & ->).
  cbv zeta in Hloop.
  apply reproject_loop in Hloop as (pts & Hpts & Hbox & Hlen & Hcont);
    [|apply length_alloc].
  exists position, pts, (lngLat pass). cbn [pointCount bounds positions].
  split; [exact Hp|]. split; [unfold reprojected; now rewrite Hp|].
  split; [eapply reproject_from_length; eauto|].
  split; [lia|]. split; [exact Hbox|]. split; [exact Hcont|reflexivity].
Qed.

(** C4 (as amended). Every PointCloudData that loadPointCloud returns has
    3*pointCount positions, 4*pointCount color bytes, pointCount intensities
    and pointCount classifications (for the buffers that are present), and
    its coordinateOrigin is (midpoint(minX,maxX), midpoint(minY,maxY), 0) of
    its bounds; when at least one point was sampled and no reprojected
    coordinate is NaN, the bounds tightly enclose the reprojected points:
    none lies outside and each of the six faces is attained by a point. *)
Theorem loaded_cloud_invariants :
  forall arrayBuffer d,
    loadPointCloud forward load arrayBuffer = Ret d ->
    exists patched mesh pts,
      check_header arrayBuffer = Ret patched
      /\ load patched = Ret mesh
      /\ reprojected forward mesh = Ret pts
      /\ length pts = pointCount d
      /\ length (positions d) = (3 * pointCount d)%nat
      /\ (forall buf, colors d = Some buf -> length buf = (4 * pointCount d)%nat)
      /\ (forall buf, intensities d = Some buf -> length buf = pointCount d)
      /\ (forall buf, classifications d = Some buf -> length buf = pointCount d)
      /\ coordinateOrigin d
         = (midpoint (minX (bounds d)) (maxX (bounds d)),
            midpoint (minY (bounds d)) (maxY (bounds d)), 0)
      /\ (pts <> [] -> Forall is_numeric pts -> tightly_encloses (bounds d) pts).
Proof.
  intros arrayBuffer d H.
  apply loadPointCloud_ret in H as (patched & mesh & Hh & Hl & Hb).
  exists patched, mesh.
  destruct (build_points mesh d Hb) as (position & pts & buf & _ & Hpts & Hn & _ & Hbox & _).
  exists pts.
  apply build_ret in Hb as (position' & pass & Hp & Hc & Hloop & ->).
  cbv zeta in Hloop. cbn [pointCount bounds positions colors intensities
                         classifications coordinateOrigin] in *.
  pose proof (reproject_loop_attributes _ _ _ _ _ _ _ _ Hloop eq_refl eq_refl)
    as [HI HC].
  set (n := Z.to_nat (sample_count (vertexCount mesh))) in *.
  repeat match goal with |- _ /\ _ => split end; try assumption.
  - pose proof (encode_offsets_spec n (lngLat pass)
                  (midpoint (minX (box pass)) (maxX (box pass)))
                  (midpoint (minY (box pass)) (maxY (box pass)))) as [Hlen _].
    rewrite Hlen. lia.
  - intros cs Hcs. destruct (COLOR_0 mesh) as [c|]; [|discriminate].
    inversion Hcs; subst.
    pose proof (copy_colors_spec n (sample_step (vertexCount mesh)) (value c) (size c))
      as [Hlen _].
    rewrite Hlen. lia.
  - intros ib Hib. destruct (option_map value (intensity_attr mesh)).
    + destruct HI as (b & Hb & Hlen & _). congruence.
    + congruence.
  - intros cl Hcl. destruct (option_map value (classification_attr mesh)).
    + destruct HC as (b & Hb & Hlen & _). congruence.
    + congruence.
  - reflexivity.
  - intros Hne Hnum. rewrite Hbox. now apply fold_track_tight.
Qed.

(** C9. When the decoded mesh has a color attribute, of any channel size,
    the PointCloudData that loadPointCloud returns has a colors buffer whose
    alpha byte is 255 at every point. *)
Theorem loaded_colors_are_opaque :
  forall arrayBuffer patched mesh c d,
    check_header arrayBuffer = Ret patched ->
    load patched = Ret mesh ->
    COLOR_0 mesh = Some c ->
    loadPointCloud forward load arrayBuffer = Ret d ->
    exists buf,
      colors d = Some buf
      /\ forall i, (i < pointCount d)%nat -> nth_error buf (4 * i + 3) = Some 255%Z.
Proof.
  intros arrayBuffer patched mesh c d Hh Hl Hc H.
  rewrite (loadPointCloud_decoded _ _ _ _ _ Hh Hl) in H.
  apply build_ret in H as (position & pass & _ & _ & _ & ->).
  cbn [colors pointCount]. rewrite Hc.
  eexists; split; [reflexivity|].
  intros i Hi. replace (4 * i + 3)%nat with (i * 4 + 3)%nat by lia.
  now apply copy_colors_spec.
Qed.

(** C3. On an input that declares at least one vertex the sampling step is
    max(1, ceil(vertexCount / 500000)) and the point count is
    ceil(vertexCount / step); the point count never exceeds 500000; and the
    points are every step-th source point, in order: point [i] of the
    result is the projection of the source point at index [i * step], which
    lies inside the source.  The result is a function of the input. *)
Theorem subsampling_is_uniform_and_capped :
  forall mesh d,
    build forward mesh = Ret d ->
    let v := vertexCount mesh in
    let step := sample_step v in
    (Z.of_nat (pointCount d) <= 500000)%Z
    /\ (forall d', build forward mesh = Ret d' -> d' = d)
    /\ ((1 <= v)%Z ->
          step = Z.max 1 (ceil_div v MAX_POINTS)
          /\ Z.of_nat (pointCount d) = ceil_div v step
          /\ ((step - 1) * MAX_POINTS < v <= step * MAX_POINTS)%Z
          /\ ((Z.of_nat (pointCount d) - 1) * step < v <= Z.of_nat (pointCount d) * step)%Z
          /\ forall i, (i < pointCount d)%nat ->
               let srcIdx := (Z.of_nat i * step)%Z in
               (0 <= srcIdx < v)%Z
               /\ exists position lng lat,
                    POSITION mesh = Some position
                    /\ forward (readZ (value position) (srcIdx * 3),
                                readZ (value position) (srcIdx * 3 + 1)) = Ret (lng, lat)
                    /\ read (positions d) (i * 3)
                       = Some (Math_fround (lng - fst (fst (coordinateOrigin d))))
                    /\ read (positions d) (i * 3 + 1)
                       = Some (Math_fround (lat - snd (fst (coordinateOrigin d))))
                    /\ read (positions d) (i * 3 + 2)
                       = Some (Math_fround (num (readZ (value position) (srcIdx * 3 + 2))))).
Proof.
  intros mesh d H v step.
  destruct (build_points mesh d H)
    as (position & pts & buf & Hp & Hpts & Hlen & Hn & Hbox & Hcont & Hpos).
  split; [rewrite Hn; apply sample_count_le_MAX|].
  split; [intros d' H'; congruence|].
  intros Hv.
  split; [now apply sample_step_max|].
  split; [exact Hn|].
  split.
  { unfold step. rewrite (sample_step_max v Hv).
    pose proof (ceil_div_spec v MAX_POINTS eq_refl). unfold MAX_POINTS in *. lia. }
  split; [rewrite Hn; apply sample_count_spec|].
  intros i Hi srcIdx.
  split; [unfold srcIdx, step, v; apply sample_index_in_range; lia|].
  exists position.
  destruct (nth_error pts i) as [[[lng lat] z]|] eqn:Ei;
    [|apply nth_error_None in Ei; lia].
  exists lng, lat. split; [exact Hp|].
  (* point [i] is the projection of source point [i * step] *)
  assert (projected forward step (value position) i = Ret (lng, lat, z)) as Hproj.
  { unfold reprojected in Hpts. rewrite Hp in Hpts.
    clear - Hpts Ei. fold v in Hpts. fold step in Hpts.
    revert Hpts Ei. generalize (Z.to_nat (sample_count v)) as n.
    assert (forall n k ps j, reproject_from forward step (value position) n k = Ret ps ->
              nth_error ps j = Some (lng, lat, z) ->
              projected forward step (value position) (k + j) = Ret (lng, lat, z)) as G.
    { induction n as [|n IH]; intros k ps j Hr Hj; simpl in Hr.
      - inversion Hr; subst. destruct j; discriminate.
      - destruct (projected forward step (value position) k) as [p|] eqn:Ek;
          [|discriminate].
        cbn [bind] in Hr.
        destruct (reproject_from forward step (value position) n (S k)) as [ps'|] eqn:Er;
          [|discriminate].
        cbn [bind] in Hr. inversion Hr; subst.
        destruct j as [|j]; simpl in Hj.
        + inversion Hj; subst. now rewrite Nat.add_0_r.
        + replace (k + S j)%nat with (S k + j)%nat by lia. eapply IH; eauto. }
    intros n Hr Hj. exact (G n O pts i Hr Hj). }
  unfold projected in Hproj. fold srcIdx in Hproj.
  destruct (forward _) as [[lng' lat']|] eqn:Ef; [|discriminate].
  cbn [bind] in Hproj. inversion Hproj; subst lng' lat' z.
  split; [reflexivity|].
  destruct (Hcont i _ _ _ Ei) as (Hx & Hy & Hz).
  pose proof (encode_offsets_spec (pointCount d) buf
                (midpoint (minX (bounds d)) (maxX (bounds d)))
                (midpoint (minY (bounds d)) (maxY (bounds d)))) as [_ Henc].
  rewrite <- Hpos in Henc. destruct (Henc i Hi) as (Ex & Ey & Ez).
  unfold read in *. rewrite Hx in Ex. rewrite Hy in Ey. rewrite Hz in Ez.
  assert (coordinateOrigin d
          = (midpoint (minX (bounds d)) (maxX (bounds d)),
             midpoint (minY (bounds d)) (maxY (bounds d)), 0)) as Ho.
  { apply build_ret in H as (? & ? & _ & _ & _ & ->). reflexivity. }
  rewrite Ho. cbn [fst snd num] in *. auto.
Qed.

End Cloud.

Lemma loaded_cloud_invariants_witness :
  exists patched mesh pts,
    check_header las12_header = Ret patched
    /\ Ret small_mesh = Ret mesh
    /\ reprojected forward_id mesh = Ret pts
    /\ length pts = pointCount small_cloud
    /\ length (positions small_cloud) = (3 * pointCount small_cloud)%nat
    /\ (forall buf, colors small_cloud = Some buf ->
          length buf = (4 * pointCount small_cloud)%nat)
    /\ (forall buf, intensities small_cloud = Some buf ->
          length buf = pointCount small_cloud)
    /\ (forall buf, classifications small_cloud = Some buf ->
          length buf = pointCount small_cloud)
    /\ coordinateOrigin small_cloud
       = (midpoint (minX (bounds small_cloud)) (maxX (bounds small_cloud)),
          midpoint (minY (bounds small_cloud)) (maxY (bounds small_cloud)), 0)
    /\ (pts <> [] -> Forall is_numeric pts ->
        tightly_encloses (bounds small_cloud) pts).
Proof.
  apply (loaded_cloud_invariants forward_id (fun _ => Ret small_mesh)
           las12_header small_cloud).
  vm_compute. reflexivity.
Defined.

(** C4 (the claim as stated fails). A mesh that declares no vertex is
    built into a PointCloudData whose bounds are the initial infinities: no
    reprojected point attains them.  And a source point whose elevation is
    NaN lies outside the bounds of the PointCloudData built from it. *)
Lemma bounds_are_not_tight_without_points_or_with_NaN :
  (loadPointCloud forward_id (fun _ => Ret empty_mesh) las12_header = Ret empty_cloud
   /\ reprojected forward_id empty_mesh = Ret []
   /\ ~ tightly_encloses (bounds empty_cloud) [])
  /\ (exists d,
        loadPointCloud forward_id (fun _ => Ret nan_mesh) las12_header = Ret d
        /\ reprojected forward_id nan_mesh = Ret [(1, 2, nan)]
        /\ ~ tightly_encloses (bounds d) [(1, 2, nan)]).
Proof.
  split.
  - split; [vm_compute; reflexivity|]. split; [vm_compute; reflexivity|].
    intros [_ ((p & [] & _) & _)].
  - eexists. split; [vm_compute; reflexivity|]. split; [vm_compute; reflexivity|].
    intros [H _]. destruct (H 1 2 nan (or_introl eq_refl)) as (_ & _ & _ & _ & Hz & _).
    vm_compute in Hz. discriminate.
Qed.

Lemma loaded_colors_are_opaque_witness :
  exists buf,
    colors small_cloud = Some buf
    /\ forall i, (i < pointCount small_cloud)%nat ->
         nth_error buf (4 * i + 3) = Some 255%Z.
Proof.
  apply (loaded_colors_are_opaque forward_id (fun _ => Ret small_mesh)
           las12_header las12_header small_mesh
           {| value := [1; 2; 3; 4; 5; 6; 7; 8; 9; 10; 11; 12]%Z; size := 4 |}
           small_cloud);
    vm_compute; reflexivity.
Defined.

Lemma subsampling_is_uniform_and_capped_witness :
  (Z.of_nat (pointCount small_cloud) <= 500000)%Z
  /\ (forall d', build forward_id small_mesh = Ret d' -> d' = small_cloud)
  /\ ((1 <= 3)%Z ->
        sample_step 3 = Z.max 1 (ceil_div 3 MAX_POINTS)
        /\ Z.of_nat (pointCount small_cloud) = ceil_div 3 (sample_step 3)
        /\ ((sample_step 3 - 1) * MAX_POINTS < 3 <= sample_step 3 * MAX_POINTS)%Z
        /\ ((Z.of_nat (pointCount small_cloud) - 1) * sample_step 3 < 3
            <= Z.of_nat (pointCount small_cloud) * sample_step 3)%Z
        /\ forall i, (i < pointCount small_cloud)%nat ->
             let srcIdx := (Z.of_nat i * sample_step 3)%Z in
             (0 <= srcIdx < 3)%Z
             /\ exists position lng lat,
                  POSITION small_mesh = Some position
                  /\ forward_id (readZ (value position) (srcIdx * 3),
                                 readZ (value position) (srcIdx * 3 + 1)) = Ret (lng, lat)
                  /\ read (positions small_cloud) (i * 3)
                     = Some (Math_fround (lng - fst (fst (coordinateOrigin small_cloud))))
                  /\ read (positions small_cloud) (i * 3 + 1)
                     = Some (Math_fround (lat - snd (fst (coordinateOrigin small_cloud))))
                  /\ read (positions small_cloud) (i * 3 + 2)
                     = Some (Math_fround (num (readZ (value position) (srcIdx * 3 + 2))))).
Proof.
  apply (subsampling_is_uniform_and_capped forward_id small_mesh small_cloud).
  vm_compute. reflexivity.
Defined.

End PointCloudFacts.

(** ** cross-section.ts *)

Module ProfileFacts.

Local Open Scope float_scope.

(** The loop that pushes the points that pass the test. *)
Lemma push_loop {A} n (f : nat -> bool) (g : nat -> A) :
  for_loop n (fun i profile => if f i then profile ++ [g i] else profile) []
  = map g (filter f (seq 0 n)).
Proof.
  induction n as [|n IH].
  - reflexivity.
  - rewrite for_loop_S, IH, seq_S, filter_app, map_app. simpl.
    destruct (f n); simpl; [reflexivity|now rewrite app_nil_r].
Qed.

Lemma sort_insert_perm {A} (cmp : A -> A -> number) a l :
  Permutation (sort_insert cmp a l) (a :: l).
Proof.
  induction l as [|b t IH]; simpl.
  - reflexivity.
  - destruct (0 <? cmp a b).
    + rewrite IH. apply perm_swap.
    + reflexivity.
Qed.

Lemma Array_sort_perm {A} (cmp : A -> A -> number) l :
  Permutation (Array_sort cmp l) l.
Proof.
  induction l as [|a l IH]; simpl.
  - reflexivity.
  - rewrite sort_insert_perm. now constructor.
Qed.

Lemma sort_insert_sorted a l :
  nn (distance a) ->
  Forall (fun p => nn (distance p)) l ->
  StronglySorted by_distance l ->
  StronglySorted by_distance (sort_insert compare_distance a l).
Proof.
  intros Ha Hl Hs. induction Hs as [|b t Ht IH Hb]; simpl.
  - repeat constructor.
  - inversion Hl as [|? ? Hnb Hnt]; subst.
    unfold compare_distance at 1. rewrite sub_pos_iff.
    destruct (distance b <? distance a) eqn:E.
    + constructor; [now apply IH|].
      eapply Permutation_Forall; [symmetry; apply sort_insert_perm|].
      constructor; [|assumption].
      apply ltb_leb. exact E.
    + assert (by_distance a b) as Hab by (now apply ltb_false_leb).
      constructor; [now constructor|].
      constructor; [assumption|].
      eapply Forall_impl; [|exact Hb].
      intros p Hp. unfold by_distance in *. eapply leb_trans; eauto.
Qed.

Lemma Array_sort_sorted l :
  Forall (fun p => nn (distance p)) l ->
  StronglySorted by_distance (Array_sort compare_distance l).
Proof.
  induction l as [|a l IH]; intros H; simpl.
  - constructor.
  - inversion H; subst. apply sort_insert_sorted; auto.
    eapply Permutation_Forall; [symmetry; apply Array_sort_perm|assumption].
Qed.

Section Profile.

Variable Math_cos : number -> number.

(** On an axis of length zero the unit vector is not a number, and no
    point passes the test. *)
Lemma degenerate_selects_nothing c width data i :
  (len c =? 0) = true -> in_corridor c width data i = false.
Proof.
  intros H. unfold in_corridor.
  rewrite special_outside; [reflexivity| |exact H].
  unfold point_dist. destruct (to_point c data i) as [vx vy].
  apply add_special; apply mul_special_r; now apply div_zero_special.
Qed.

Lemma getProfile_selected data start end_ width :
  getProfile Math_cos data start end_ width
  = Array_sort compare_distance (selected (corridor Math_cos data start end_) width data).
Proof.
  unfold getProfile, selected. cbv zeta.
  set (c := corridor Math_cos data start end_).
  rewrite push_loop.
  destruct (len c =? 0) eqn:E; [|reflexivity].
  replace (filter (in_corridor c width data) (seq 0 (pointCount data))) with (@nil nat).
  - reflexivity.
  - symmetry. induction (seq 0 (pointCount data)) as [|i l IH]; simpl; [reflexivity|].
    now rewrite degenerate_selects_nothing.
Qed.

Lemma selected_In c width data p :
  In p (selected c width data) <->
  exists i, (i < pointCount data)%nat /\ p = profile_point c data i
            /\ in_corridor c width data i = true.
Proof.
  unfold selected. rewrite in_map_iff. split.
  - intros (i & <- & Hi). apply filter_In in Hi as [Hi Hc].
    apply in_seq in Hi. exists i. repeat split; [lia|assumption].
  - intros (i & Hi & -> & Hc). exists i. split; [reflexivity|].
    apply filter_In. split; [apply in_seq; lia|assumption].
Qed.

(** The corridor test and the pushed point of [getProfile] are those of
    the specification: the axis length, the distance along the axis, the
    offset from it, the test and the [ProfilePoint] agree value by value. *)
Lemma corridor_length_refines data start end_ :
  len (corridor Math_cos data start end_)
  = CorridorSpec.axis_length Math_cos data start end_.
Proof.
  unfold corridor, CorridorSpec.axis_length, CorridorSpec.axis, CorridorSpec.local,
    CorridorSpec.to_meters, CorridorSpec.minus, CorridorSpec.dot,
    CorridorSpec.metersPerDegreeLng, CorridorSpec.metersPerDegreeLat, CorridorSpec.origin.
  destruct (coordinateOrigin data) as [[ox oy] oz]. reflexivity.
Qed.

Lemma point_dist_refines data start end_ i :
  point_dist (corridor Math_cos data start end_) data i
  = CorridorSpec.signed_distance Math_cos data start end_ i.
Proof.
  unfold point_dist, to_point, corridor, CorridorSpec.signed_distance, CorridorSpec.u,
    CorridorSpec.point, CorridorSpec.axis_length, CorridorSpec.axis, CorridorSpec.local,
    CorridorSpec.to_meters, CorridorSpec.minus, CorridorSpec.dot,
    CorridorSpec.metersPerDegreeLng, CorridorSpec.metersPerDegreeLat, CorridorSpec.origin.
  destruct (coordinateOrigin data) as [[ox oy] oz]. reflexivity.
Qed.

Lemma point_offset_refines data start end_ i :
  point_offset (corridor Math_cos data start end_) data i
  = CorridorSpec.signed_offset Math_cos data start end_ i.
Proof.
  unfold point_offset, to_point, corridor, CorridorSpec.signed_offset, CorridorSpec.n,
    CorridorSpec.u, CorridorSpec.point, CorridorSpec.axis_length, CorridorSpec.axis,
    CorridorSpec.local, CorridorSpec.to_meters, CorridorSpec.minus, CorridorSpec.dot,
    CorridorSpec.metersPerDegreeLng, CorridorSpec.metersPerDegreeLat, CorridorSpec.origin.
  destruct (coordinateOrigin data) as [[ox oy] oz]. reflexivity.
Qed.

Lemma in_corridor_refines data start end_ width i :
  in_corridor (corridor Math_cos data start end_) width data i
  = CorridorSpec.inside Math_cos data start end_ width i.
Proof.
  unfold in_corridor, CorridorSpec.inside.
  now rewrite point_dist_refines, point_offset_refines, corridor_length_refines.
Qed.

Lemma profile_point_refines data start end_ i :
  profile_point (corridor Math_cos data start end_) data i
  = CorridorSpec.entry Math_cos data start end_ i.
Proof.
  unfold profile_point, CorridorSpec.entry. now rewrite point_dist_refines.
Qed.

Lemma selected_refines data start end_ width :
  selected (corridor Math_cos data start end_) width data
  = map (CorridorSpec.entry Math_cos data start end_)
      (filter (CorridorSpec.inside Math_cos data start end_ width)
         (seq 0 (pointCount data))).
Proof.
  unfold selected.
  rewrite (filter_ext _ _ (in_corridor_refines data start end_ width)).
  apply map_ext. intros i. apply profile_point_refines.
Qed.

(** C6. getProfile returns exactly the points of the corridor as the
    specification defines it: with the local meter frame at the origin of
    the dataset (111320 meters per degree of latitude, 111320 * cos of the
    origin latitude per degree of longitude), the unit vector u along the
    axis from start to end and its perpendicular n, a point is returned
    exactly when its projection onto u lies in [0, length] and its
    projection onto n is at most width/2 in absolute value; each such
    point is returned once, with that distance, and the result is sorted
    by distance ascending.  (On an axis of length zero no point passes the
    test and the result is empty.) *)
Theorem getProfile_is_the_corridor_sorted_by_distance :
  forall data start end_ width,
    let profile := getProfile Math_cos data start end_ width in
    let distance_of := CorridorSpec.signed_distance Math_cos data start end_ in
    let offset_of := CorridorSpec.signed_offset Math_cos data start end_ in
    (forall p, In p profile <->
       exists i, (i < pointCount data)%nat
                 /\ p = CorridorSpec.entry Math_cos data start end_ i
                 /\ (0 <=? distance_of i) = true
                 /\ (distance_of i <=? CorridorSpec.axis_length Math_cos data start end_)
                    = true
                 /\ (Math_abs (offset_of i) <=? width / 2) = true)
    /\ Permutation profile
         (map (CorridorSpec.entry Math_cos data start end_)
            (filter (CorridorSpec.inside Math_cos data start end_ width)
               (seq 0 (pointCount data))))
    /\ StronglySorted (fun a b => (distance a <=? distance b) = true) profile.
Proof.
  intros data start end_ width profile distance_of offset_of.
  unfold profile, distance_of, offset_of. rewrite getProfile_selected.
  split; [|split].
  - intros p.
    assert (In p (Array_sort compare_distance
                    (selected (corridor Math_cos data start end_) width data))
            <-> In p (selected (corridor Math_cos data start end_) width data)) as ->.
    { split; apply Permutation_in;
        [apply Array_sort_perm | symmetry; apply Array_sort_perm]. }
    rewrite selected_refines, in_map_iff. unfold CorridorSpec.inside.
    split.
    + intros (i & <- & Hin). apply filter_In in Hin as [Hi H]. apply in_seq in Hi.
      apply andb_prop in H as [H H3]. apply andb_prop in H as [H1 H2].
      exists i. repeat split; try assumption; lia.
    + intros (i & Hi & -> & H1 & H2 & H3). exists i. split; [reflexivity|].
      apply filter_In. split; [apply in_seq; lia|]. now rewrite H1, H2, H3.
  - rewrite <- selected_refines. apply Array_sort_perm.
  - apply Array_sort_sorted. apply Forall_forall.
    intros p Hp. apply selected_In in Hp as (i & _ & -> & Hc).
    unfold in_corridor in Hc.
    apply andb_prop in Hc as [Hc _]. apply andb_prop in Hc as [Hc _].
    apply leb_nn in Hc. apply Hc.
Qed.

(** The axis of a corridor whose ends coincide: each component is zero or
    not a number. *)
Lemma corridor_of_equal_ends data start :
  let c := corridor Math_cos data start start in
  (dx c = 0 \/ dx c = nan) /\ (dy c = 0 \/ dy c = nan)
  /\ len c = Math_sqrt (dx c * dx c + dy c * dy c).
Proof.
  unfold corridor. destruct (coordinateOrigin data) as [[ox oy] oz].
  cbn [dx dy len]. repeat split; apply sub_diag.
Qed.

(** C8. When the corridor starts and ends at the same point, getProfile
    returns the empty sequence. *)
Theorem getProfile_of_equal_ends_is_empty :
  forall data start width, getProfile Math_cos data start start width = [].
Proof.
  intros data start width.
  rewrite getProfile_selected.
  set (c := corridor Math_cos data start start).
  destruct (corridor_of_equal_ends data start) as (Hx & Hy & Hlen). fold c in Hx, Hy, Hlen.
  assert (forall i, in_corridor c width data i = false) as Hnone.
  { intros i. destruct Hx as [Hx|Hx]; [destruct Hy as [Hy|Hy]|].
    - apply degenerate_selects_nothing. rewrite Hlen, Hx, Hy. reflexivity.
    - unfold in_corridor, point_dist. destruct (to_point c data i) as [vx vy].
      now rewrite Hy, div_nan_l, mul_nan_r, add_nan_r.
    - unfold in_corridor, point_dist. destruct (to_point c data i) as [vx vy].
      now rewrite Hx, div_nan_l, mul_nan_r, add_nan_l. }
  unfold selected.
  replace (filter (in_corridor c width data) (seq 0 (pointCount data))) with (@nil nat).
  - reflexivity.
  - symmetry. induction (seq 0 (pointCount data)) as [|i l IH]; simpl; [reflexivity|].
    now rewrite Hnone.
Qed.

(** C10. A ProfilePoint that getProfile returns has color [255, 255, 255]
    when the data has no colors, intensity 0 when it has no intensities and
    classification 0 when it has no classifications. *)
Theorem getProfile_defaults_for_absent_buffers :
  forall data start end_ width p,
    In p (getProfile Math_cos data start end_ width) ->
    (colors data = None -> color p = (Some 255%Z, Some 255%Z, Some 255%Z))
    /\ (intensities data = None -> intensity p = Some 0)
    /\ (classifications data = None -> classification p = Some 0%Z).
Proof.
  intros data start end_ width p Hp.
  rewrite getProfile_selected in Hp.
  apply (Permutation_in _ (Array_sort_perm compare_distance _)) in Hp.
  apply selected_In in Hp as (i & _ & -> & _).
  unfold profile_point. cbn [color intensity classification].
  repeat split; intros ->; reflexivity.
Qed.

End Profile.

Lemma getProfile_defaults_for_absent_buffers_witness :
  let p := {| distance := 111.32000000001264;
              elevation := Some 15;
              classification := Some 0%Z;
              intensity := Some 0;
              color := (Some 255%Z, Some 255%Z, Some 255%Z) |} in
  (colors bare_cloud = None -> color p = (Some 255%Z, Some 255%Z, Some 255%Z))
  /\ (intensities bare_cloud = None -> intensity p = Some 0)
  /\ (classifications bare_cloud = None -> classification p = Some 0%Z).
Proof.
  intros p.
  apply (getProfile_defaults_for_absent_buffers cos_equator bare_cloud
           (7.003, 0) (7, 0) 400 p).
  vm_compute. left. reflexivity.
Defined.

End ProfileFacts.

(** ** More binary64 order facts *)

Module OrderFacts.

Local Open Scope float_scope.

Lemma lex_Eq a b : lex a b = Eq <-> a = b.
Proof.
  destruct a as [[a1 a2] a3], b as [[b1 b2] b3]; simpl.
  destruct (Z.compare_spec a1 b1), (Z.compare_spec a2 b2), (Z.compare_spec a3 b3);
    split; intros Hx; try discriminate; try reflexivity;
    try (inversion Hx; lia); congruence.
Qed.

Lemma eqb_lex x y :
  (x =? y) = true <-> nn x /\ nn y /\ lex (ord (Prim2SF x)) (ord (Prim2SF y)) = Eq.
Proof.
  unfold nn. rewrite eqb_spec. unfold SFeqb.
  destruct (Prim2SF x) as [sa|sa| |sa ma ea] eqn:Ex;
  destruct (Prim2SF y) as [sb|sb| |sb mb eb] eqn:Ey;
  try (simpl; split; [discriminate | intros (? & ? & ?); congruence]);
  rewrite SFcompare_lex by discriminate;
  (split; [intros H; repeat split; try discriminate;
           destruct (lex _ _); congruence
          | intros (_ & _ & ->); reflexivity]).
Qed.

Lemma leb_ltb_trans x y z : (x <=? y) = true -> (y <? z) = true -> (x <? z) = true.
Proof. intros H1 H2. lexify. lia. Qed.

Lemma ltb_leb_trans x y z : (x <? y) = true -> (y <=? z) = true -> (x <? z) = true.
Proof. intros H1 H2. lexify. lia. Qed.

Lemma leb_not_ltb x y : (x <=? y) = true -> (y <? x) = false.
Proof.
  intros H. apply Bool.not_true_iff_false. intros H'. lexify. lia.
Qed.

Lemma ltb_not_leb x y : (x <? y) = true -> (y <=? x) = false.
Proof.
  intros H. apply Bool.not_true_iff_false. intros H'. lexify. lia.
Qed.

Lemma ltb_asym x y : (x <? y) = true -> (y <? x) = false.
Proof. intros H. apply leb_not_ltb. now apply ltb_leb. Qed.


End OrderFacts.

(** ** sampleColormap outside and inside [0, 1] *)

Module ClampFacts.

Import OrderFacts BuildFacts.

Local Open Scope float_scope.

Lemma isNaN_true_eq t : isNaN t = true -> t = nan.
Proof.
  intros H. apply Prim2SF_inj. change (Prim2SF nan) with S754_nan.
  destruct (Prim2SF t) eqn:E; try reflexivity;
    assert (isNaN t = false) as H' by (apply isNaN_nn; unfold nn; rewrite E; discriminate);
    congruence.
Qed.

(** A number with the rank of a finite non-zero number is that number. *)
Lemma ord_eq_finite X s m e :
  X <> S754_nan -> ord X = ord (S754_finite s m e) -> X = S754_finite s m e.
Proof.
  intros Hn H.
  destruct X as [sx|sx| |sx mx ex]; try congruence;
    try destruct sx; destruct s; simpl in H; try discriminate;
    inversion H; subst; try reflexivity.
  f_equal. lia.
Qed.

Lemma leb_antisym_one t : (1 <=? t) = true -> (1 <? t) = false -> t = 1.
Proof.
  intros H1 H2. apply Prim2SF_inj.
  assert (nn t) as Hn by (apply leb_nn in H1; tauto).
  assert (lex (ord (Prim2SF 1)) (ord (Prim2SF t)) = Eq) as E.
  { destruct (lex (ord (Prim2SF 1)) (ord (Prim2SF t))) eqn:E; try reflexivity.
    - assert ((1 <? t) = true) by (apply ltb_lex; repeat split; try assumption;
                                     unfold nn; vm_compute; discriminate).
      congruence.
    - apply leb_lex in H1 as (_ & _ & H1). congruence. }
  apply lex_Eq in E. symmetry in E.
  remember (Prim2SF 1) as one eqn:Hone. vm_compute in Hone. subst one.
  now apply ord_eq_finite.
Qed.

Lemma clamp01_low t : (t <=? 0) = true -> clamp01 t = 0.
Proof.
  intros H. unfold clamp01.
  assert (isNaN t = false) as Hn by (apply isNaN_nn; apply leb_nn in H; tauto).
  assert ((t <? 1) = true) as H1 by (eapply leb_ltb_trans; [exact H|reflexivity]).
  assert (Math_min 1 t = t) as ->.
  { unfold Math_min. rewrite Hn, (ltb_asym _ _ H1), H1. reflexivity. }
  unfold Math_max. rewrite Hn. change (isNaN 0) with false. cbn [orb].
  rewrite (leb_not_ltb _ _ H). change (signbit 0) with false.
  destruct (t <? 0); reflexivity.
Qed.

Lemma clamp01_high t : (1 <=? t) = true -> clamp01 t = 1.
Proof.
  intros H. unfold clamp01.
  assert (isNaN t = false) as Hn by (apply isNaN_nn; apply leb_nn in H; tauto).
  assert (Math_min 1 t = 1) as ->.
  { unfold Math_min. rewrite Hn. change (isNaN 1) with false. cbn [orb].
    destruct (1 <? t) eqn:E; [reflexivity|].
    rewrite (leb_not_ltb _ _ H). change (signbit 1) with false. cbn iota.
    now apply leb_antisym_one. }
  reflexivity.
Qed.



Lemma sampleColormap_clamps name t :
  sampleColormap name t
  = match scan_stops (COLORMAPS name) (clamp01 t) with
    | Some c => c
    | None => stop_color (last (COLORMAPS name) (stop 0 0 0 0))
    end.
Proof. reflexivity. Qed.

(** X1. sampleColormap clamps: at every t <= 0 (negative infinity
    included) it returns the first stop's color, and at every t >= 1
    (positive infinity included) the last stop's color. *)
Theorem sampleColormap_clamps_to_the_end_stops :
  forall name t,
    ((t <=? 0) = true ->
       sampleColormap name t = stop_color (hd (stop 0 0 0 0) (COLORMAPS name)))
    /\ ((1 <=? t) = true ->
          sampleColormap name t = stop_color (last (COLORMAPS name) (stop 0 0 0 0))).
Proof.
  intros name t. split; intros H; rewrite sampleColormap_clamps.
  - rewrite (clamp01_low _ H). destruct name; vm_compute; reflexivity.
  - rewrite (clamp01_high _ H). destruct name; vm_compute; reflexivity.
Qed.

Lemma sampleColormap_clamps_to_the_end_stops_witness :
  sampleColormap viridis (-3) = (68, 1, 84)
  /\ sampleColormap viridis infinity = (253, 231, 37).
Proof.
  split.
  - exact (proj1 (sampleColormap_clamps_to_the_end_stops viridis (-3)) eq_refl).
  - exact (proj2 (sampleColormap_clamps_to_the_end_stops viridis infinity) eq_refl).
Defined.

(** X2. At NaN, sampleColormap finds no bracket and returns the last
    stop's color. *)
Theorem sampleColormap_of_NaN_is_the_last_stop :
  forall name t,
    isNaN t = true ->
    scan_stops (COLORMAPS name) (clamp01 t) = None
    /\ sampleColormap name t = stop_color (last (COLORMAPS name) (stop 0 0 0 0)).
Proof.
  intros name t H. rewrite (isNaN_true_eq _ H).
  destruct name; split; vm_compute; reflexivity.
Qed.

Lemma sampleColormap_of_NaN_is_the_last_stop_witness :
  scan_stops (COLORMAPS viridis) (clamp01 nan) = None
  /\ sampleColormap viridis nan = stop_color (last (COLORMAPS viridis) (stop 0 0 0 0)).
Proof.
  apply (sampleColormap_of_NaN_is_the_last_stop viridis nan). reflexivity.
Defined.






End ClampFacts.

(** ** The buffers colorizePoints fills *)

Module BufferFacts.

Import OrderFacts BuildFacts.

Local Open Scope float_scope.

Lemma store_app_r {A} (l1 l2 : list A) j v :
  store (l1 ++ l2) (length l1 + j) v = l1 ++ store l2 j v.
Proof. induction l1 as [|x l1 IH]; simpl; [reflexivity|now rewrite IH]. Qed.

Lemma store_quad (l1 rest : list Z) i z0 z1 z2 z3 r g b a :
  length l1 = (i * 4)%nat ->
  store_rgba (l1 ++ z0 :: z1 :: z2 :: z3 :: rest) i r g b a = l1 ++ r :: g :: b :: a :: rest.
Proof.
  intros H. unfold store_rgba. rewrite <- H.
  replace (length l1) with (length l1 + 0)%nat at 1 by lia.
  now rewrite !store_app_r.
Qed.

Lemma store_quad_alpha (l1 rest : list Z) i z0 z1 z2 z3 a :
  length l1 = (i * 4)%nat ->
  store (l1 ++ z0 :: z1 :: z2 :: z3 :: rest) (i * 4 + 3) a = l1 ++ z0 :: z1 :: z2 :: a :: rest.
Proof. intros H. rewrite <- H. now rewrite store_app_r. Qed.

Lemma flat_map_quads_length (quad : nat -> list Z) l :
  (forall i, length (quad i) = 4%nat) -> length (flat_map quad l) = (length l * 4)%nat.
Proof.
  intros H. induction l as [|x l IH]; simpl; [reflexivity|].
  rewrite length_app, H, IH. lia.
Qed.

(** A loop that turns the four zeros of point [i] into [quad i] fills a
    fresh buffer with the quads of all points, in order. *)
Lemma quads_loop n (body : nat -> list Z -> list Z) (quad : nat -> list Z) :
  (forall i, length (quad i) = 4%nat) ->
  (forall i l1 rest, (i < n)%nat -> length l1 = (i * 4)%nat ->
     body i (l1 ++ 0 :: 0 :: 0 :: 0 :: rest)%Z = l1 ++ quad i ++ rest) ->
  for_loop n body (alloc 0%Z (n * 4)) = flat_map quad (seq 0 n).
Proof.
  intros Hq Hbody.
  assert (for_loop n body (alloc 0%Z (n * 4))
          = flat_map quad (seq 0 n) ++ alloc 0%Z ((n - n) * 4)) as H.
  { apply (for_loop_inv (fun k buf =>
      buf = flat_map quad (seq 0 k) ++ alloc 0%Z ((n - k) * 4))).
    - now rewrite Nat.sub_0_r.
    - intros k buf Hk ->.
      replace ((n - k) * 4)%nat with (4 + (n - S k) * 4)%nat by lia.
      cbn [alloc repeat Nat.add].
      rewrite Hbody; [|assumption|rewrite flat_map_quads_length, length_seq; auto].
      rewrite seq_S, flat_map_app. simpl. now rewrite app_nil_r, <- !app_assoc. }
  rewrite H, Nat.sub_diag. simpl. apply app_nil_r.
Qed.

Lemma pixel_of_quads (quad : nat -> list Z) n i :
  (forall i, length (quad i) = 4%nat) -> (i < n)%nat ->
  pixel (flat_map quad (seq 0 n)) i = quad i.
Proof.
  intros Hq Hi. unfold pixel.
  replace n with (i + S (n - S i))%nat by lia.
  rewrite seq_app, flat_map_app. cbn [seq flat_map Nat.add].
  rewrite skipn_app.
  rewrite flat_map_quads_length, length_seq by assumption.
  rewrite Nat.sub_diag, skipn_all2
    by (rewrite flat_map_quads_length, length_seq by assumption; lia).
  cbn [skipn app].
  rewrite firstn_app, <- (Hq i), firstn_all, Nat.sub_diag. simpl. apply app_nil_r.
Qed.

Lemma fillSolidColor_quads n r g b :
  fillSolidColor (alloc 0%Z (n * 4)) n r g b
  = flat_map (fun _ => [r; g; b; 255%Z]) (seq 0 n).
Proof.
  unfold fillSolidColor. apply quads_loop; [reflexivity|].
  intros i l1 rest _ H. now apply store_quad.
Qed.

Lemma sampled_pixel_length cmap t : length (sampled_pixel cmap t) = 4%nat.
Proof. unfold sampled_pixel. now destruct (sampleColormap cmap t) as [[r g] b]. Qed.

Lemma store_sample_quad cmap t l1 rest i :
  length l1 = (i * 4)%nat ->
  store_sample cmap t i (l1 ++ 0 :: 0 :: 0 :: 0 :: rest)%Z = l1 ++ sampled_pixel cmap t ++ rest.
Proof.
  intros H. unfold store_sample, sampled_pixel.
  destruct (sampleColormap cmap t) as [[r g] b]. now apply store_quad.
Qed.

Lemma colorize_elevation_quads data cmap :
  colorize_elevation data cmap (alloc 0%Z (pointCount data * 4))
  = flat_map (fun i => sampled_pixel cmap (elevation_t data i)) (seq 0 (pointCount data)).
Proof.
  unfold colorize_elevation. cbv zeta. apply quads_loop.
  - intros i. apply sampled_pixel_length.
  - intros i l1 rest _ H. now apply store_sample_quad.
Qed.

Lemma colorize_classification_quads data vis cls :
  classifications data = Some cls ->
  colorize_classification data vis (alloc 0%Z (pointCount data * 4))
  = flat_map (class_pixel vis cls) (seq 0 (pointCount data)).
Proof.
  intros H. unfold colorize_classification. rewrite H. apply quads_loop.
  - intros i. unfold class_pixel. destruct (isVisible _ _); [|reflexivity].
    now destruct (class_color _) as [[r g] b].
  - intros i l1 rest _ Hl. unfold class_pixel.
    destruct (isVisible _ _).
    + destruct (class_color _) as [[r g] b]. now apply store_quad.
    + now apply store_quad_alpha.
Qed.

End BufferFacts.

(** ** Zero quotients *)

Module ArithFacts.

Import OrderFacts BuildFacts.

Local Open Scope float_scope.

Lemma sub_diag_finite x : finite x -> x - x = 0.
Proof.
  unfold finite. intros H. apply Prim2SF_inj. rewrite sub_spec.
  change (Prim2SF 0) with (S754_zero false). unfold SF64sub, SFsub.
  destruct (Prim2SF x) as [s|s| |s m e]; try contradiction.
  - now destruct s.
  - now rewrite Z.sub_diag.
Qed.

Lemma or_else_regular x : (or_else x 1 =? 0) = false /\ isNaN (or_else x 1) = false.
Proof.
  unfold or_else. destruct (x =? 0) eqn:E0; [split; reflexivity|].
  destruct (isNaN x) eqn:En; [split; reflexivity|]. cbn [orb]. auto.
Qed.

(** Zero divided by a number that is not zero is a zero. *)
Lemma zero_div_nonzero r :
  (r =? 0) = false -> isNaN r = false -> (0 / r <=? 0) = true.
Proof.
  intros H0 Hn. apply isNaN_nn in Hn. unfold nn in Hn.
  rewrite eqb_spec in H0. rewrite leb_spec, div_spec.
  change (Prim2SF 0) with (S754_zero false) in *.
  destruct (Prim2SF r) as [s|s| |s m e]; try congruence; try discriminate;
    destruct s; reflexivity.
Qed.

(** Sampling at a zero of either sign, or below, is sampling at 0. *)
Lemma sampled_pixel_low cmap t : (t <=? 0) = true -> sampled_pixel cmap t = sampled_pixel cmap 0.
Proof.
  intros H. unfold sampled_pixel.
  rewrite (ClampFacts.sampleColormap_clamps cmap t), (ClampFacts.clamp01_low _ H).
  reflexivity.
Qed.

End ArithFacts.

(** ** colorizePoints, scheme by scheme *)

Module SchemeFacts.

Import OrderFacts BuildFacts ClampFacts BufferFacts ArithFacts.

Local Open Scope float_scope.

(** X4. Under the 'intensity' scheme without an intensities buffer, and
    under the 'classification' scheme without a classifications buffer,
    colorizePoints returns 4*pointCount bytes in which every point is the
    neutral gray (180, 180, 180) with alpha 255. *)
Theorem missing_attribute_falls_back_to_gray :
  forall fuel data settings,
    (colorScheme settings = Intensity /\ intensities data = None)
    \/ (colorScheme settings = Classification /\ classifications data = None) ->
    exists out,
      colorizePoints (S fuel) data settings = Some (Ret out)
      /\ length out = (4 * pointCount data)%nat
      /\ forall i, (i < pointCount data)%nat -> pixel out i = [180; 180; 180; 255]%Z.
Proof.
  intros fuel data settings H.
  exists (flat_map (fun _ => [180; 180; 180; 255]%Z) (seq 0 (pointCount data))).
  split; [|split].
  - cbn [colorizePoints].
    destruct H as [[-> H]|[-> H]];
      [unfold colorize_intensity|unfold colorize_classification];
      rewrite H, fillSolidColor_quads; reflexivity.
  - rewrite flat_map_quads_length, length_seq by reflexivity. lia.
  - intros i Hi. now apply (pixel_of_quads (fun _ => [180; 180; 180; 255]%Z)).
Qed.

Lemma missing_attribute_falls_back_to_gray_witness :
  exists out,
    colorizePoints 1 bare_cloud
      {| colorScheme := Intensity; colormap := viridis;
         classificationVisibility := fun _ => None |} = Some (Ret out)
    /\ length out = (4 * pointCount bare_cloud)%nat
    /\ forall i, (i < pointCount bare_cloud)%nat -> pixel out i = [180; 180; 180; 255]%Z.
Proof.
  apply (missing_attribute_falls_back_to_gray 0 bare_cloud
           {| colorScheme := Intensity; colormap := viridis;
              classificationVisibility := fun _ => None |}).
  left. split; reflexivity.
Defined.

(** X5. Under the 'classification' scheme a visible point gets the color
    of its code in the ASPRS table, or the neutral gray when the code is not
    in the table, with alpha 255; a point whose code is hidden is left all
    zero (color and alpha). *)
Theorem classification_colors_by_code :
  forall fuel data settings cls,
    colorScheme settings = Classification ->
    classifications data = Some cls ->
    exists out,
      colorizePoints (S fuel) data settings = Some (Ret out)
      /\ forall i code, (i < pointCount data)%nat -> read cls i = Some code ->
           (classificationVisibility settings code = Some false ->
              pixel out i = [0; 0; 0; 0]%Z)
           /\ (classificationVisibility settings code <> Some false ->
                 (forall r g b, CLASSIFICATION_COLORS code = Some (r, g, b) ->
                    pixel out i = [r; g; b; 255%Z])
                 /\ (CLASSIFICATION_COLORS code = None ->
                       pixel out i = [180; 180; 180; 255]%Z)).
Proof.
  intros fuel data settings cls Hs Hc.
  exists (flat_map (class_pixel (classificationVisibility settings) cls)
            (seq 0 (pointCount data))).
  split.
  - cbn [colorizePoints]. rewrite Hs.
    now rewrite (colorize_classification_quads data _ cls Hc).
  - intros i code Hi Hr.
    rewrite pixel_of_quads; [|intros j; unfold class_pixel;
      destruct (isVisible _ _); [now destruct (class_color _) as [[? ?] ?]|reflexivity]
      |assumption].
    unfold class_pixel, isVisible, class_color. rewrite Hr.
    split.
    + intros ->. reflexivity.
    + intros Hv.
      assert (match classificationVisibility settings code with
              | Some false => false | _ => true end = true) as ->
        by (destruct (classificationVisibility settings code) as [[|]|]; congruence).
      split.
      * intros r g b ->. reflexivity.
      * intros ->. reflexivity.
Qed.

Lemma classification_colors_by_code_witness :
  exists out,
    colorizePoints 1 three_classes hide_buildings = Some (Ret out)
    /\ forall i code, (i < pointCount three_classes)%nat ->
         read [2; 6; 99]%Z i = Some code ->
         (classificationVisibility hide_buildings code = Some false ->
            pixel out i = [0; 0; 0; 0]%Z)
         /\ (classificationVisibility hide_buildings code <> Some false ->
               (forall r g b, CLASSIFICATION_COLORS code = Some (r, g, b) ->
                  pixel out i = [r; g; b; 255%Z])
               /\ (CLASSIFICATION_COLORS code = None ->
                     pixel out i = [180; 180; 180; 255]%Z)).
Proof.
  apply (classification_colors_by_code 0 three_classes hide_buildings [2; 6; 99]%Z);
    reflexivity.
Defined.

(** X6. Under the 'elevation' scheme colorizePoints returns 4*pointCount
    bytes; point [i] holds the colormap sampled at (z - minZ) / range, where
    range is maxZ - minZ or 1 when that is zero or NaN, with alpha 255; a
    point at the minimum elevation, when that is finite, gets the color the
    colormap has at 0. *)
Theorem elevation_scheme_samples_the_normalised_height :
  forall fuel data settings,
    colorScheme settings = Elevation ->
    exists out,
      colorizePoints (S fuel) data settings = Some (Ret out)
      /\ length out = (4 * pointCount data)%nat
      /\ forall i, (i < pointCount data)%nat ->
           pixel out i = sampled_pixel (colormap settings) (elevation_t data i)
           /\ (finite (minZ (bounds data)) ->
               read (positions data) (i * 3 + 2) = Some (minZ (bounds data)) ->
               pixel out i = sampled_pixel (colormap settings) 0).
Proof.
  intros fuel data settings Hs.
  eexists. split; [cbn [colorizePoints]; rewrite Hs, colorize_elevation_quads; reflexivity|].
  split.
  - rewrite flat_map_quads_length, length_seq; [lia|].
    intros i. apply sampled_pixel_length.
  - intros i Hi.
    rewrite pixel_of_quads; [|intros j; apply sampled_pixel_length|assumption].
    split; [reflexivity|].
    intros Hfin Hz. apply sampled_pixel_low.
    unfold elevation_t. rewrite Hz. cbn [num]. rewrite (sub_diag_finite _ Hfin).
    apply zero_div_nonzero; apply or_else_regular.
Qed.

Lemma elevation_scheme_samples_the_normalised_height_witness :
  exists out,
    colorizePoints 1 bare_cloud elevation_viridis = Some (Ret out)
    /\ length out = (4 * pointCount bare_cloud)%nat
    /\ forall i, (i < pointCount bare_cloud)%nat ->
         pixel out i = sampled_pixel (colormap elevation_viridis) (elevation_t bare_cloud i)
         /\ (finite (minZ (bounds bare_cloud)) ->
             read (positions bare_cloud) (i * 3 + 2) = Some (minZ (bounds bare_cloud)) ->
             pixel out i = sampled_pixel (colormap elevation_viridis) 0).
Proof.
  apply (elevation_scheme_samples_the_normalised_height 0 bare_cloud elevation_viridis).
  reflexivity.
Defined.

Lemma lower_In m vs : vs <> [] -> lower m vs -> In m vs.
Proof.
  intros Hne (_ & Hle & [->|Hin]); [|assumption].
  destruct vs as [|v vs]; [congruence|].
  left. apply infinity_leb_eq. apply Hle. now left.
Qed.

Lemma upper_In m vs : vs <> [] -> upper m vs -> In m vs.
Proof.
  intros Hne (_ & Hle & [->|Hin]); [|assumption].
  destruct vs as [|v vs]; [congruence|].
  left. apply leb_neg_infinity_eq. apply Hle. now left.
Qed.

(** The loop over the intensities leaves their minimum and maximum. *)
Lemma intensity_range_spec n ints :
  (forall i, (i < n)%nat -> isNaN (intensity_at ints i) = false) ->
  lower (fst (intensity_range n ints)) (map (intensity_at ints) (seq 0 n))
  /\ upper (snd (intensity_range n ints)) (map (intensity_at ints) (seq 0 n)).
Proof.
  intros Hnum. unfold intensity_range.
  apply (for_loop_inv (fun k (mm : number * number) =>
    lower (fst mm) (map (intensity_at ints) (seq 0 k))
    /\ upper (snd mm) (map (intensity_at ints) (seq 0 k)))).
  - split; (split; [first [apply nn_infinity|apply nn_neg_infinity]|]);
      (split; [intros v []|now left]).
  - intros k [m M] Hk [Hlo Hup]. cbn [fst snd] in *.
    rewrite seq_S, map_app. cbn [map Nat.add].
    assert (nn (intensity_at ints k)) as Hv by (apply isNaN_nn; now apply Hnum).
    split; [now apply lower_step|now apply upper_step].
Qed.

Lemma colorize_intensity_quads data cmap ints :
  intensities data = Some ints ->
  colorize_intensity data cmap (alloc 0%Z (pointCount data * 4))
  = flat_map (fun i =>
      sampled_pixel cmap
        ((intensity_at ints i - fst (intensity_range (pointCount data) ints))
         / or_else (snd (intensity_range (pointCount data) ints)
                    - fst (intensity_range (pointCount data) ints)) 1))
      (seq 0 (pointCount data)).
Proof.
  intros H. unfold colorize_intensity. rewrite H.
  destruct (intensity_range (pointCount data) ints) as [minI maxI]. cbn [fst snd].
  apply quads_loop.
  - intros i. apply sampled_pixel_length.
  - intros i l1 rest _ Hl. now apply store_sample_quad.
Qed.

(** X7. Under the 'intensity' scheme, on data with at least one point
    whose intensities are numbers, the colors are normalised by the observed
    range: there are a minimum and a maximum, each the intensity of some
    point and bounding all of them, and point [i] holds the colormap sampled
    at (v - min) / range, where range is max - min or 1 when that is zero; a
    point of minimal intensity gets the color the colormap has at 0. *)
Theorem intensity_scheme_normalises_by_the_observed_range :
  forall fuel data settings ints,
    colorScheme settings = Intensity ->
    intensities data = Some ints ->
    (0 < pointCount data)%nat ->
    (forall i, (i < pointCount data)%nat -> isNaN (intensity_at ints i) = false) ->
    exists out minI maxI,
      colorizePoints (S fuel) data settings = Some (Ret out)
      /\ (forall i, (i < pointCount data)%nat ->
            (minI <=? intensity_at ints i) = true /\ (intensity_at ints i <=? maxI) = true)
      /\ (exists i, (i < pointCount data)%nat /\ intensity_at ints i = minI)
      /\ (exists i, (i < pointCount data)%nat /\ intensity_at ints i = maxI)
      /\ forall i, (i < pointCount data)%nat ->
           pixel out i
           = sampled_pixel (colormap settings)
               ((intensity_at ints i - minI) / or_else (maxI - minI) 1)
           /\ (finite minI -> intensity_at ints i = minI ->
               pixel out i = sampled_pixel (colormap settings) 0).
Proof.
  intros fuel data settings ints Hs Hi Hpos Hnum.
  destruct (intensity_range_spec (pointCount data) ints Hnum) as [Hlo Hup].
  set (minI := fst (intensity_range (pointCount data) ints)) in *.
  set (maxI := snd (intensity_range (pointCount data) ints)) in *.
  assert (map (intensity_at ints) (seq 0 (pointCount data)) <> []) as Hne.
  { destruct (pointCount data); [lia|discriminate]. }
  eexists. exists minI, maxI.
  split; [cbn [colorizePoints]; rewrite Hs, (colorize_intensity_quads _ _ ints Hi);
          reflexivity|].
  split; [|split; [|split]].
  - intros i Hlt.
    assert (In (intensity_at ints i) (map (intensity_at ints) (seq 0 (pointCount data))))
      as Hin by (apply in_map, in_seq; lia).
    split; [apply Hlo|apply Hup]; exact Hin.
  - apply (lower_In _ _ Hne), in_map_iff in Hlo as (i & E & Hin).
    apply in_seq in Hin. exists i. split; [lia|exact E].
  - apply (upper_In _ _ Hne), in_map_iff in Hup as (i & E & Hin).
    apply in_seq in Hin. exists i. split; [lia|exact E].
  - intros i Hlt.
    rewrite pixel_of_quads; [|intros j; apply sampled_pixel_length|assumption].
    fold minI maxI. split; [reflexivity|].
    intros Hfin ->. apply sampled_pixel_low.
    rewrite (sub_diag_finite _ Hfin).
    apply zero_div_nonzero; apply or_else_regular.
Qed.

Lemma intensity_scheme_normalises_by_the_observed_range_witness :
  exists out minI maxI,
    colorizePoints 1 shaded_cloud intensity_gray = Some (Ret out)
    /\ (forall i, (i < pointCount shaded_cloud)%nat ->
          (minI <=? intensity_at [0.5; 0.25; 0.75] i) = true
          /\ (intensity_at [0.5; 0.25; 0.75] i <=? maxI) = true)
    /\ (exists i, (i < pointCount shaded_cloud)%nat
                  /\ intensity_at [0.5; 0.25; 0.75] i = minI)
    /\ (exists i, (i < pointCount shaded_cloud)%nat
                  /\ intensity_at [0.5; 0.25; 0.75] i = maxI)
    /\ forall i, (i < pointCount shaded_cloud)%nat ->
         pixel out i
         = sampled_pixel (colormap intensity_gray)
             ((intensity_at [0.5; 0.25; 0.75] i - minI) / or_else (maxI - minI) 1)
         /\ (finite minI -> intensity_at [0.5; 0.25; 0.75] i = minI ->
             pixel out i = sampled_pixel (colormap intensity_gray) 0).
Proof.
  apply (intensity_scheme_normalises_by_the_observed_range 0 shaded_cloud intensity_gray
           [0.5; 0.25; 0.75]); try reflexivity.
  - simpl. lia.
  - intros [|[|[|i]]] H; try reflexivity. simpl in H. lia.
Defined.

(** The alpha loop of the 'rgb' scheme. *)
Lemma alpha_loop n (base : list Z) :
  length base = (n * 4)%nat ->
  let out := for_loop n (fun i colors => store colors (i * 4 + 3) 255%Z) base in
  length out = (n * 4)%nat
  /\ forall i, (i < n)%nat ->
       read out (i * 4 + 3) = Some 255%Z
       /\ forall k, (k < 3)%nat -> read out (i * 4 + k) = read base (i * 4 + k).
Proof.
  intros Hlen.
  set (P := fun (k : nat) (buf : list Z) =>
    length buf = (n * 4)%nat
    /\ (forall i, (i < k)%nat -> read buf (i * 4 + 3) = Some 255%Z)
    /\ (forall i c, (c < 3)%nat -> read buf (i * 4 + c) = read base (i * 4 + c))).
  assert (P n (for_loop n (fun i colors => store colors (i * 4 + 3) 255%Z) base)) as H.
  { apply for_loop_inv.
    - unfold P. split; [exact Hlen|]. split; [intros; lia|reflexivity].
    - intros k buf Hk (Hl & Ha & Hc). unfold P, read in *.
      split; [now rewrite length_store|]. split.
      + intros i Hi. destruct (Nat.eq_dec i k) as [->|Hne].
        * apply nth_error_store_same. lia.
        * rewrite nth_error_store_other by lia. apply Ha. lia.
      + intros i c Hc3. rewrite nth_error_store_other by lia. now apply Hc. }
  destruct H as (Hl & Ha & Hc). split; [exact Hl|].
  intros i Hi. split; [now apply Ha|]. intros k Hk. now apply Hc.
Qed.

(** X8. Under the 'rgb' scheme with a colors buffer: when the buffer has
    more than 4*pointCount bytes the call throws a RangeError; otherwise it
    returns 4*pointCount bytes whose color channels are those of the buffer
    (0 past its end) and whose alpha bytes are all 255, whatever alpha the
    buffer held. *)
Theorem rgb_scheme_copies_colors_and_forces_alpha :
  forall fuel data settings source,
    colorScheme settings = Rgb ->
    colors data = Some source ->
    ((4 * pointCount data < length source)%nat ->
       colorizePoints (S fuel) data settings = Some (Throw RangeError))
    /\ ((length source <= 4 * pointCount data)%nat ->
          exists out,
            colorizePoints (S fuel) data settings = Some (Ret out)
            /\ length out = (4 * pointCount data)%nat
            /\ forall i, (i < pointCount data)%nat ->
                 read out (i * 4 + 3) = Some 255%Z
                 /\ forall k, (k < 3)%nat ->
                      read out (i * 4 + k) = Some (byte (read source (i * 4 + k)))).
Proof.
  intros fuel data settings source Hs Hc.
  cbn [colorizePoints]. rewrite Hs, Hc. unfold colorize_rgb, typed_set.
  rewrite length_alloc. split.
  - intros H. destruct (Nat.ltb_spec (pointCount data * 4) (length source)); [reflexivity|lia].
  - intros H. destruct (Nat.ltb_spec (pointCount data * 4) (length source)); [lia|].
    cbn [bind].
    set (base := source ++ skipn (length source) (alloc 0%Z (pointCount data * 4))).
    assert (length base = (pointCount data * 4)%nat) as Hlen.
    { unfold base. rewrite length_app, length_skipn, length_alloc. lia. }
    destruct (alpha_loop (pointCount data) base Hlen) as (Hl & Hpix).
    eexists. split; [reflexivity|]. split; [rewrite Hl; lia|].
    intros i Hi. destruct (Hpix i Hi) as [Ha Hk]. split; [exact Ha|].
    intros k Hk3. rewrite (Hk k Hk3). unfold read, base.
    destruct (Nat.lt_ge_cases (i * 4 + k) (length source)) as [Hin|Hout].
    + rewrite nth_error_app1 by assumption.
      destruct (nth_error source (i * 4 + k)) eqn:E; [reflexivity|].
      apply nth_error_None in E. lia.
    + rewrite nth_error_app2 by assumption.
      rewrite (proj2 (nth_error_None source (i * 4 + k)) Hout). cbn [byte].
      rewrite nth_error_skipn. apply nth_error_alloc. lia.
Qed.

Lemma rgb_scheme_copies_colors_and_forces_alpha_witness :
  ((4 * pointCount shaded_cloud < 12)%nat ->
     colorizePoints 1 shaded_cloud rgb_viridis = Some (Throw RangeError))
  /\ ((12 <= 4 * pointCount shaded_cloud)%nat ->
        exists out,
          colorizePoints 1 shaded_cloud rgb_viridis = Some (Ret out)
          /\ length out = (4 * pointCount shaded_cloud)%nat
          /\ forall i, (i < pointCount shaded_cloud)%nat ->
               read out (i * 4 + 3) = Some 255%Z
               /\ forall k, (k < 3)%nat ->
                    read out (i * 4 + k)
                    = Some (byte (read [10; 20; 30; 0; 40; 50; 60; 7; 70; 80; 90; 255]%Z
                                    (i * 4 + k)))).
Proof.
  apply (rgb_scheme_copies_colors_and_forces_alpha 0 shaded_cloud rgb_viridis
           [10; 20; 30; 0; 40; 50; 60; 7; 70; 80; 90; 255]%Z); reflexivity.
Defined.

(** Under a scheme other than 'rgb' one call returns four bytes per
    point, with or without the attribute the scheme reads. *)
Lemma other_schemes_return data settings :
  colorScheme settings <> Rgb ->
  exists out,
    (forall fuel, colorizePoints (S fuel) data settings = Some (Ret out))
    /\ length out = (4 * pointCount data)%nat.
Proof.
  intros Hs. destruct (colorScheme settings) eqn:E; [| | |congruence].
  - eexists. split; [intros fuel; cbn [colorizePoints]; rewrite E; reflexivity|].
    rewrite colorize_elevation_quads.
    rewrite flat_map_quads_length, length_seq; [lia|intros; apply sampled_pixel_length].
  - eexists. split; [intros fuel; cbn [colorizePoints]; rewrite E; reflexivity|].
    destruct (intensities data) as [ints|] eqn:Hi.
    + rewrite (colorize_intensity_quads _ _ ints Hi).
      rewrite flat_map_quads_length, length_seq; [lia|intros; apply sampled_pixel_length].
    + unfold colorize_intensity. rewrite Hi, fillSolidColor_quads.
      rewrite flat_map_quads_length, length_seq; [lia|reflexivity].
  - eexists. split; [intros fuel; cbn [colorizePoints]; rewrite E; reflexivity|].
    destruct (classifications data) as [cls|] eqn:Hc.
    + destruct (ColorizeFacts.colorize_classification_spec data
                  (classificationVisibility settings) cls Hc) as [Hl _].
      rewrite Hl. lia.
    + unfold colorize_classification. rewrite Hc, fillSolidColor_quads.
      rewrite flat_map_quads_length, length_seq; [lia|reflexivity].
Qed.

(** Under 'rgb' with a colors buffer one call throws a RangeError when the
    buffer is too long, and returns four bytes per point otherwise. *)
Lemma rgb_with_colors_outcome data settings source :
  colorScheme settings = Rgb -> colors data = Some source ->
  ((4 * pointCount data < length source)%nat
   /\ forall fuel, colorizePoints (S fuel) data settings = Some (Throw RangeError))
  \/ ((length source <= 4 * pointCount data)%nat
      /\ exists out,
           (forall fuel, colorizePoints (S fuel) data settings = Some (Ret out))
           /\ length out = (4 * pointCount data)%nat).
Proof.
  intros Hs Hc.
  destruct (Nat.lt_ge_cases (4 * pointCount data) (length source)) as [Hlong|Hfit].
  - left. split; [exact Hlong|]. intros fuel. cbn [colorizePoints]. rewrite Hs, Hc.
    unfold colorize_rgb, typed_set. rewrite length_alloc.
    destruct (Nat.ltb_spec (pointCount data * 4) (length source)); [reflexivity|lia].
  - right. split; [exact Hfit|].
    set (base := source ++ skipn (length source) (alloc 0%Z (pointCount data * 4))).
    assert (length base = (pointCount data * 4)%nat) as Hlen.
    { unfold base. rewrite length_app, length_skipn, length_alloc. lia. }
    destruct (alpha_loop (pointCount data) base Hlen) as (Hl & _).
    eexists. split; [|rewrite Hl; lia].
    intros fuel. cbn [colorizePoints]. rewrite Hs, Hc.
    unfold colorize_rgb, typed_set. rewrite length_alloc.
    destruct (Nat.ltb_spec (pointCount data * 4) (length source)); [lia|reflexivity].
Qed.

(** Under 'rgb' without colors no depth of recursion yields a result. *)
Lemma rgb_without_colors_yields_nothing fuel data settings :
  colorScheme settings = Rgb -> colors data = None ->
  colorizePoints fuel data settings = None.
Proof.
  intros Hs Hc. induction fuel as [|fuel IH]; [reflexivity|].
  cbn [colorizePoints]. now rewrite Hs, Hc.
Qed.

(** X9. colorizePoints returns a buffer, whatever depth of recursion it is
    allowed, in all cases but two, both under the 'rgb' scheme: the data
    has no colors (getAvailableSchemes reports 'rgb' as unavailable), or
    its colors buffer is longer than 4*pointCount.  A buffer that is
    returned is returned by the first call, without recursion, and has
    4*pointCount bytes.  For every scheme that getAvailableSchemes reports
    as available the first call returns such a buffer or, for 'rgb' only,
    throws a RangeError. *)
Theorem colorizePoints_returns_exactly_for_the_usable_schemes :
  forall fuel data settings,
    ((exists out, colorizePoints (S fuel) data settings = Some (Ret out))
     <-> ~ (colorScheme settings = Rgb
            /\ (getAvailableSchemes (Some data) Rgb = false
                \/ exists source, colors data = Some source
                                  /\ (4 * pointCount data < length source)%nat)))
    /\ (forall out, colorizePoints (S fuel) data settings = Some (Ret out) ->
          colorizePoints 1 data settings = Some (Ret out)
          /\ length out = (4 * pointCount data)%nat)
    /\ (getAvailableSchemes (Some data) (colorScheme settings) = true ->
        exists r,
          colorizePoints 1 data settings = Some r
          /\ (forall out, r = Ret out -> length out = (4 * pointCount data)%nat)
          /\ (forall e, r = Throw e -> colorScheme settings = Rgb /\ e = RangeError)).
Proof.
  intros fuel data settings.
  destruct (colorScheme settings) eqn:Hs.
  1-3: destruct (other_schemes_return data settings) as (out & Hout & Hlen);
    [rewrite Hs; discriminate|].
  1-3: split; [split; [intros _ [? _]; discriminate|intros _; exists out; apply Hout]|].
  1-3: split; [intros o Ho; rewrite Hout in Ho; inversion Ho; subst;
               split; [apply Hout|exact Hlen]|].
  1-3: intros _; exists (Ret out); split; [apply Hout|];
    split; [intros o E; inversion E; subst; exact Hlen|discriminate].
  cbn [getAvailableSchemes].
  destruct (colors data) as [source|] eqn:Hc.
  - destruct (rgb_with_colors_outcome data settings source Hs Hc)
      as [(Hlong & Hthrow)|(Hfit & out & Hout & Hlen)].
    + split; [split|].
      * intros [o Ho]. rewrite Hthrow in Ho. discriminate.
      * intros Hnot. exfalso. apply Hnot. split; [reflexivity|]. right. eauto.
      * split; [intros o Ho; rewrite Hthrow in Ho; discriminate|].
        intros _. exists (Throw RangeError). split; [apply Hthrow|].
        split; [discriminate|]. intros e E. inversion E. auto.
    + split; [split|].
      * intros _ [_ [?|(src & E & Hl)]]; [discriminate|].
        inversion E; subst. lia.
      * intros _. exists out. apply Hout.
      * split; [intros o Ho; rewrite Hout in Ho; inversion Ho; subst;
                split; [apply Hout|exact Hlen]|].
        intros _. exists (Ret out). split; [apply Hout|].
        split; [intros o E; inversion E; subst; exact Hlen|discriminate].
  - pose proof (fun f => rgb_without_colors_yields_nothing f data settings Hs Hc) as Hnone.
    split; [split|].
    + intros [o Ho]. rewrite Hnone in Ho. discriminate.
    + intros Hnot. exfalso. apply Hnot. auto.
    + split; [intros o Ho; rewrite Hnone in Ho; discriminate|discriminate].
Qed.

End SchemeFacts.

(** ** The header check of loadPointCloud *)

Module HeaderFacts.

Import LoadFacts.

Section Header.

Variable forward : option number * option number -> result (number * number).
Variable load : list Z -> result LASMesh.

Lemma check_header_reads buf p :
  check_header buf = Ret p ->
  exists major minor fmt,
    nth_error buf 24 = Some major /\ nth_error buf 25 = Some minor
    /\ nth_error buf 104 = Some fmt
    /\ ((major = 1 /\ minor = 4 /\ (Z.land fmt 63 <= 3) /\ p = store buf 25 3)
        \/ (~ (major = 1 /\ minor = 4) /\ p = buf))%Z.
Proof.
  unfold check_header, getUint8. intros H.
  destruct (nth_error buf 24) as [major|]; [|discriminate]. cbn [bind] in H.
  destruct (nth_error buf 25) as [minor|]; [|discriminate]. cbn [bind] in H.
  destruct (nth_error buf 104) as [fmt|]; [|discriminate]. cbn [bind] in H.
  exists major, minor, fmt. repeat split.
  destruct (Z.eqb_spec major 1) as [->|Hm]; destruct (Z.eqb_spec minor 4) as [->|Hn];
    cbn [andb] in H.
  - destruct (Z.ltb_spec 3 (Z.land fmt 63)); [discriminate|].
    inversion H. left. auto.
  - inversion H. right. split; [intros (_ & ?); congruence|reflexivity].
  - inversion H. right. split; [intros (? & _); congruence|reflexivity].
  - inversion H. right. split; [intros (? & _); congruence|reflexivity].
Qed.

Lemma check_header_unchanged buf major minor fmt :
  nth_error buf 24 = Some major -> nth_error buf 25 = Some minor ->
  nth_error buf 104 = Some fmt -> ~ (major = 1 /\ minor = 4)%Z ->
  check_header buf = Ret buf.
Proof.
  intros H24 H25 H104 Hv. unfold check_header, getUint8.
  rewrite H24, H25, H104. cbn [bind].
  destruct (Z.eqb_spec major 1) as [->|Hm]; destruct (Z.eqb_spec minor 4) as [->|Hn];
    cbn [andb]; try reflexivity.
  exfalso. auto.
Qed.

(** X10. When the header check passes, the buffer handed to the decoder
    has the length of the file, differs from it at most in byte 25, never
    announces version 1.4, and passes the check unchanged: loading the
    patched buffer gives what loading the file gives. *)
Theorem header_check_hands_the_decoder_no_version_1_4 :
  forall buf p,
    check_header buf = Ret p ->
    (104 < length buf)%nat
    /\ length p = length buf
    /\ (forall i, i <> 25%nat -> nth_error p i = nth_error buf i)
    /\ (nth_error p 25 = nth_error buf 25
        \/ (nth_error buf 24 = Some 1 /\ nth_error buf 25 = Some 4
            /\ nth_error p 25 = Some 3))%Z
    /\ ~ (nth_error p 24 = Some 1 /\ nth_error p 25 = Some 4)%Z
    /\ check_header p = Ret p
    /\ loadPointCloud forward load buf = loadPointCloud forward load p.
Proof.
  intros buf p H.
  destruct (check_header_reads buf p H)
    as (major & minor & fmt & H24 & H25 & H104 & Hcase).
  assert (104 < length buf)%nat as Hlen by (apply nth_error_Some; congruence).
  assert (check_header p = Ret p) as Hidem.
  { destruct Hcase as [(-> & -> & Hf & ->)|(Hv & ->)].
    - apply (check_header_unchanged _ 1%Z 3%Z fmt).
      + now rewrite nth_error_store_other by lia.
      + apply nth_error_store_same. lia.
      + now rewrite nth_error_store_other by lia.
      + intros (_ & ?). discriminate.
    - now apply (check_header_unchanged _ major minor fmt). }
  split; [exact Hlen|].
  split; [destruct Hcase as [(_ & _ & _ & ->)|(_ & ->)];
          [apply length_store|reflexivity]|].
  split.
  { intros i Hi. destruct Hcase as [(_ & _ & _ & ->)|(_ & ->)]; [|reflexivity].
    apply nth_error_store_other. lia. }
  split.
  { destruct Hcase as [(-> & -> & _ & ->)|(_ & ->)]; [right|now left].
    split; [exact H24|]. split; [exact H25|]. apply nth_error_store_same. lia. }
  split.
  { destruct Hcase as [(_ & _ & _ & ->)|(Hv & ->)].
    - intros (_ & H3). rewrite nth_error_store_same in H3 by lia. discriminate.
    - intros (Ha & Hb). apply Hv. split; congruence. }
  split; [exact Hidem|].
  unfold loadPointCloud. now rewrite H, Hidem.
Qed.

(** X11. The header check throws a RangeError exactly on a buffer of at
    most 104 bytes, and an Error exactly on a version 1.4 header whose
    format byte, masked to its low six bits, exceeds 3; it throws nothing
    else.  What it throws is what loadPointCloud throws, whatever the
    decoder would have done. *)
Theorem header_check_failures :
  forall buf,
    (check_header buf = Throw RangeError <-> (length buf <= 104)%nat)
    /\ (check_header buf = Throw Error
        <-> exists fmt, nth_error buf 24 = Some 1 /\ nth_error buf 25 = Some 4
                        /\ nth_error buf 104 = Some fmt /\ 3 < Z.land fmt 63)%Z
    /\ check_header buf <> Throw TypeError
    /\ forall e, check_header buf = Throw e ->
         loadPointCloud forward load buf = Throw e.
Proof.
  intros buf.
  assert (forall e, check_header buf = Throw e ->
                    loadPointCloud forward load buf = Throw e) as Hthrow.
  { intros e He. unfold loadPointCloud. now rewrite He. }
  cut ((check_header buf = Throw RangeError <-> (length buf <= 104)%nat)
       /\ (check_header buf = Throw Error
           <-> exists fmt, nth_error buf 24 = Some 1 /\ nth_error buf 25 = Some 4
                           /\ nth_error buf 104 = Some fmt /\ 3 < Z.land fmt 63)%Z
       /\ check_header buf <> Throw TypeError).
  { intros (A & B & C). auto. }
  clear Hthrow. unfold check_header, getUint8.
  destruct (Nat.le_gt_cases (length buf) 104) as [Hshort|Hlong].
  - assert (nth_error buf 104 = None) as H104 by (apply nth_error_None; lia).
    rewrite H104.
    destruct (nth_error buf 24) as [major|]; cbn [bind];
      [destruct (nth_error buf 25) as [minor|]; cbn [bind]|].
    all: split; [split; [intros _; exact Hshort|reflexivity]|].
    all: split; [split; [discriminate|intros (fmt & ? & ? & ? & _); discriminate]|].
    all: discriminate.
  - destruct (nth_error buf 24) as [major|] eqn:H24;
      [|apply nth_error_None in H24; lia].
    destruct (nth_error buf 25) as [minor|] eqn:H25;
      [|apply nth_error_None in H25; lia].
    destruct (nth_error buf 104) as [fmt|] eqn:H104;
      [|apply nth_error_None in H104; lia].
    cbn [bind].
    destruct (Z.eqb_spec major 1) as [->|Hm]; destruct (Z.eqb_spec minor 4) as [->|Hn];
      cbn [andb].
    1: destruct (Z.ltb_spec 3 (Z.land fmt 63)) as [Hf|Hf].
    all: split; [split; [discriminate|lia]|].
    all: split; [|discriminate].
    + split; [intros _|reflexivity]. exists fmt. auto.
    + split; [discriminate|]. intros (f & _ & _ & E & ?). inversion E; subst. lia.
    + split; [discriminate|]. intros (f & _ & E & _). congruence.
    + split; [discriminate|]. intros (f & E & _). congruence.
    + split; [discriminate|]. intros (f & E & _). congruence.
Qed.

End Header.

Lemma header_check_hands_the_decoder_no_version_1_4_witness :
  (104 < length las14_header)%nat
  /\ length (store las14_header 25 3%Z) = length las14_header
  /\ (forall i, i <> 25%nat ->
        nth_error (store las14_header 25 3%Z) i = nth_error las14_header i)
  /\ (nth_error (store las14_header 25 3%Z) 25 = nth_error las14_header 25
      \/ (nth_error las14_header 24 = Some 1 /\ nth_error las14_header 25 = Some 4
          /\ nth_error (store las14_header 25 3%Z) 25 = Some 3))%Z
  /\ ~ (nth_error (store las14_header 25 3%Z) 24 = Some 1
        /\ nth_error (store las14_header 25 3%Z) 25 = Some 4)%Z
  /\ check_header (store las14_header 25 3%Z) = Ret (store las14_header 25 3%Z)
  /\ loadPointCloud forward_id (fun _ => Ret small_mesh) las14_header
     = loadPointCloud forward_id (fun _ => Ret small_mesh) (store las14_header 25 3%Z).
Proof.
  apply (header_check_hands_the_decoder_no_version_1_4 forward_id
           (fun _ => Ret small_mesh) las14_header (store las14_header 25 3%Z)).
  vm_compute. reflexivity.
Defined.

End HeaderFacts.

(** ** More on what build computes *)

Module SamplingFacts.

Import LoaderFacts BuildFacts PointCloudFacts.

Local Open Scope float_scope.

(** A loop returns when each of its iterations does. *)
Lemma for_loop_from_returns {St} n i (body : nat -> St -> result St) s :
  (forall k a, (i <= k < i + n)%nat -> exists b, body k a = Ret b) ->
  exists s', for_loop_from n i body s = Ret s'.
Proof.
  revert i s; induction n as [|n IH]; intros i s Hb; simpl.
  - now exists s.
  - destruct (Hb i s) as [b ->]; [lia|]. cbn [bind]. apply IH.
    intros k a Hk. apply Hb. lia.
Qed.

(** A loop throws what its first throwing iteration throws. *)
Lemma for_loop_from_throws {St} n i (body : nat -> St -> result St) s k e :
  (k < n)%nat ->
  (forall j a, (i <= j < i + k)%nat -> exists b, body j a = Ret b) ->
  (forall a, body (i + k)%nat a = Throw e) ->
  for_loop_from n i body s = Throw e.
Proof.
  revert i s k; induction n as [|n IH]; intros i s k Hk Hb He; [lia|]. simpl.
  destruct k as [|k].
  - rewrite Nat.add_0_r in He. now rewrite He.
  - destruct (Hb i s) as [b ->]; [lia|]. cbn [bind].
    apply (IH (S i) b k); [lia| |].
    + intros j a Hj. apply Hb. lia.
    + intros a. replace (S i + k)%nat with (i + S k)%nat by lia. apply He.
Qed.

(** The color loop: the three color channels of every point. *)
Lemma copy_colors_channels n step (c : Attribute Z) :
  let out := copy_colors n step (value c) (size c) (alloc 0%Z (n * 4)) in
  forall i k, (i < n)%nat -> (k < 3)%nat ->
    nth_error out (i * 4 + k) = Some (copied_channel c step i k).
Proof.
  set (P := fun (m : nat) (buf : list Z) =>
    length buf = (n * 4)%nat
    /\ (forall i k, (i < m)%nat -> (k < 3)%nat ->
          nth_error buf (i * 4 + k) = Some (copied_channel c step i k))
    /\ (forall j, (m * 4 <= j < n * 4)%nat -> nth_error buf j = Some 0%Z)).
  assert (P n (copy_colors n step (value c) (size c) (alloc 0%Z (n * 4)))) as H.
  { unfold copy_colors. apply for_loop_inv.
    - unfold P. split; [apply length_alloc|]. split; [intros; lia|].
      intros j Hj. apply nth_error_alloc. lia.
    - intros m buf Hm (Hlen & Hdone & Hzero). unfold P, copied_channel in *.
      destruct (3 <=? size c)%Z eqn:Es.
      + split; [now rewrite !length_store|]. split.
        * intros i k Hi Hk. destruct (Nat.eq_dec i m) as [->|Hne].
          -- destruct k as [|[|[|k]]]; [| | |lia].
             ++ rewrite !nth_error_store_other by lia.
                rewrite Nat.add_0_r, Z.add_0_r.
                apply nth_error_store_same. lia.
             ++ rewrite !nth_error_store_other by lia.
                apply nth_error_store_same. rewrite length_store. lia.
             ++ rewrite nth_error_store_other by lia.
                apply nth_error_store_same. rewrite !length_store. lia.
          -- rewrite !nth_error_store_other by lia. apply Hdone; lia.
        * intros j Hj. rewrite !nth_error_store_other by lia. apply Hzero. lia.
      + split; [now rewrite !length_store|]. split.
        * intros i k Hi Hk. rewrite nth_error_store_other by lia.
          destruct (Nat.eq_dec i m) as [->|Hne].
          -- apply Hzero. lia.
          -- apply Hdone; lia.
        * intros j Hj. rewrite nth_error_store_other by lia. apply Hzero. lia. }
  intros out i k Hi Hk. destruct H as (_ & Hdone & _). now apply Hdone.
Qed.

Lemma ltb_nn x y : (x <? y) = true -> nn x /\ nn y.
Proof. intros H. apply leb_nn. now apply ltb_leb. Qed.

Lemma floor_step m vs v :
  floor_of m vs -> floor_of (if v <? m then v else m) (vs ++ [v]).
Proof.
  intros (Hm & Hle). destruct (v <? m) eqn:E.
  - destruct (ltb_nn _ _ E) as [Hv _]. split; [exact Hv|].
    intros u Hu Hnum. apply in_app_or in Hu as [Hu|[<-|[]]].
    + eapply leb_trans; [apply ltb_leb; exact E|]. now apply Hle.
    + now apply leb_refl.
  - split; [exact Hm|].
    intros u Hu Hnum. apply in_app_or in Hu as [Hu|[<-|[]]].
    + now apply Hle.
    + apply ltb_false_leb; [now apply isNaN_nn|exact Hm|exact E].
Qed.

Lemma ceiling_step m vs v :
  ceiling_of m vs -> ceiling_of (if m <? v then v else m) (vs ++ [v]).
Proof.
  intros (Hm & Hle). destruct (m <? v) eqn:E.
  - destruct (ltb_nn _ _ E) as [_ Hv]. split; [exact Hv|].
    intros u Hu Hnum. apply in_app_or in Hu as [Hu|[<-|[]]].
    + eapply leb_trans; [now apply Hle|]. apply ltb_leb; exact E.
    + now apply leb_refl.
  - split; [exact Hm|].
    intros u Hu Hnum. apply in_app_or in Hu as [Hu|[<-|[]]].
    + now apply Hle.
    + apply ltb_false_leb; [exact Hm|now apply isNaN_nn|exact E].
Qed.

Lemma encloses_numbers_fold pts : forall b seen,
  encloses_numbers b seen ->
  encloses_numbers (fold_left track_point pts b) (seen ++ pts).
Proof.
  induction pts as [|[[lng lat] z] pts IH]; intros b seen Hb.
  - simpl. now rewrite app_nil_r.
  - change (seen ++ (lng, lat, z) :: pts) with (seen ++ [(lng, lat, z)] ++ pts).
    rewrite app_assoc. cbn [fold_left track_point].
    apply IH.
    destruct Hb as (H1 & H2 & H3 & H4 & H5 & H6).
    unfold encloses_numbers. rewrite !map_app. simpl.
    split; [|split; [|split; [|split; [|split]]]];
      first [now apply floor_step | now apply ceiling_step].
Qed.

Lemma encloses_numbers_initial : encloses_numbers initial_bounds [].
Proof.
  unfold encloses_numbers, floor_of, ceiling_of; simpl.
  repeat split; try apply nn_infinity; try apply nn_neg_infinity; contradiction.
Qed.

Section Sampled.

Variable forward : option number * option number -> result (number * number).

(** The reprojected points are the projections of the sampled indices. *)
Lemma reproject_from_nth step raw n : forall k ps,
  reproject_from forward step raw n k = Ret ps ->
  forall j, (j < n)%nat ->
    exists p, projected forward step raw (k + j) = Ret p /\ nth_error ps j = Some p.
Proof.
  induction n as [|n IH]; intros k ps Hr j Hj; [lia|]. simpl in Hr.
  destruct (projected forward step raw k) as [p|] eqn:Ek; [|discriminate].
  cbn [bind] in Hr.
  destruct (reproject_from forward step raw n (S k)) as [ps'|] eqn:Er; [|discriminate].
  cbn [bind] in Hr. inversion Hr; subst.
  destruct j as [|j].
  - rewrite Nat.add_0_r. eauto.
  - replace (k + S j)%nat with (S k + j)%nat by lia.
    apply (IH (S k) ps' Er j). lia.
Qed.

(** An iteration of the reprojection loop returns or throws with the
    projection of its point. *)
Lemma reproject_point_projected step raw rawI rawC i p :
  match projected forward step raw i with
  | Ret _ => exists q, reproject_point forward step raw rawI rawC i p = Ret q
  | Throw e => reproject_point forward step raw rawI rawC i p = Throw e
  end.
Proof.
  unfold projected, reproject_point.
  destruct (forward _) as [[lng lat]|e]; cbn [bind]; eauto.
Qed.

(** X12. The intensity and classification buffers of a loaded cloud are
    present exactly when the decoded mesh has the attribute, and hold for
    point [i] the source value at index [i * step]: the intensity divided
    by 65535 and rounded to a 32-bit float, the classification code as a
    byte. *)
Theorem loaded_attributes_are_the_sampled_source_values :
  forall mesh d,
    build forward mesh = Ret d ->
    let step := sample_step (vertexCount mesh) in
    match intensity_attr mesh with
    | Some a =>
        exists buf, intensities d = Some buf
          /\ forall i, (i < pointCount d)%nat ->
               read buf i
               = Some (Math_fround (num (readZ (value a) (Z.of_nat i * step)) / 65535))
    | None => intensities d = None
    end
    /\ match classification_attr mesh with
       | Some a =>
           exists buf, classifications d = Some buf
             /\ forall i, (i < pointCount d)%nat ->
                  read buf i = Some (byte (readZ (value a) (Z.of_nat i * step)))
       | None => classifications d = None
       end.
Proof.
  intros mesh d H step.
  apply build_ret in H as (position & pass & _ & _ & Hloop & ->).
  cbv zeta in Hloop. cbn [intensities classifications pointCount].
  pose proof (reproject_loop_attributes _ _ _ _ _ _ _ _ Hloop eq_refl eq_refl)
    as [HI HC].
  split.
  - destruct (intensity_attr mesh) as [a|]; cbn [option_map] in HI; [|exact HI].
    destruct HI as (buf & Hb & _ & Hcont). exists buf. split; [exact Hb|exact Hcont].
  - destruct (classification_attr mesh) as [a|]; cbn [option_map] in HC; [|exact HC].
    destruct HC as (buf & Hb & _ & Hcont). exists buf. split; [exact Hb|exact Hcont].
Qed.

(** X13. The colors buffer of a loaded cloud is present exactly when the
    decoded mesh has a color attribute.  With at least three channels per
    point, the three color bytes of point [i] are the source values at
    [i * step * size + k], reduced to a byte; with fewer channels they are
    left 0, so the point is black. *)
Theorem loaded_colors_are_the_sampled_source_channels :
  forall mesh d,
    build forward mesh = Ret d ->
    match COLOR_0 mesh with
    | Some c =>
        exists buf, colors d = Some buf
          /\ forall i k, (i < pointCount d)%nat -> (k < 3)%nat ->
               read buf (i * 4 + k)
               = Some (copied_channel c (sample_step (vertexCount mesh)) i k)
               /\ ((size c < 3)%Z -> read buf (i * 4 + k) = Some 0%Z)
    | None => colors d = None
    end.
Proof.
  intros mesh d H.
  apply build_ret in H as (position & pass & _ & _ & _ & ->).
  cbn [colors pointCount].
  destruct (COLOR_0 mesh) as [c|]; [|reflexivity].
  eexists. split; [reflexivity|]. intros i k Hi Hk.
  pose proof (copy_colors_channels (Z.to_nat (sample_count (vertexCount mesh)))
                (sample_step (vertexCount mesh)) c i k Hi Hk) as Hc.
  unfold read. split; [exact Hc|].
  intros Hs. rewrite Hc. unfold copied_channel.
  destruct (Z.leb_spec 3 (size c)); [lia|reflexivity].
Qed.

(** X14. The bounds of a loaded cloud never have a NaN face, and along
    each axis they contain every reprojected coordinate that is a number,
    also when other coordinates, of the same point or of other points, are
    NaN. *)
Theorem loaded_bounds_pass_over_NaN :
  forall mesh d,
    build forward mesh = Ret d ->
    exists pts,
      reprojected forward mesh = Ret pts
      /\ length pts = pointCount d
      /\ encloses_numbers (bounds d) pts.
Proof.
  intros mesh d H.
  destruct (build_points forward mesh d H)
    as (position & pts & buf & _ & Hpts & Hlen & _ & Hbox & _).
  exists pts. split; [exact Hpts|]. split; [exact Hlen|].
  rewrite Hbox.
  exact (encloses_numbers_fold pts initial_bounds [] encloses_numbers_initial).
Qed.

(** X15. On a mesh with positions and a vertex count that is not negative,
    build returns exactly when the projection of every sampled point
    returns; when the projection of a sampled point throws and those of the
    points before it returned, build throws that error. *)
Theorem build_stops_at_the_first_projection_error :
  forall mesh position,
    POSITION mesh = Some position ->
    (0 <= vertexCount mesh)%Z ->
    let step := sample_step (vertexCount mesh) in
    let n := Z.to_nat (sample_count (vertexCount mesh)) in
    ((exists d, build forward mesh = Ret d)
     <-> forall i, (i < n)%nat ->
           exists p, projected forward step (value position) i = Ret p)
    /\ forall k e,
         (k < n)%nat ->
         (forall i, (i < k)%nat ->
            exists p, projected forward step (value position) i = Ret p) ->
         projected forward step (value position) k = Throw e ->
         build forward mesh = Throw e.
Proof.
  intros mesh position Hp Hv step n.
  assert (0 <= sample_count (vertexCount mesh))%Z as Hc.
  { destruct (Z.eq_dec (vertexCount mesh) 0) as [E|E].
    - rewrite E. discriminate.
    - pose proof (sample_count_pos (vertexCount mesh)). lia. }
  split; [split|].
  - intros [d Hd] i Hi.
    destruct (build_points forward mesh d Hd)
      as (position' & pts & buf & Hp' & Hpts & Hlen & _).
    unfold reprojected in Hpts. rewrite Hp in Hpts.
    destruct (reproject_from_nth _ _ _ _ _ Hpts i Hi) as (p & Hproj & _).
    exists p. exact Hproj.
  - intros Hall. unfold build. rewrite Hp. unfold new_array.
    destruct (Z.ltb_spec (sample_count (vertexCount mesh) * 3) 0) as [Hneg|Hpos]; [lia|].
    cbn [bind].
    match goal with
    | |- context [for_loop_from ?m ?i ?body ?s] =>
        destruct (for_loop_from_returns m i body s) as [pass ->]
    end.
    + intros k a Hk.
      pose proof (reproject_point_projected (sample_step (vertexCount mesh))
                    (value position) (option_map value (intensity_attr mesh))
                    (option_map value (classification_attr mesh)) k a) as Hk'.
      destruct (Hall k) as [p Hproj]; [unfold n; lia|].
      fold step in Hk'. rewrite Hproj in Hk'. exact Hk'.
    + cbn [bind]. eauto.
  - intros k e Hk Hbefore Hthrow. unfold build. rewrite Hp. unfold new_array.
    destruct (Z.ltb_spec (sample_count (vertexCount mesh) * 3) 0) as [Hneg|Hpos]; [lia|].
    cbn [bind].
    match goal with
    | |- context [for_loop_from ?m ?i ?body ?s] =>
        rewrite (for_loop_from_throws m i body s k e)
    end.
    + reflexivity.
    + exact Hk.
    + intros j a Hj.
      pose proof (reproject_point_projected (sample_step (vertexCount mesh))
                    (value position) (option_map value (intensity_attr mesh))
                    (option_map value (classification_attr mesh)) j a) as Hj'.
      destruct (Hbefore j) as [p Hproj]; [lia|].
      fold step in Hj'. rewrite Hproj in Hj'. exact Hj'.
    + intros a.
      pose proof (reproject_point_projected (sample_step (vertexCount mesh))
                    (value position) (option_map value (intensity_attr mesh))
                    (option_map value (classification_attr mesh)) k a) as Hk'.
      fold step in Hk'. cbn [Nat.add]. rewrite Hthrow in Hk'. exact Hk'.
Qed.

End Sampled.

Lemma loaded_attributes_are_the_sampled_source_values_witness :
  let step := sample_step (vertexCount small_mesh) in
  match intensity_attr small_mesh with
  | Some a =>
      exists buf, intensities small_cloud = Some buf
        /\ forall i, (i < pointCount small_cloud)%nat ->
             read buf i
             = Some (Math_fround (num (readZ (value a) (Z.of_nat i * step)) / 65535))
  | None => intensities small_cloud = None
  end
  /\ match classification_attr small_mesh with
     | Some a =>
         exists buf, classifications small_cloud = Some buf
           /\ forall i, (i < pointCount small_cloud)%nat ->
                read buf i = Some (byte (readZ (value a) (Z.of_nat i * step)))
     | None => classifications small_cloud = None
     end.
Proof.
  apply (loaded_attributes_are_the_sampled_source_values forward_id small_mesh small_cloud).
  vm_compute. reflexivity.
Defined.

Lemma loaded_colors_are_the_sampled_source_channels_witness :
  match COLOR_0 small_mesh with
  | Some c =>
      exists buf, colors small_cloud = Some buf
        /\ forall i k, (i < pointCount small_cloud)%nat -> (k < 3)%nat ->
             read buf (i * 4 + k)
             = Some (copied_channel c (sample_step (vertexCount small_mesh)) i k)
             /\ ((size c < 3)%Z -> read buf (i * 4 + k) = Some 0%Z)
  | None => colors small_cloud = None
  end.
Proof.
  apply (loaded_colors_are_the_sampled_source_channels forward_id small_mesh small_cloud).
  vm_compute. reflexivity.
Defined.

Lemma loaded_bounds_pass_over_NaN_witness :
  exists pts,
    reprojected forward_id nan_mesh = Ret pts
    /\ length pts = pointCount (built nan_mesh)
    /\ encloses_numbers (bounds (built nan_mesh)) pts.
Proof.
  apply (loaded_bounds_pass_over_NaN forward_id nan_mesh (built nan_mesh)).
  vm_compute. reflexivity.
Defined.

Lemma build_stops_at_the_first_projection_error_witness :
  let step := sample_step (vertexCount small_mesh) in
  let n := Z.to_nat (sample_count (vertexCount small_mesh)) in
  ((exists d, build forward_west small_mesh = Ret d)
   <-> forall i, (i < n)%nat ->
         exists p, projected forward_west step [1; 2; 3; 4; 5; 6; 7; 8; 9] i = Ret p)
  /\ forall k e,
       (k < n)%nat ->
       (forall i, (i < k)%nat ->
          exists p, projected forward_west step [1; 2; 3; 4; 5; 6; 7; 8; 9] i = Ret p) ->
       projected forward_west step [1; 2; 3; 4; 5; 6; 7; 8; 9] k = Throw e ->
       build forward_west small_mesh = Throw e.
Proof.
  apply (build_stops_at_the_first_projection_error forward_west small_mesh
           {| value := [1; 2; 3; 4; 5; 6; 7; 8; 9]; size := 3 |}).
  - reflexivity.
  - simpl. lia.
Defined.

End SamplingFacts.

(** ** More on getProfile *)

Module CorridorFacts.

Import OrderFacts ProfileFacts.

Local Open Scope float_scope.

Lemma zero_leb_abs x : nn x -> (0 <=? Math_abs x) = true.
Proof.
  unfold nn, Math_abs. intros H. rewrite leb_spec, abs_spec.
  change (Prim2SF 0) with (S754_zero false).
  destruct (Prim2SF x); try reflexivity. congruence.
Qed.

Lemma abs_nn x : nn (Math_abs x) -> nn x.
Proof.
  unfold nn, Math_abs. rewrite abs_spec. destruct (Prim2SF x); simpl; congruence.
Qed.

Lemma equal_distances_are_not_below a b d :
  (a =? d) = true -> (b =? d) = true -> (b <? a) = false.
Proof.
  intros Ha Hb. apply Bool.not_true_iff_false. intros H.
  apply eqb_lex in Ha as (_ & _ & Ha). apply eqb_lex in Hb as (_ & _ & Hb).
  apply lex_Eq in Ha, Hb. apply ltb_lex in H as (_ & _ & H).
  rewrite Ha, Hb in H. rewrite lex_Lt in H. lia.
Qed.

(** Insertion puts an element before those already there at its distance. *)
Lemma sort_insert_at_distance d a l :
  filter (fun p => distance p =? d) (sort_insert compare_distance a l)
  = filter (fun p => distance p =? d) (a :: l).
Proof.
  induction l as [|b t IH]; [reflexivity|].
  cbn [sort_insert]. unfold compare_distance at 1. rewrite sub_pos_iff.
  destruct (distance b <? distance a) eqn:E; [|reflexivity].
  cbn [filter] in *. rewrite IH.
  destruct (distance a =? d) eqn:Ea; destruct (distance b =? d) eqn:Eb; try reflexivity.
  rewrite (equal_distances_are_not_below _ _ _ Ea Eb) in E. discriminate.
Qed.

Lemma Array_sort_at_distance d l :
  filter (fun p => distance p =? d) (Array_sort compare_distance l)
  = filter (fun p => distance p =? d) l.
Proof.
  induction l as [|a l IH]; [reflexivity|].
  cbn [Array_sort fold_right]. fold (Array_sort compare_distance l).
  rewrite sort_insert_at_distance. cbn [filter]. now rewrite IH.
Qed.

Section Profile.

Variable Math_cos : number -> number.

(** X16. The sort of getProfile is stable: the points of the result at any
    one distance are the points of the corridor at that distance in buffer
    order. *)
Theorem getProfile_keeps_buffer_order_at_equal_distances :
  forall data start end_ width d,
    filter (fun p => distance p =? d) (getProfile Math_cos data start end_ width)
    = filter (fun p => distance p =? d)
        (selected (corridor Math_cos data start end_) width data).
Proof.
  intros. rewrite getProfile_selected. apply Array_sort_at_distance.
Qed.

(** X17. A width whose half is negative or NaN selects no point: the
    profile is empty whatever the cloud and the line. *)
Theorem getProfile_of_a_negative_width_is_empty :
  forall data start end_ width,
    (0 <=? width / 2) = false ->
    getProfile Math_cos data start end_ width = [].
Proof.
  intros data start end_ width Hw. rewrite getProfile_selected.
  unfold selected.
  assert (filter (in_corridor (corridor Math_cos data start end_) width data)
            (seq 0 (pointCount data)) = []) as ->; [|reflexivity].
  induction (seq 0 (pointCount data)) as [|i l IH]; [reflexivity|].
  cbn [filter]. rewrite IH.
  assert (in_corridor (corridor Math_cos data start end_) width data i = false) as ->;
    [|reflexivity].
  unfold in_corridor.
  destruct (Math_abs (point_offset (corridor Math_cos data start end_) data i)
            <=? width / 2) eqn:E; [|apply andb_false_r].
  exfalso. rewrite <- Bool.not_true_iff_false in Hw. apply Hw.
  eapply leb_trans; [|exact E].
  apply zero_leb_abs. apply abs_nn. apply (leb_nn _ _ E).
Qed.

End Profile.

Lemma getProfile_of_a_negative_width_is_empty_witness :
  getProfile cos_equator bare_cloud (7, 0) (7.002, 0) (-1) = [].
Proof.
  apply (getProfile_of_a_negative_width_is_empty cos_equator bare_cloud
           (7, 0) (7.002, 0) (-1)).
  vm_compute. reflexivity.
Defined.

End CorridorFacts.

(** ** The progress reports of loadPointCloud *)

Module ProgressFacts.

Import OrderFacts LoaderFacts BuildFacts LoadFacts Reporting.

Local Open Scope float_scope.

Lemma ltb_trans x y z : (x <? y) = true -> (y <? z) = true -> (x <? z) = true.
Proof. intros H1 H2. eapply ltb_leb_trans; [exact H1|]. now apply ltb_leb. Qed.

(** *** The check on machine integers, and what it establishes *)

Lemma to_Z_add_small x (c : Z) y :
  Uint63.to_Z y = c -> (0 <= c)%Z -> (Uint63.to_Z x + c < Uint63.wB)%Z ->
  Uint63.to_Z (PrimInt63.add x y) = (Uint63.to_Z x + c)%Z.
Proof.
  intros Hy Hc Hb. rewrite Uint63.add_spec, Hy.
  apply Z.mod_small. pose proof (Uint63.to_Z_bounded x). lia.
Qed.

Lemma rising_spec fuel : forall n i prev,
  rising fuel n i prev = true ->
  (Uint63.to_Z i + 50000 * Z.of_nat fuel < Uint63.wB)%Z ->
  forall t, (t < fuel)%nat ->
    (Uint63.to_Z i + 50000 * Z.of_nat t < Uint63.to_Z n)%Z ->
    (report63 n (Uint63.of_Z (Uint63.to_Z i + 50000 * Z.of_nat t)) <? 0.9) = true
    /\ (match t with
        | O => prev
        | S t' => report63 n (Uint63.of_Z (Uint63.to_Z i + 50000 * Z.of_nat t'))
        end
        <? report63 n (Uint63.of_Z (Uint63.to_Z i + 50000 * Z.of_nat t))) = true.
Proof.
  induction fuel as [|fuel IH]; intros n i prev H Hb t Ht Hn; [lia|].
  cbn [rising] in H.
  assert (PrimInt63.ltb i n = true) as Hlt by (apply Uint63.ltb_spec; lia).
  rewrite Hlt in H.
  apply andb_prop in H as [H Hrest]. apply andb_prop in H as [Hprev Htop].
  assert (Uint63.to_Z (PrimInt63.add i chunk63) = (Uint63.to_Z i + 50000)%Z) as Hnext.
  { apply to_Z_add_small; [reflexivity|lia|lia]. }
  destruct t as [|t].
  - replace (Uint63.to_Z i + 50000 * Z.of_nat 0)%Z with (Uint63.to_Z i) by lia.
    rewrite Uint63.of_to_Z. auto.
  - destruct (IH n (PrimInt63.add i chunk63) (report63 n i) Hrest) with (t := t)
      as [Ha Hb']; try (rewrite Hnext; lia); [lia|].
    rewrite Hnext in Ha, Hb'.
    replace (Uint63.to_Z i + 50000 + 50000 * Z.of_nat t)%Z
      with (Uint63.to_Z i + 50000 * Z.of_nat (S t))%Z in Ha, Hb' by lia.
    split; [exact Ha|].
    destruct t as [|t'].
    + replace (Uint63.to_Z i + 50000 * Z.of_nat 0)%Z with (Uint63.to_Z i) by lia.
      rewrite Uint63.of_to_Z. exact Hb'.
    + replace (Uint63.to_Z i + 50000 + 50000 * Z.of_nat t')%Z
        with (Uint63.to_Z i + 50000 * Z.of_nat (S t'))%Z in Hb' by lia.
      exact Hb'.
Qed.

Lemma all_rising_spec fuel : forall n,
  all_rising fuel n = true ->
  (Uint63.to_Z n + Z.of_nat fuel < Uint63.wB)%Z ->
  forall x, (Uint63.to_Z n <= Uint63.to_Z x < Uint63.to_Z n + Z.of_nat fuel)%Z ->
    rising 10 x chunk63 0.5 = true.
Proof.
  induction fuel as [|fuel IH]; intros n H Hb x Hx; [lia|].
  cbn [all_rising] in H. apply andb_prop in H as [Hn Hrest].
  destruct (Z.eq_dec (Uint63.to_Z x) (Uint63.to_Z n)) as [E|E].
  - apply Uint63.to_Z_inj in E. now subst.
  - assert (Uint63.to_Z (PrimInt63.add n one63) = (Uint63.to_Z n + 1)%Z) as Hnext.
    { apply to_Z_add_small; [reflexivity|lia|lia]. }
    apply (IH _ Hrest); rewrite Hnext; lia.
Qed.

(** Every point count up to 500000 passes the check. *)
Lemma all_counts_rise : all_rising (Z.to_nat 500001) (Uint63.of_Z 0) = true.
Proof. vm_compute. reflexivity. Qed.

Lemma to_Z_of_Z_small z : (0 <= z < 1000000)%Z -> Uint63.to_Z (Uint63.of_Z z) = z.
Proof.
  intros H. rewrite Uint63.of_Z_spec. apply Z.mod_small.
  change Uint63.wB with 9223372036854775808%Z. lia.
Qed.

(** The reports at the multiples of the chunk size, for a point count up
    to 500000: each is above the one before it (0.5 before the first) and
    below 0.9. *)
Lemma reports_rise (N : Z) (m : nat) :
  (N <= 500000)%Z -> (50000 * Z.of_nat (S m) < N)%Z ->
  (report63 (Uint63.of_Z N) (Uint63.of_Z (50000 * Z.of_nat (S m))) <? 0.9) = true
  /\ (match m with
      | O => 0.5
      | S m' => report63 (Uint63.of_Z N) (Uint63.of_Z (50000 * Z.of_nat (S m')))
      end
      <? report63 (Uint63.of_Z N) (Uint63.of_Z (50000 * Z.of_nat (S m)))) = true.
Proof.
  intros HN Hm.
  assert (rising 10 (Uint63.of_Z N) chunk63 0.5 = true) as Hr.
  { apply (all_rising_spec (Z.to_nat 500001) (Uint63.of_Z 0) all_counts_rise).
    - change (Uint63.to_Z (Uint63.of_Z 0)) with 0%Z. rewrite Z2Nat.id by lia.
      change Uint63.wB with 9223372036854775808%Z. lia.
    - change (Uint63.to_Z (Uint63.of_Z 0)) with 0%Z. rewrite Z2Nat.id by lia.
      rewrite to_Z_of_Z_small by lia. lia. }
  assert (Uint63.to_Z chunk63 = 50000%Z) as Hc by reflexivity.
  destruct (rising_spec 10 (Uint63.of_Z N) chunk63 0.5 Hr) with (t := m) as [Ha Hb].
  - rewrite Hc. change Uint63.wB with 9223372036854775808%Z. lia.
  - lia.
  - rewrite Hc, to_Z_of_Z_small by lia. lia.
  - rewrite Hc in Ha, Hb.
    replace (50000 + 50000 * Z.of_nat m)%Z with (50000 * Z.of_nat (S m))%Z in Ha, Hb by lia.
    split; [exact Ha|].
    destruct m as [|m']; [exact Hb|].
    replace (50000 + 50000 * Z.of_nat m')%Z with (50000 * Z.of_nat (S m'))%Z in Hb by lia.
    exact Hb.
Qed.

Lemma of_Z_pos z : (0 < z)%Z -> of_Z z = of_uint63 (Uint63.of_Z z).
Proof. destruct z; intros H; try lia. reflexivity. Qed.

Lemma chunk_progress_report63 N i :
  (0 < N)%Z -> (0 < i)%nat ->
  chunk_progress N i = report63 (Uint63.of_Z N) (Uint63.of_Z (Z.of_nat i)).
Proof.
  intros HN Hi. unfold chunk_progress, report63.
  now rewrite !of_Z_pos by lia.
Qed.

Lemma at_chunk_multiple i :
  at_chunk i = true <-> exists m, Z.of_nat i = (50000 * Z.of_nat (S m))%Z.
Proof.
  unfold at_chunk, CHUNK_SIZE. rewrite andb_true_iff, Z.ltb_lt, Z.eqb_eq. split.
  - intros [Hpos Hmod].
    pose proof (Z.div_mod (Z.of_nat i) 50000 ltac:(lia)) as Hd. rewrite Hmod in Hd.
    exists (Z.to_nat (Z.of_nat i / 50000) - 1)%nat.
    assert (0 < Z.of_nat i / 50000)%Z by lia. lia.
  - intros [m Hm]. split; [lia|].
    rewrite Hm, Z.mul_comm. apply Z.mod_mul. lia.
Qed.

(** The report at a chunk boundary lies strictly between 0.5 and 0.9. *)
Lemma chunk_progress_between N : forall m i,
  (N <= 500000)%Z -> Z.of_nat i = (50000 * Z.of_nat (S m))%Z -> (Z.of_nat i < N)%Z ->
  (0.5 <? chunk_progress N i) = true /\ (chunk_progress N i <? 0.9) = true.
Proof.
  induction m as [|m IH]; intros i HN Hi Hlt.
  - rewrite chunk_progress_report63, Hi by lia.
    destruct (reports_rise N 0 HN) as [Ha Hb]; [lia|]. auto.
  - rewrite chunk_progress_report63, Hi by lia.
    destruct (reports_rise N (S m) HN) as [Ha Hb]; [lia|]. split; [|exact Ha].
    destruct (IH (Z.to_nat (50000 * Z.of_nat (S m))) HN) as [Hlow _]; [lia|lia|].
    rewrite chunk_progress_report63 in Hlow by lia.
    replace (Z.of_nat (Z.to_nat (50000 * Z.of_nat (S m))))
      with (50000 * Z.of_nat (S m))%Z in Hlow by lia.
    exact (ltb_trans _ _ _ Hlow Hb).
Qed.

(** The reports at two chunk boundaries are in the order of the
    boundaries. *)
Lemma chunk_progress_rises N i j :
  (N <= 500000)%Z -> (i < j)%nat -> (Z.of_nat j < N)%Z ->
  at_chunk i = true -> at_chunk j = true ->
  (chunk_progress N i <? chunk_progress N j) = true.
Proof.
  intros HN Hij Hj Hi Hj'.
  apply at_chunk_multiple in Hi as [a Ha]. apply at_chunk_multiple in Hj' as [b Hb].
  assert (a < b)%nat as Hab by lia.
  rewrite !chunk_progress_report63, Ha, Hb by lia.
  assert (forall d a, (50000 * Z.of_nat (S (a + 1 + d)) < N)%Z ->
            (report63 (Uint63.of_Z N) (Uint63.of_Z (50000 * Z.of_nat (S a)))
             <? report63 (Uint63.of_Z N) (Uint63.of_Z (50000 * Z.of_nat (S (a + 1 + d)))))
            = true) as Hchain.
  { clear - HN. induction d as [|d IH]; intros a Hlt.
    - destruct (reports_rise N (a + 1 + 0) HN Hlt) as [_ Hb].
      replace (a + 1 + 0)%nat with (S a) in * by lia. exact Hb.
    - destruct (reports_rise N (a + 1 + S d) HN Hlt) as [_ Hb].
      replace (a + 1 + S d)%nat with (S (a + 1 + d)) in * by lia.
      refine (ltb_trans _ _ _ (IH a _) Hb). lia. }
  replace b with (a + 1 + (b - a - 1))%nat by lia. apply Hchain. lia.
Qed.

(** *** The reports as a list *)

Lemma sorted_app {A} (R : A -> A -> Prop) l1 l2 :
  StronglySorted R l1 -> StronglySorted R l2 ->
  (forall a b, In a l1 -> In b l2 -> R a b) ->
  StronglySorted R (l1 ++ l2).
Proof.
  intros H1 H2 H. induction H1 as [|a l Hl IH Ha]; [exact H2|].
  cbn [app]. constructor.
  - apply IH. intros x y Hx Hy. apply H; [now right|exact Hy].
  - apply Forall_app. split; [exact Ha|].
    apply Forall_forall. intros y Hy. apply H; [now left|exact Hy].
Qed.

Lemma sorted_chunks N (R : number -> number -> Prop) i k :
  (forall a b, (i <= a < b)%nat -> (b < i + k)%nat ->
     at_chunk a = true -> at_chunk b = true ->
     R (chunk_progress N a) (chunk_progress N b)) ->
  StronglySorted R (map (chunk_progress N) (filter at_chunk (seq i k))).
Proof.
  revert i; induction k as [|k IH]; intros i H; [constructor|].
  cbn [seq filter]. destruct (at_chunk i) eqn:Ei.
  - cbn [map]. constructor.
    + apply IH. intros a b Hab Hb. apply H; lia.
    + apply Forall_forall. intros y Hy.
      apply in_map_iff in Hy as (b & <- & Hb). apply filter_In in Hb as [Hb Hc].
      apply in_seq in Hb. apply H; try assumption; lia.
  - apply IH. intros a b Hab Hb. apply H; lia.
Qed.

(** The loop: its reports are those of the chunk boundaries it passed,
    its result is that of the loop without reports, and it passed them all
    when it returned. *)
Lemma loop_reporting_spec {St} (body : nat -> St -> result St) N : forall n i reports s,
  exists k, (k <= n)%nat
    /\ fst (loop_reporting n i body N reports s)
       = reports ++ map (chunk_progress N) (filter at_chunk (seq i k))
    /\ snd (loop_reporting n i body N reports s) = for_loop_from n i body s
    /\ ((exists s', for_loop_from n i body s = Ret s') -> k = n).
Proof.
  induction n as [|n IH]; intros i reports s.
  - exists O. cbn. rewrite app_nil_r. auto.
  - cbn [loop_reporting for_loop_from]. destruct (body i s) as [s'|e]; cbn [bind].
    + destruct (IH (S i)
                  (if at_chunk i then reports ++ [chunk_progress N i] else reports) s')
        as (k & Hk & Hf & Hs & Hall).
      exists (S k). split; [lia|]. rewrite Hf, Hs. split; [|split; [reflexivity|]].
      * cbn [seq filter]. destruct (at_chunk i); [|reflexivity].
        cbn [map]. now rewrite <- app_assoc.
      * intros Hret. now rewrite (Hall Hret).
    + exists O. cbn. rewrite app_nil_r.
      split; [lia|]. split; [reflexivity|]. split; [reflexivity|].
      intros [s' Hs']. discriminate.
Qed.

Lemma chunks_are_few k :
  (Z.of_nat k <= 500000)%Z -> (length (filter at_chunk (seq 0 k)) <= 9)%nat.
Proof.
  intros Hk.
  change 9%nat with (length (map (fun m => Z.to_nat (50000 * Z.of_nat (S m))) (seq 0 9))).
  apply NoDup_incl_length.
  - apply NoDup_filter, seq_NoDup.
  - intros i Hi. apply filter_In in Hi as [Hi Hc]. apply in_seq in Hi.
    apply at_chunk_multiple in Hc as [m Hm].
    apply in_map_iff. exists m. split; [lia|]. apply in_seq. lia.
Qed.

Section Reported.

Variable forward : option number * option number -> result (number * number).
Variable load : list Z -> result LASMesh.

(** With its reports or without, loadPointCloud returns or throws the
    same; the reports begin with 0.05, and end with 1 when it returns. *)
Lemma loadPointCloud_reporting_outcome arrayBuffer :
  snd (loadPointCloud_reporting forward load arrayBuffer)
  = loadPointCloud forward load arrayBuffer
  /\ hd_error (fst (loadPointCloud_reporting forward load arrayBuffer)) = Some 0.05
  /\ ((exists d, loadPointCloud forward load arrayBuffer = Ret d) ->
      last (fst (loadPointCloud_reporting forward load arrayBuffer)) 0 = 1).
Proof.
  unfold loadPointCloud_reporting, loadPointCloud.
  destruct (check_header arrayBuffer) as [patched|e]; cbn [bind].
  2:{ cbn. split; [reflexivity|]. split; [reflexivity|]. intros [d H]. discriminate. }
  destruct (load patched) as [mesh|e].
  2:{ cbn. split; [reflexivity|]. split; [reflexivity|]. intros [d H]. discriminate. }
  cbn [bind]. unfold build.
  destruct (POSITION mesh) as [position|].
  2:{ cbn. split; [reflexivity|]. split; [reflexivity|]. intros [d H]. discriminate. }
  unfold new_array.
  destruct (Z.ltb_spec (sample_count (vertexCount mesh) * 3) 0) as [Hneg|Hpos].
  { cbn. split; [reflexivity|]. split; [reflexivity|]. intros [d H]. discriminate. }
  cbn [bind].
  match goal with
  | |- context [loop_reporting ?n ?i ?body ?N ?r ?s] =>
      destruct (loop_reporting_spec body N n i r s) as (k & Hk & Hf & Hs & Hall);
      destruct (loop_reporting n i body N r s) as [reports [pass|e]];
      cbn [fst snd] in Hf, Hs; rewrite <- Hs; cbn [bind fst snd]
  end.
  - split; [reflexivity|]. subst reports. split; [reflexivity|]. intros _.
    change [0.9; 1] with ([0.9] ++ [1]). rewrite app_assoc. apply last_last.
  - split; [reflexivity|]. subst reports. split; [reflexivity|].
    intros [d H]. discriminate.
Qed.

(** X25. The progress reports of loadPointCloud.  With its reports or
    without, it returns or throws the same.  The reports begin with 0.05
    and are strictly increasing; there are at most 14 of them; and the
    last one is 1 exactly when a PointCloudData is returned. *)
Theorem progress_rises_and_ends_at_one_exactly_on_success :
  forall arrayBuffer,
    let reports := fst (loadPointCloud_reporting forward load arrayBuffer) in
    let outcome := snd (loadPointCloud_reporting forward load arrayBuffer) in
    outcome = loadPointCloud forward load arrayBuffer
    /\ hd_error reports = Some 0.05
    /\ StronglySorted (fun a b => (a <? b) = true) reports
    /\ (length reports <= 14)%nat
    /\ ((exists d, outcome = Ret d) <-> last reports 0 = 1).
Proof.
  intros arrayBuffer reports outcome. unfold reports, outcome; clear reports outcome.
  unfold loadPointCloud_reporting, loadPointCloud.
  destruct (check_header arrayBuffer) as [patched|e]; cbn [bind].
  2:{ cbn. split; [reflexivity|]. split; [reflexivity|].
      split; [repeat constructor|]. split; [lia|].
      split; [intros [d H]; discriminate|intros H; vm_compute in H; discriminate]. }
  destruct (load patched) as [mesh|e].
  2:{ cbn. split; [reflexivity|]. split; [reflexivity|].
      split; [repeat constructor|]. split; [lia|].
      split; [intros [d H]; discriminate|intros H; vm_compute in H; discriminate]. }
  cbn [bind]. unfold build.
  destruct (POSITION mesh) as [position|].
  2:{ cbn. split; [reflexivity|]. split; [reflexivity|].
      split; [repeat constructor|]. split; [lia|].
      split; [intros [d H]; discriminate|intros H; vm_compute in H; discriminate]. }
  unfold new_array.
  destruct (Z.ltb_spec (sample_count (vertexCount mesh) * 3) 0) as [Hneg|Hpos].
  { cbn. split; [reflexivity|]. split; [reflexivity|].
    split; [repeat constructor|]. split; [lia|].
    split; [intros [d H]; discriminate|intros H; vm_compute in H; discriminate]. }
  cbn [bind].
  set (N := sample_count (vertexCount mesh)).
  assert (N <= 500000)%Z as HN by apply sample_count_le_MAX.
  match goal with
  | |- context [loop_reporting ?n ?i ?body N ?r ?s] =>
      destruct (loop_reporting_spec body N n i r s) as (k & Hk & Hf & Hs & Hall);
      destruct (loop_reporting n i body N r s) as [reports [pass|e]];
      cbn [fst snd] in Hf, Hs; rewrite <- Hs; cbn [bind fst snd]
  end.
  - (* the loop returned *)
    assert (k = Z.to_nat N) as -> by (apply Hall; rewrite <- Hs; eauto).
    subst reports.
    assert (forall c, In c (map (chunk_progress N) (filter at_chunk (seq 0 (Z.to_nat N)))) ->
              (0.5 <? c) = true /\ (c <? 0.9) = true) as Hbetween.
    { intros c Hc. apply in_map_iff in Hc as (i & <- & Hi).
      apply filter_In in Hi as [Hi Hc]. apply in_seq in Hi.
      destruct (proj1 (at_chunk_multiple i) Hc) as [m Hm].
      apply (chunk_progress_between N m i HN Hm). lia. }
    split; [reflexivity|]. split; [reflexivity|]. split; [|split].
    + rewrite <- app_assoc. apply sorted_app.
      * repeat constructor.
      * apply sorted_app.
        -- apply sorted_chunks. intros a b Hab Hb Ha Hb'.
           apply chunk_progress_rises; try assumption; lia.
        -- repeat constructor.
        -- intros a b Ha [<-|[<-|[]]].
           ++ now apply Hbetween.
           ++ refine (ltb_trans _ _ _ (proj2 (Hbetween a Ha)) _). reflexivity.
      * intros a b Ha Hb.
        assert ((a <=? 0.5) = true) as Ha5.
        { destruct Ha as [<-|[<-|[<-|[]]]]; reflexivity. }
        apply in_app_or in Hb as [Hb|[<-|[<-|[]]]].
        -- eapply leb_ltb_trans; [exact Ha5|]. now apply Hbetween.
        -- eapply leb_ltb_trans; [exact Ha5|]. reflexivity.
        -- eapply leb_ltb_trans; [exact Ha5|]. reflexivity.
    + rewrite !length_app, length_map. cbn [length].
      pose proof (chunks_are_few (Z.to_nat N) ltac:(lia)). lia.
    + split; [intros _|eauto].
      change [0.9; 1] with ([0.9] ++ [1]). rewrite app_assoc. apply last_last.
  - (* the loop threw *)
    subst reports.
    assert (forall c, In c (map (chunk_progress N) (filter at_chunk (seq 0 k))) ->
              (0.5 <? c) = true /\ (c <? 0.9) = true) as Hbetween.
    { intros c Hc. apply in_map_iff in Hc as (i & <- & Hi).
      apply filter_In in Hi as [Hi Hc]. apply in_seq in Hi.
      destruct (proj1 (at_chunk_multiple i) Hc) as [m Hm].
      apply (chunk_progress_between N m i HN Hm). lia. }
    split; [reflexivity|]. split; [reflexivity|]. split; [|split].
    + apply sorted_app.
      * repeat constructor.
      * apply sorted_chunks. intros a b Hab Hb Ha Hb'.
        apply chunk_progress_rises; try assumption; lia.
      * intros a b Ha Hb.
        assert ((a <=? 0.5) = true) as Ha5.
        { destruct Ha as [<-|[<-|[<-|[]]]]; reflexivity. }
        eapply leb_ltb_trans; [exact Ha5|]. now apply Hbetween.
    + rewrite !length_app, length_map. cbn [length].
      pose proof (chunks_are_few k ltac:(lia)). lia.
    + split; [intros [d H]; discriminate|]. intros Hlast. exfalso.
      destruct (map (chunk_progress N) (filter at_chunk (seq 0 k))) as [|c cs] eqn:Ec
        using rev_ind.
      * vm_compute in Hlast. discriminate.
      * rewrite app_assoc, last_last in Hlast.
        destruct (Hbetween c) as [_ Hc]; [apply in_or_app; right; now left|].
        rewrite Hlast in Hc. vm_compute in Hc. discriminate.
Qed.

End Reported.

End ProgressFacts.

(** ** App.tsx: layers and cross-section tool *)

Module AppFacts.

Import LoaderFacts BuildFacts LoadFacts PointCloudFacts ProgressFacts App.

Local Open Scope float_scope.

(** A property of the initial state that every handler preserves holds
    after every sequence of events. *)
Lemma fold_left_invariant {St E} (P : St -> Prop) (f : St -> E -> St) events :
  forall st, P st -> (forall st e, P st -> P (f st e)) -> P (fold_left f events st).
Proof.
  induction events as [|e events IH]; intros st H0 Hstep; simpl; auto.
Qed.

Lemma sum_from {A} (g : A -> nat) (l : list A) : forall a,
  fold_left (fun sum x => (sum + g x)%nat) l a
  = (a + fold_left (fun sum x => (sum + g x)%nat) l 0)%nat.
Proof.
  induction l as [|x l IH]; intros a; simpl; [lia|].
  rewrite IH, (IH (g x)). lia.
Qed.

Lemma totalPoints_cons layer ls :
  totalPoints (layer :: ls)
  = (match pointCloud layer with Some cloud => pointCount cloud | None => 0 end
     + totalPoints ls)%nat.
Proof.
  unfold totalPoints. cbn [fold_left]. now rewrite sum_from.
Qed.

Lemma totalPoints_app ls ls' :
  totalPoints (ls ++ ls') = (totalPoints ls + totalPoints ls')%nat.
Proof.
  induction ls as [|layer ls IH]; [reflexivity|].
  cbn [app]. rewrite !totalPoints_cons, IH. lia.
Qed.

Section Handlers.

Variable Math_cos : number -> number.
Variable forward : option number * option number -> result (number * number).
Variable load : list Z -> result LASMesh.
Variable fetch_bytes : Source -> result (list Z).

Lemma load_source_capped source data :
  load_source forward load fetch_bytes source = Ret data ->
  (Z.of_nat (pointCount data) <= 500000)%Z.
Proof.
  unfold load_source. intros H.
  destruct (fetch_bytes source) as [buf|]; [|discriminate]. cbn [bind] in H.
  apply loadPointCloud_ret in H as (patched & mesh & _ & _ & Hb).
  destruct (build_points forward mesh data Hb) as (_ & _ & _ & _ & _ & _ & Hn & _).
  pose proof (sample_count_le_MAX (vertexCount mesh)) as Hmax.
  unfold MAX_POINTS in Hmax. lia.
Qed.

Lemma load_source_reporting_outcome source :
  snd (load_source_reporting forward load fetch_bytes source)
  = load_source forward load fetch_bytes source
  /\ hd_error (fst (load_source_reporting forward load fetch_bytes source)) = Some 0.05
  /\ ((exists data, load_source forward load fetch_bytes source = Ret data) ->
      last (fst (load_source_reporting forward load fetch_bytes source)) 0 = 1).
Proof.
  unfold load_source_reporting, load_source.
  destruct (fetch_bytes source) as [arrayBuffer|e]; cbn [bind].
  - apply loadPointCloud_reporting_outcome.
  - cbn. split; [reflexivity|]. split; [reflexivity|]. intros [d H]. discriminate.
Qed.

(** What a load does to the state when none is in progress. *)
Lemma loadLayer_settles source name uuid st :
  loading st = false ->
  let reports := fst (load_source_reporting forward load fetch_bytes source) in
  (exists data,
     load_source forward load fetch_bytes source = Ret data
     /\ loadLayer forward load fetch_bytes source name uuid st
        = {| layers :=
               layers st
               ++ [{| id := uuid; name := name;
                      source := match source with
                                | from_url _ => remote
                                | from_file _ => local
                                end;
                      url := match source with
                             | from_url u => Some u
                             | from_file _ => None
                             end;
                      pointCloud := Some data; visible := true;
                      opacity := 1; zOffset := 0 |}];
             crossSection := crossSection st;
             profileData := profileData st;
             loading := false;
             progress := last reports 0 |})
  \/ ((exists e, load_source forward load fetch_bytes source = Throw e)
      /\ loadLayer forward load fetch_bytes source name uuid st
         = {| layers := layers st;
              crossSection := crossSection st;
              profileData := profileData st;
              loading := false;
              progress := last reports 0 |}).
Proof.
  intros Hl reports. unfold reports, loadLayer. rewrite Hl.
  destruct (load_source_reporting_outcome source) as (Ho & _).
  destruct (load_source_reporting forward load fetch_bytes source) as [rs outcome].
  cbn [fst snd] in *. rewrite <- Ho.
  destruct outcome as [data|e]; [left|right]; eauto.
Qed.

(** X18. In every state the events can lead to, a profile is held only
    while the cross-section is complete, and a complete cross-section has
    width 5: starting or clearing the tool empties the profile, and only
    the second click on the map fills it. *)
Theorem profile_is_held_only_for_a_complete_section :
  forall events,
    let st := run Math_cos forward load fetch_bytes events in
    (profileData st <> [] -> exists start end_, crossSection st = complete start end_ 5)
    /\ (forall start end_ width, crossSection st = complete start end_ width -> width = 5)
    /\ (crossSection st = idle \/ crossSection st = check_start
        \/ (exists start, crossSection st = check_end start) ->
        profileData st = []).
Proof.
  intros events st. unfold st, run.
  apply (fold_left_invariant (fun st =>
    (profileData st <> [] -> exists start end_, crossSection st = complete start end_ 5)
    /\ (forall start end_ width, crossSection st = complete start end_ width -> width = 5)
    /\ (crossSection st = idle \/ crossSection st = check_start
        \/ (exists start, crossSection st = check_end start) ->
        profileData st = []))).
  - cbn. split; [congruence|]. split; [discriminate|reflexivity].
  - clear. intros st e (Hp & Hw & Hclear).
    destruct e; cbn [handle].
    + destruct (loading st) eqn:Hl; [unfold loadLayer; rewrite Hl; auto|].
      destruct (loadLayer_settles source0 name0 uuid st Hl)
        as [(data & _ & ->)|(_ & ->)]; cbn; auto.
    + cbn. auto.
    + cbn. auto.
    + cbn. auto.
    + cbn. auto.
    + cbn. split; [congruence|]. split; [discriminate|reflexivity].
    + cbn. split; [congruence|]. split; [discriminate|reflexivity].
    + unfold handleMapClick.
      destruct (crossSection st) as [| |start|start end_ width] eqn:Ec.
      * rewrite Ec. auto.
      * assert (profileData st = []) as Hnil by (apply Hclear; auto).
        cbn [crossSection profileData]. rewrite Hnil.
        split; [congruence|]. split; [intros s e w E; discriminate E|reflexivity].
      * cbn [crossSection profileData]. split; [eauto|]. split.
        -- intros s e w E. now inversion E.
        -- intros [E|[E|[s E]]]; discriminate.
      * rewrite Ec. auto.
Qed.

(** Every layer of a state the events lead to holds a cloud that a load
    returned, with whatever holds of all such clouds. *)
Lemma reachable_layers_hold_loaded_clouds (P : PointCloudData -> Prop) :
  (forall source data,
     load_source forward load fetch_bytes source = Ret data -> P data) ->
  forall events,
    Forall (fun layer => exists cloud, pointCloud layer = Some cloud /\ P cloud)
      (layers (run Math_cos forward load fetch_bytes events)).
Proof.
  intros HP events. unfold run.
  apply (fold_left_invariant (fun st =>
    Forall (fun layer => exists cloud, pointCloud layer = Some cloud /\ P cloud)
      (layers st))).
  - constructor.
  - clear events. intros st e H.
    assert (forall i u, new_pointCloud u = None ->
              Forall (fun layer => exists cloud, pointCloud layer = Some cloud /\ P cloud)
                (layers (handleLayerUpdate i u st))) as Hupd.
    { intros i u Hu. cbn [handleLayerUpdate layers].
      induction H as [|layer ls Hl Hls IH]; cbn [map]; constructor; [|exact IH].
      destruct (String.eqb (id layer) i); [|exact Hl].
      cbn [spread pointCloud]. rewrite Hu. exact Hl. }
    destruct e; cbn [handle]; try (apply Hupd; reflexivity).
    + destruct (loading st) eqn:Hl; [unfold loadLayer; rewrite Hl; exact H|].
      destruct (loadLayer_settles source0 name0 uuid st Hl)
        as [(data & El & ->)|(_ & ->)]; cbn [layers]; [|exact H].
      apply Forall_app. split; [exact H|]. constructor; [|constructor].
      exists data. split; [reflexivity|]. exact (HP _ _ El).
    + cbn [handleLayerRemove layers]. apply Forall_forall.
      intros layer Hin. apply filter_In in Hin as [Hin _].
      rewrite Forall_forall in H. now apply H.
    + exact H.
    + exact H.
    + unfold handleMapClick. destruct (crossSection st); exact H.
Qed.

(** X19. In every state the events can lead to, each layer holds a point
    cloud of at most 500000 points, so the total shown in the sidebar is at
    most 500000 per layer. *)
Theorem every_layer_holds_a_capped_cloud :
  forall events,
    let st := run Math_cos forward load fetch_bytes events in
    Forall (fun layer => exists cloud, pointCloud layer = Some cloud
                                       /\ (Z.of_nat (pointCount cloud) <= 500000)%Z)
      (layers st)
    /\ (Z.of_nat (totalPoints (layers st)) <= 500000 * Z.of_nat (length (layers st)))%Z.
Proof.
  intros events st.
  pose proof (reachable_layers_hold_loaded_clouds
                (fun cloud => (Z.of_nat (pointCount cloud) <= 500000)%Z)
                load_source_capped events) as H.
  fold st in H. split; [exact H|].
  induction H as [|layer ls (cloud & Hc & Hn) Hls IH]; [cbn; lia|].
  rewrite totalPoints_cons, Hc. cbn [length]. lia.
Qed.

(** X20. After the tool is started, two clicks on the map complete the
    section between them with width 5 and leave the layers as they were.
    The profile is that of the first layer that is visible and holds a
    cloud, the hidden and empty layers before it being passed over, and it
    is empty when there is no such layer; a further click changes
    nothing. *)
Theorem two_clicks_profile_the_first_visible_cloud :
  forall st a b,
    let st' := handleMapClick Math_cos b
                 (handleMapClick Math_cos a (handleStartProfile st)) in
    crossSection st' = complete a b 5
    /\ layers st' = layers st
    /\ (forall c, handleMapClick Math_cos c st' = st')
    /\ (forall before layer cloud after,
          layers st = before ++ layer :: after ->
          Forall (fun l => visible l = false \/ pointCloud l = None) before ->
          visible layer = true -> pointCloud layer = Some cloud ->
          profileData st' = getProfile Math_cos cloud a b 5)
    /\ (Forall (fun l => visible l = false \/ pointCloud l = None) (layers st) ->
        profileData st' = []).
Proof.
  intros st a b st'. unfold st', handleMapClick, handleStartProfile.
  cbn [crossSection layers profileData loading].
  split; [reflexivity|]. split; [reflexivity|]. split; [reflexivity|]. split.
  - intros before layer cloud after Hl Hb Hv Hc. rewrite Hl.
    assert (contentLayer (before ++ layer :: after) = Some layer) as ->.
    { unfold contentLayer. clear Hl.
      induction Hb as [|l ls Hhid _ IH]; cbn [app find].
      - now rewrite Hv, Hc.
      - destruct Hhid as [-> | ->]; [exact IH|].
        rewrite andb_false_r. exact IH. }
    now rewrite Hc.
  - intros Hnone.
    assert (contentLayer (layers st) = None) as ->; [|reflexivity].
    unfold contentLayer.
    induction Hnone as [|l ls Hhid _ IH]; cbn [find]; [reflexivity|].
    destruct Hhid as [-> | ->]; [exact IH|].
    rewrite andb_false_r. exact IH.
Qed.

(** X21. Removing the layer a load has just added undoes the load but for
    the progress: when no load is in progress and the new identifier is
    not in use, loading a source and removing the layer of that identifier
    gives back the layers, the cross-section, the profile and the loading
    flag, whether the load succeeded or failed, and leaves in [progress]
    the last report of the load: 1 after a success, 0.05 when the source
    could not be fetched. *)
Theorem removing_a_loaded_layer_restores_all_but_the_progress :
  forall st source name uuid,
    loading st = false ->
    Forall (fun layer => id layer <> uuid) (layers st) ->
    let st' :=
      handleLayerRemove uuid (loadLayer forward load fetch_bytes source name uuid st) in
    st' = {| layers := layers st;
             crossSection := crossSection st;
             profileData := profileData st;
             loading := loading st;
             progress :=
               last (fst (load_source_reporting forward load fetch_bytes source)) 0 |}
    /\ ((exists data, load_source forward load fetch_bytes source = Ret data) ->
        progress st' = 1)
    /\ (forall e, fetch_bytes source = Throw e -> progress st' = 0.05).
Proof.
  intros st source name uuid Hl Hfresh st'.
  assert (filter (fun layer => negb (String.eqb (id layer) uuid)) (layers st) = layers st)
    as Hkeep.
  { induction Hfresh as [|layer ls' Hne _ IH]; [reflexivity|].
    cbn [filter]. destruct (String.eqb_spec (id layer) uuid) as [E|_]; [contradiction|].
    cbn [negb]. now rewrite IH. }
  assert (st' = {| layers := layers st;
                   crossSection := crossSection st;
                   profileData := profileData st;
                   loading := loading st;
                   progress :=
                     last (fst (load_source_reporting forward load fetch_bytes source))
                       0 |}) as Hst.
  { unfold st', handleLayerRemove.
    destruct (loadLayer_settles source name uuid st Hl) as [(data & _ & ->)|(_ & ->)];
      cbn [layers crossSection profileData loading progress]; rewrite Hl.
    - rewrite filter_app, Hkeep. cbn [filter id]. rewrite String.eqb_refl.
      cbn [negb]. now rewrite app_nil_r.
    - now rewrite Hkeep. }
  split; [exact Hst|]. rewrite Hst. cbn [progress]. split.
  - apply load_source_reporting_outcome.
  - intros e He. unfold load_source_reporting. rewrite He. reflexivity.
Qed.

(** X22. An update that carries neither an identifier nor a point cloud
    (as those of the layer list: visibility, opacity, offset) keeps the
    layers' number, identifiers, order and clouds, hence the total point
    count, and changes no layer of another identifier; and removing the
    updated layer gives what removing it before the update gives. *)
Theorem an_update_keeps_identifiers_and_clouds :
  forall st layerId updates,
    new_id updates = None ->
    new_pointCloud updates = None ->
    let st' := handleLayerUpdate layerId updates st in
    map id (layers st') = map id (layers st)
    /\ map pointCloud (layers st') = map pointCloud (layers st)
    /\ totalPoints (layers st') = totalPoints (layers st)
    /\ filter (fun layer => negb (String.eqb (id layer) layerId)) (layers st')
       = filter (fun layer => negb (String.eqb (id layer) layerId)) (layers st)
    /\ handleLayerRemove layerId st' = handleLayerRemove layerId st.
Proof.
  intros st layerId updates Hid Hpc st'. unfold st', handleLayerUpdate.
  cbn [layers].
  assert (forall layer, id (if String.eqb (id layer) layerId then spread layer updates
                            else layer) = id layer) as Hi.
  { intros layer. destruct (String.eqb (id layer) layerId); [|reflexivity].
    cbn. now rewrite Hid. }
  assert (forall layer, pointCloud (if String.eqb (id layer) layerId
                                    then spread layer updates else layer)
                        = pointCloud layer) as Hp.
  { intros layer. destruct (String.eqb (id layer) layerId); [|reflexivity].
    cbn. now rewrite Hpc. }
  assert (filter (fun layer => negb (String.eqb (id layer) layerId))
            (map (fun layer => if String.eqb (id layer) layerId
                               then spread layer updates else layer) (layers st))
          = filter (fun layer => negb (String.eqb (id layer) layerId)) (layers st)) as Hf.
  { induction (layers st) as [|layer ls IH]; [reflexivity|].
    cbn [map filter]. rewrite Hi, IH.
    destruct (String.eqb (id layer) layerId); reflexivity. }
  split; [|split; [|split; [|split]]].
  - rewrite map_map. apply map_ext. exact Hi.
  - rewrite map_map. apply map_ext. exact Hp.
  - clear Hf. induction (layers st) as [|layer ls IH]; [reflexivity|].
    cbn [map]. rewrite !totalPoints_cons, Hp, IH. reflexivity.
  - exact Hf.
  - unfold handleLayerRemove. cbn [layers crossSection profileData loading].
    now rewrite Hf.
Qed.

End Handlers.

Lemma removing_a_loaded_layer_restores_all_but_the_progress_witness :
  let st' :=
    handleLayerRemove AppExamples.first_uuid
      (loadLayer forward_id AppExamples.load_small AppExamples.fetch_tile
         (from_url AppExamples.tile_url) AppExamples.tile_name AppExamples.first_uuid
         initial) in
  st' = {| layers := layers initial;
           crossSection := crossSection initial;
           profileData := profileData initial;
           loading := loading initial;
           progress :=
             last (fst (load_source_reporting forward_id AppExamples.load_small
                          AppExamples.fetch_tile (from_url AppExamples.tile_url))) 0 |}
  /\ ((exists data,
         load_source forward_id AppExamples.load_small AppExamples.fetch_tile
           (from_url AppExamples.tile_url) = Ret data) ->
      progress st' = 1)
  /\ (forall e, AppExamples.fetch_tile (from_url AppExamples.tile_url) = Throw e ->
      progress st' = 0.05).
Proof.
  apply (removing_a_loaded_layer_restores_all_but_the_progress forward_id
           AppExamples.load_small AppExamples.fetch_tile initial).
  - reflexivity.
  - constructor.
Defined.

Lemma an_update_keeps_identifiers_and_clouds_witness :
  let st' := handleLayerUpdate AppExamples.first_uuid AppExamples.hide AppExamples.one_layer in
  map id (layers st') = map id (layers AppExamples.one_layer)
  /\ map pointCloud (layers st') = map pointCloud (layers AppExamples.one_layer)
  /\ totalPoints (layers st') = totalPoints (layers AppExamples.one_layer)
  /\ filter (fun layer => negb (String.eqb (id layer) AppExamples.first_uuid)) (layers st')
     = filter (fun layer => negb (String.eqb (id layer) AppExamples.first_uuid))
         (layers AppExamples.one_layer)
  /\ handleLayerRemove AppExamples.first_uuid st'
     = handleLayerRemove AppExamples.first_uuid AppExamples.one_layer.
Proof.
  apply (an_update_keeps_identifiers_and_clouds AppExamples.one_layer
           AppExamples.first_uuid AppExamples.hide); reflexivity.
Defined.

End AppFacts.

(** ** MapView.tsx: what is rendered *)

Module RenderFacts.

Import LoaderFacts BuildFacts LoadFacts BufferFacts SchemeFacts AppFacts.

Local Open Scope float_scope.

(** On a cloud with four color bytes per point, colorizePoints either does
    not return (scheme 'rgb', no colors) or returns four bytes per point,
    and then without recursion. *)
Lemma colorizePoints_outcome fuel cloud settings :
  MapView.four_bytes_per_point cloud ->
  (colorizePoints (S fuel) cloud settings = None
   /\ colorScheme settings = Rgb /\ colors cloud = None)
  \/ (exists out,
        colorizePoints (S fuel) cloud settings = Some (Ret out)
        /\ colorizePoints 1 cloud settings = Some (Ret out)
        /\ length out = (4 * pointCount cloud)%nat
        /\ ~ (colorScheme settings = Rgb /\ colors cloud = None)).
Proof.
  unfold MapView.four_bytes_per_point. intros Hfour.
  destruct (colorScheme settings) eqn:Hs.
  - right. eexists. cbn [colorizePoints]. rewrite Hs.
    split; [reflexivity|]. split; [reflexivity|]. split; [|intros [? _]; discriminate].
    rewrite colorize_elevation_quads.
    rewrite flat_map_quads_length, length_seq; [lia|intros; apply sampled_pixel_length].
  - right. eexists. cbn [colorizePoints]. rewrite Hs.
    split; [reflexivity|]. split; [reflexivity|]. split; [|intros [? _]; discriminate].
    destruct (intensities cloud) as [ints|] eqn:Hi.
    + rewrite (colorize_intensity_quads _ _ ints Hi).
      rewrite flat_map_quads_length, length_seq; [lia|intros; apply sampled_pixel_length].
    + unfold colorize_intensity. rewrite Hi, fillSolidColor_quads.
      rewrite flat_map_quads_length, length_seq; [lia|reflexivity].
  - right. eexists. cbn [colorizePoints]. rewrite Hs.
    split; [reflexivity|]. split; [reflexivity|]. split; [|intros [? _]; discriminate].
    destruct (classifications cloud) as [cls|] eqn:Hc.
    + rewrite (colorize_classification_quads _ _ cls Hc).
      rewrite flat_map_quads_length, length_seq; [lia|].
      intros i. unfold class_pixel. destruct (isVisible _ _); [|reflexivity].
      now destruct (class_color _) as [[r g] b].
    + unfold colorize_classification. rewrite Hc, fillSolidColor_quads.
      rewrite flat_map_quads_length, length_seq; [lia|reflexivity].
  - destruct (colors cloud) as [source|] eqn:Hc.
    + right. cbn [colorizePoints]. rewrite Hs, Hc.
      unfold colorize_rgb, typed_set. rewrite length_alloc.
      destruct (Nat.ltb_spec (pointCount cloud * 4) (length source)) as [Hlong|Hfit]; [lia|].
      cbn [bind]. eexists.
      split; [reflexivity|]. split; [reflexivity|].
      split; [|intros [_ ?]; discriminate].
      set (base := source ++ skipn (length source) (alloc 0%Z (pointCount cloud * 4))).
      assert (length base = (pointCount cloud * 4)%nat) as Hlen.
      { unfold base. rewrite length_app, length_skipn, length_alloc. lia. }
      destruct (alpha_loop (pointCount cloud) base Hlen) as (Hl & _).
      rewrite Hl. lia.
    + left. split; [|auto].
      induction (S fuel) as [|f IH]; [reflexivity|].
      cbn [colorizePoints]. now rewrite Hs, Hc.
Qed.

(** The layer built for a layer of the application that holds a cloud. *)
Lemma pointCloudLayer_outcome fuel settings layer cloud :
  App.pointCloud layer = Some cloud ->
  MapView.four_bytes_per_point cloud ->
  (MapView.pointCloudLayer (S fuel) settings layer = None
   /\ colorScheme (MapView.view settings) = Rgb /\ colors cloud = None)
  \/ (exists d,
        MapView.pointCloudLayer (S fuel) settings layer = Some (Ret d)
        /\ MapView.pointCloudLayer 1 settings layer = Some (Ret d)
        /\ MapView.renders settings layer d
        /\ ~ (colorScheme (MapView.view settings) = Rgb /\ colors cloud = None)).
Proof.
  intros Hc Hfour. unfold MapView.pointCloudLayer. rewrite Hc.
  destruct (colorizePoints_outcome fuel cloud (MapView.view settings) Hfour)
    as [(Hnone & Hs & Hcol)|(out & Hout & Hone & Hlen & Hnot)].
  - left. rewrite Hnone. auto.
  - right. rewrite Hout, Hone. eexists.
    split; [reflexivity|]. split; [reflexivity|]. split; [|exact Hnot].
    exists cloud, out. auto.
Qed.

(** The layers built for a list of layers that all hold a cloud. *)
Lemma pointCloudLayers_outcome fuel settings ls :
  Forall (fun layer => exists cloud, App.pointCloud layer = Some cloud
                                     /\ MapView.four_bytes_per_point cloud) ls ->
  (MapView.map_layers (MapView.pointCloudLayer (S fuel) settings)
     (filter MapView.shown ls) = None
   /\ colorScheme (MapView.view settings) = Rgb
   /\ Exists (fun layer => App.visible layer = true
                           /\ exists cloud, App.pointCloud layer = Some cloud
                                            /\ colors cloud = None) ls)
  \/ (exists pcl,
        MapView.map_layers (MapView.pointCloudLayer (S fuel) settings)
          (filter MapView.shown ls) = Some (Ret pcl)
        /\ MapView.map_layers (MapView.pointCloudLayer 1 settings)
             (filter MapView.shown ls) = Some (Ret pcl)
        /\ Forall2 (MapView.renders settings) (filter App.visible ls) pcl
        /\ ~ (colorScheme (MapView.view settings) = Rgb
              /\ Exists (fun layer => App.visible layer = true
                                      /\ exists cloud, App.pointCloud layer = Some cloud
                                                       /\ colors cloud = None) ls)).
Proof.
  intros H. induction H as [|layer ls (cloud & Hc & Hfour) Hls IH].
  - right. exists []. cbn. split; [reflexivity|]. split; [reflexivity|].
    split; [constructor|]. intros [_ Hex]. inversion Hex.
  - assert (MapView.shown layer = App.visible layer) as Hshown.
    { unfold MapView.shown. rewrite Hc. apply andb_true_r. }
    cbn [filter]. rewrite Hshown.
    destruct (App.visible layer) eqn:Hv.
    + cbn [MapView.map_layers].
      destruct (pointCloudLayer_outcome fuel settings layer cloud Hc Hfour)
        as [(Hnone & Hs & Hcol)|(d & Hout & Hone & Hren & Hnot)].
      * left. rewrite Hnone. split; [reflexivity|]. split; [exact Hs|].
        constructor. split; [exact Hv|]. eauto.
      * rewrite Hout, Hone.
        destruct IH as [(Hnone & Hs & Hex)|(pcl & Hrun & Hrun1 & Hall & Hnot')].
        -- left. rewrite Hnone. split; [reflexivity|]. split; [exact Hs|].
           now apply Exists_cons_tl.
        -- right. rewrite Hrun, Hrun1. eexists.
           split; [reflexivity|]. split; [reflexivity|]. split.
           ++ constructor; [exact Hren|exact Hall].
           ++ intros [Hs Hex]. inversion Hex as [? ? (_ & c & Hc' & Hcol)|? ? Hex']; subst.
              ** apply Hnot. split; [exact Hs|]. congruence.
              ** apply Hnot'. auto.
    + destruct IH as [(Hnone & Hs & Hex)|(pcl & Hrun & Hrun1 & Hall & Hnot')].
      * left. split; [exact Hnone|]. split; [exact Hs|]. now apply Exists_cons_tl.
      * right. exists pcl. split; [exact Hrun|]. split; [exact Hrun1|].
        split; [exact Hall|].
        intros [Hs Hex]. inversion Hex as [? ? (Hv' & _)|? ? Hex']; subst.
        -- congruence.
        -- apply Hnot'. auto.
Qed.

Section Rendering.

Variable Math_cos : number -> number.
Variable forward : option number * option number -> result (number * number).
Variable load : list Z -> result LASMesh.
Variable fetch_bytes : App.Source -> result (list Z).

Lemma load_source_four_bytes source data :
  App.load_source forward load fetch_bytes source = Ret data ->
  MapView.four_bytes_per_point data.
Proof.
  unfold App.load_source. intros H.
  destruct (fetch_bytes source) as [buf|]; [|discriminate]. cbn [bind] in H.
  apply loadPointCloud_ret in H as (patched & mesh & _ & _ & Hb).
  apply build_ret in Hb as (position & pass & _ & _ & _ & ->).
  unfold MapView.four_bytes_per_point. cbn [colors pointCount].
  destruct (COLOR_0 mesh) as [c|]; [|exact I].
  pose proof (copy_colors_spec (Z.to_nat (sample_count (vertexCount mesh)))
                (sample_step (vertexCount mesh)) (value c) (size c)) as [Hlen _].
  rewrite Hlen. lia.
Qed.

(** X23. Rendering a state the events can lead to.  deckLayers yields
    its layers in every case but one: the scheme is 'rgb' and a visible
    layer has no colors (colorizePoints then returns no buffer for it).
    When it yields them, colorizePoints has not recursed, and deck.gl is
    given one point cloud layer per visible layer, in order, followed by the
    overlays of the cross-section; each point cloud layer carries the
    layer's positions, four color bytes per point, the layer's opacity and
    the sum of the two vertical offsets, and draws
    min(pointCount, pointBudget) points. *)
Theorem rendering_a_reachable_state :
  forall events fuel settings,
    let st := App.run Math_cos forward load fetch_bytes events in
    let out := MapView.deckLayers (S fuel) settings (App.layers st) (App.crossSection st) in
    ((exists deck, out = Some (Ret deck))
     <-> ~ (colorScheme (MapView.view settings) = Rgb
            /\ Exists (fun layer => App.visible layer = true
                                    /\ exists cloud, App.pointCloud layer = Some cloud
                                                     /\ colors cloud = None)
                 (App.layers st)))
    /\ (forall deck, out = Some (Ret deck) ->
          MapView.deckLayers 1 settings (App.layers st) (App.crossSection st)
          = Some (Ret deck)
          /\ exists pcl,
               deck = pcl ++ MapView.overlays (App.crossSection st)
               /\ Forall2 (MapView.renders settings)
                    (filter App.visible (App.layers st)) pcl).
Proof.
  intros events fuel settings st out.
  pose proof (reachable_layers_hold_loaded_clouds Math_cos forward load fetch_bytes
                MapView.four_bytes_per_point load_source_four_bytes events) as Hinv.
  fold st in Hinv.
  unfold out, MapView.deckLayers.
  destruct (pointCloudLayers_outcome fuel settings (App.layers st) Hinv)
    as [(Hnone & Hs & Hex)|(pcl & Hrun & Hrun1 & Hall & Hnot)].
  - rewrite Hnone. split; [split|].
    + intros [deck H]. discriminate.
    + intros H. exfalso. apply H. auto.
    + intros deck H. discriminate.
  - rewrite Hrun, Hrun1. split; [split; [intros _; exact Hnot|intros _; eauto]|].
    intros deck E. inversion E; subst. split; [reflexivity|].
    exists pcl. split; [reflexivity|exact Hall].
Qed.

End Rendering.

Lemma Math_min_below x y :
  isNaN (Math_min x y) = false ->
  (Math_min x y <=? x) = true /\ (Math_min x y <=? y) = true
  /\ (Math_min x y = x \/ Math_min x y = y).
Proof.
  unfold Math_min.
  destruct (isNaN x) eqn:Hx; [cbn [orb]; intros H; vm_compute in H; discriminate|].
  destruct (isNaN y) eqn:Hy; [cbn [orb]; intros H; vm_compute in H; discriminate|].
  cbn [orb]. apply isNaN_nn in Hx, Hy. intros _.
  destruct (x <? y) eqn:E1; [|destruct (y <? x) eqn:E2].
  - split; [now apply leb_refl|]. split; [now apply ltb_leb|now left].
  - split; [now apply ltb_leb|]. split; [now apply leb_refl|now right].
  - pose proof (ltb_false_leb _ _ Hx Hy E1) as Hyx.
    pose proof (ltb_false_leb _ _ Hy Hx E2) as Hxy.
    destruct (signbit x).
    + split; [now apply leb_refl|]. split; [exact Hxy|now left].
    + split; [exact Hyx|]. split; [now apply leb_refl|now right].
Qed.

(** X24. The number of points a point cloud layer draws is the smaller of
    the point count and the point budget: when it is a number it exceeds
    neither and is one of them.  The buffers it carries are not cut to it:
    the positions are those of the whole cloud. *)
Theorem point_budget_caps_the_points_drawn :
  forall fuel settings layer props,
    MapView.pointCloudLayer fuel settings layer
    = Some (Ret (MapView.PointCloudLayer props)) ->
    exists cloud,
      App.pointCloud layer = Some cloud
      /\ MapView.getPosition props = positions cloud
      /\ (isNaN (MapView.data_length props) = false ->
          (MapView.data_length props <=? MapView.pointBudget settings) = true
          /\ (MapView.data_length props <=? of_Z (Z.of_nat (pointCount cloud))) = true
          /\ (MapView.data_length props = of_Z (Z.of_nat (pointCount cloud))
              \/ MapView.data_length props = MapView.pointBudget settings)).
Proof.
  intros fuel settings layer props H. unfold MapView.pointCloudLayer in H.
  destruct (App.pointCloud layer) as [cloud|]; [|discriminate].
  destruct (colorizePoints fuel cloud (MapView.view settings)) as [[out|e]|];
    try discriminate.
  inversion H; subst; clear H. cbn [MapView.getPosition MapView.data_length].
  exists cloud. split; [reflexivity|]. split; [reflexivity|].
  intros Hn. destruct (Math_min_below _ _ Hn) as (H1 & H2 & H3).
  split; [exact H2|]. split; [exact H1|exact H3].
Qed.

Lemma point_budget_caps_the_points_drawn_witness :
  exists cloud,
    App.pointCloud AppExamples.tile_layer = Some cloud
    /\ MapView.getPosition AppExamples.tile_props = positions cloud
    /\ (isNaN (MapView.data_length AppExamples.tile_props) = false ->
        (MapView.data_length AppExamples.tile_props
         <=? MapView.pointBudget AppExamples.default_settings) = true
        /\ (MapView.data_length AppExamples.tile_props
            <=? of_Z (Z.of_nat (pointCount cloud))) = true
        /\ (MapView.data_length AppExamples.tile_props = of_Z (Z.of_nat (pointCount cloud))
            \/ MapView.data_length AppExamples.tile_props
               = MapView.pointBudget AppExamples.default_settings)).
Proof.
  apply (point_budget_caps_the_points_drawn 1 AppExamples.default_settings
           AppExamples.tile_layer AppExamples.tile_props).
  vm_compute. reflexivity.
Defined.

End RenderFacts.
